(** * AxleWatch transmitter: sensor identification, persisted configuration
      and telemetry framing

    A shallow embedding of [AxleWatch-TX-main.cpp].  The firmware keeps its
    configuration in globals; here they are the fields of one [machine]
    record that every function takes and returns.  The collaborators the
    firmware polls (the temperature bus, the clock, the button) are data
    handed to the functions: one [poll] per turn of a waiting loop. *)

From Stdlib Require Import ZArith List Bool Lia Ascii String.
From Stdlib Require Import Strings.Byte.
From Stdlib Require Import Floats.SpecFloat.
Import ListNotations.
Open Scope Z_scope.

(** ** Constants of the firmware *)

Definition MAX_SENSOR_COUNT : Z := 10.
Definition EEPROM_SIZE : nat := 512.
Definition EEPROM_MAGIC : Z := 0xABCD.
Definition EEPROM_MAGIC_ADDR : nat := 0.
Definition EEPROM_SENSOR_ADDR : nat := 4.
Definition EEPROM_SENSOR_COUNT_ADDR : nat := 84.
Definition TRANSMIT_INTERVAL_MS : Z := 30000.
Definition PACKET_SIZE : Z := 256.

(** [unsigned long] and [uint8_t] arithmetic wraps. *)
Definition u32 (x : Z) : Z := x mod 2 ^ 32.
Definition u8 (x : Z) : Z := x mod 2 ^ 8.

(** ** Text *)

Abbreviation text := (list ascii).

Definition chars (s : string) : text := list_ascii_of_string s.

Definition digit_chars : text := chars "0123456789".

Definition digit (d : Z) : ascii := nth (Z.to_nat d) digit_chars "0"%char.

Definition is_digit (c : ascii) : bool := existsb (Ascii.eqb c) digit_chars.

(** Decimal digits of a natural number, most significant first.  The fuel
    bounds the number of digits; [decimal] gives one more than the binary
    logarithm, which is always enough. *)
Fixpoint digits (fuel : nat) (n : Z) : text :=
  match fuel with
  | O => []
  | S f => if n <? 10 then [digit n] else digits f (n / 10) ++ [digit (n mod 10)]
  end.

Definition decimal (n : Z) : text := digits (S (Z.to_nat (Z.log2 n))) n.

(** The number a run of digits denotes. *)
Definition digit_value (c : ascii) : Z := Z.of_nat (nat_of_ascii c) - 48.

Definition number (t : text) : Z :=
  fold_left (fun acc c => 10 * acc + digit_value c) t 0.

(** [printf("%d")]. *)
Definition printf_d (n : Z) : text :=
  if n <? 0 then "-"%char :: decimal (- n) else decimal n.

(** ** Temperatures

    A temperature is a C [float]: an IEEE 754 binary32 value. *)

Definition float := spec_float.

Definition prec32 : Z := 24.
Definition emax32 : Z := 128.

Definition fzero : float := S754_zero false.

(** The [float] of an integer, and the correctly rounded quotient of two:
    how the compiler reads a literal such as 25.1 (251 / 10). *)
Definition float_of_Z (z : Z) : float := binary_normalize prec32 emax32 z 0 false.

Definition float_ratio (num den : Z) : float :=
  SFdiv prec32 emax32 (float_of_Z num) (float_of_Z den).

(** TEMP_CHANGE_THRESHOLD, 1.5 = 12582912 * 2^-23. *)
Definition TEMP_CHANGE_THRESHOLD : float := S754_finite false 12582912 (-23).

(** [abs(currentTemp - baselines[i]) > TEMP_CHANGE_THRESHOLD]: the difference
    is rounded to binary32 as the C subtraction is. *)
Definition touched (currentTemp baseline : float) : bool :=
  SFltb TEMP_CHANGE_THRESHOLD (SFabs (SFsub prec32 emax32 currentTemp baseline)).

(** What [getTempC] delivers at TEMP_PRECISION 12: a whole number of
    sixteenths of a degree, from -55 degrees (-880) to 125 degrees (2000). *)
Definition sixteenths (k : Z) : float := binary_normalize prec32 emax32 k (-4) false.

(** Nearest integer to [num / den], ties to the even one. *)
Definition round_half_even (num den : Z) : Z :=
  let q := num / den in
  match 2 * (num mod den) ?= den with
  | Lt => q
  | Gt => q + 1
  | Eq => if Z.even q then q else q + 1
  end.

(** Magnitude of [m * 2^e] in tenths, correctly rounded. *)
Definition tenths (m : positive) (e : Z) : Z :=
  if 0 <=? e then Z.pos m * 2 ^ e * 10
  else round_half_even (Z.pos m * 10) (2 ^ (- e)).

Definition fixed1 (neg : bool) (t : Z) : text :=
  (if neg then ["-"%char] else []) ++ decimal (t / 10) ++ ["."%char; digit (t mod 10)].

(** [printf("%.1f")]. *)
Definition printf_1f (x : float) : text :=
  match x with
  | S754_zero s => fixed1 s 0
  | S754_infinity s => (if s then ["-"%char] else []) ++ chars "inf"
  | S754_nan => chars "nan"
  | S754_finite s m e => fixed1 s (tenths m e)
  end.

(** ** The packet buffer

    [char packet[256]] is filled by a run of
    [offset += snprintf(packet + offset, sizeof(packet) - offset, ...)].
    A call writes what fits before the terminator and returns the full
    length.  Once [offset] has passed the end of the array the size argument
    wraps around and the write is outside the array: no result. *)

Record cursor := { written : text; offset : Z }.

Definition snprintf_at (c : cursor) (s : text) : option cursor :=
  if PACKET_SIZE <? offset c then None
  else Some {| written := written c ++ firstn (Z.to_nat (PACKET_SIZE - offset c - 1)) s;
               offset := offset c + Z.of_nat (List.length s) |}.

Fixpoint snprintf_all (c : cursor) (pieces : list text) : option cursor :=
  match pieces with
  | [] => Some c
  | s :: rest =>
      match snprintf_at c s with
      | Some c' => snprintf_all c' rest
      | None => None
      end
  end.

(** The [snprintf] calls of [readAndTransmitData], in order:
    the header, one value per assigned position, the "0.0" fill, the ambient
    value. *)
Definition packet_pieces (transmitterID activeSensorCount : Z)
    (temps : list float) : list text :=
  [chars "TX" ++ printf_d transmitterID ++ chars ":"]
  ++ map (fun i => printf_1f (nth i temps fzero) ++ chars ",")
         (seq 1 (Z.to_nat activeSensorCount - 1))
  ++ map (fun _ => chars "0.0,")
         (seq (Z.to_nat activeSensorCount)
              (Z.to_nat MAX_SENSOR_COUNT - Z.to_nat activeSensorCount))
  ++ [printf_1f (nth 0 temps fzero)].

Definition encode_packet (transmitterID activeSensorCount : Z)
    (temps : list float) : option string :=
  option_map (fun c => string_of_list_ascii (written c))
    (snprintf_all {| written := []; offset := 0 |}
       (packet_pieces transmitterID activeSensorCount temps)).

(** The fields of a packet: the text after the first colon, cut at commas. *)
Fixpoint split_on (sep : ascii) (s : text) : list text :=
  match s with
  | [] => [[]]
  | x :: r =>
      if Ascii.eqb x sep then [] :: split_on sep r
      else match split_on sep r with
           | f :: fs => (x :: f) :: fs
           | [] => [[x]]
           end
  end.

Fixpoint after_colon (s : text) : text :=
  match s with
  | [] => []
  | x :: r => if Ascii.eqb x ":"%char then r else after_colon r
  end.

Definition packet_fields (p : string) : list text :=
  split_on ","%char (after_colon (chars p)).

(** A field with exactly one fractional digit: an optional sign, one or more
    digits, the point, one digit. *)
Definition one_fraction_digit (f : text) : bool :=
  match rev f with
  | d :: p :: whole =>
      is_digit d && Ascii.eqb p "."%char &&
      let int_part := match rev whole with
                      | c :: r => if Ascii.eqb c "-"%char then r else c :: r
                      | [] => []
                      end in
      negb (Nat.eqb (List.length int_part) 0) && forallb is_digit int_part
  | _ => false
  end.

(** The number a field says, read back independently of the printer: an
    optional sign, digits, a point and one digit.  The result is the sign
    and the magnitude in tenths. *)
Definition field_tenths (f : text) : option (bool * Z) :=
  let (neg, body) :=
    match f with
    | c :: r => if Ascii.eqb c "-"%char then (true, r) else (false, f)
    | [] => (false, f)
    end in
  match rev body with
  | d :: p :: r =>
      let whole := rev r in
      if Ascii.eqb p "."%char && is_digit d
         && negb (Nat.eqb (List.length whole) 0) && forallb is_digit whole
      then Some (neg, 10 * number whole + digit_value d)
      else None
  | _ => None
  end.

(** [t] tenths is the magnitude [m * 2^e] rounded to the nearest tenth: it
    is at most half a tenth away, and when it is exactly half a tenth away
    [t] is even.  Both sides are scaled by a power of two so that they are
    integers: the magnitude in tenths is [num / scale]. *)
Definition nearest_tenth (m : positive) (e : Z) (t : Z) : Prop :=
  let num := 10 * Z.pos m * 2 ^ Z.max 0 e in
  let scale := 2 ^ Z.max 0 (- e) in
  2 * Z.abs (num - t * scale) <= scale /\
  (2 * Z.abs (num - t * scale) = scale -> Z.even t = true).

(** Field [f] is temperature [x] to one decimal place, with the sign of
    [x]. *)
Definition denotes (f : text) (x : float) : Prop :=
  match x with
  | S754_zero s => field_tenths f = Some (s, 0)
  | S754_finite s m e => exists t, field_tenths f = Some (s, t) /\ nearest_tenth m e t
  | _ => False
  end.

(** ** Device addresses and the configuration *)

(** [DeviceAddress] is [uint8_t[8]]. *)
Record DeviceAddress := mkAddress {
  a0 : byte; a1 : byte; a2 : byte; a3 : byte;
  a4 : byte; a5 : byte; a6 : byte; a7 : byte
}.

Definition address_bytes (a : DeviceAddress) : list byte :=
  [a0 a; a1 a; a2 a; a3 a; a4 a; a5 a; a6 a; a7 a].

Definition address_of_bytes (l : list byte) : DeviceAddress :=
  mkAddress (nth 0 l x00) (nth 1 l x00) (nth 2 l x00) (nth 3 l x00)
            (nth 4 l x00) (nth 5 l x00) (nth 6 l x00) (nth 7 l x00).

Definition zero_address : DeviceAddress := address_of_bytes [].

(** [memcmp(a, b, 8) == 0]. *)
Definition memcmp8_eq (a b : DeviceAddress) : bool :=
  forallb (fun p => Byte.eqb (fst p) (snd p))
          (combine (address_bytes a) (address_bytes b)).

(** [latestData]. *)
Record SensorData := {
  temps : list float;
  timestamp : Z;
  valid : bool
}.

(** The byte store behind [EEPROM]. *)
Definition store := nat -> byte.

(** The globals of the firmware, the EEPROM (its RAM mirror and what has
    been committed to flash), the packets handed to the radio, and whether
    the device has gone to deep sleep. *)
Record machine := {
  sensorConfig : list DeviceAddress;
  sensorsConfigured : bool;
  lastTransmitTime : Z;
  activeSensorCount : Z;
  transmitterID : Z;
  powerSaveMode : bool;
  latestData : SensorData;
  totalPackets : Z;
  eeprom : store;
  flash : store;
  radio : list string;
  asleep : bool
}.

Definition set_sensorConfig (v : list DeviceAddress) (s : machine) : machine :=
  {| sensorConfig := v; sensorsConfigured := sensorsConfigured s;
     lastTransmitTime := lastTransmitTime s; activeSensorCount := activeSensorCount s;
     transmitterID := transmitterID s; powerSaveMode := powerSaveMode s;
     latestData := latestData s; totalPackets := totalPackets s;
     eeprom := eeprom s; flash := flash s; radio := radio s; asleep := asleep s |}.

Definition set_sensorsConfigured (v : bool) (s : machine) : machine :=
  {| sensorConfig := sensorConfig s; sensorsConfigured := v;
     lastTransmitTime := lastTransmitTime s; activeSensorCount := activeSensorCount s;
     transmitterID := transmitterID s; powerSaveMode := powerSaveMode s;
     latestData := latestData s; totalPackets := totalPackets s;
     eeprom := eeprom s; flash := flash s; radio := radio s; asleep := asleep s |}.

Definition set_lastTransmitTime (v : Z) (s : machine) : machine :=
  {| sensorConfig := sensorConfig s; sensorsConfigured := sensorsConfigured s;
     lastTransmitTime := v; activeSensorCount := activeSensorCount s;
     transmitterID := transmitterID s; powerSaveMode := powerSaveMode s;
     latestData := latestData s; totalPackets := totalPackets s;
     eeprom := eeprom s; flash := flash s; radio := radio s; asleep := asleep s |}.

Definition set_activeSensorCount (v : Z) (s : machine) : machine :=
  {| sensorConfig := sensorConfig s; sensorsConfigured := sensorsConfigured s;
     lastTransmitTime := lastTransmitTime s; activeSensorCount := v;
     transmitterID := transmitterID s; powerSaveMode := powerSaveMode s;
     latestData := latestData s; totalPackets := totalPackets s;
     eeprom := eeprom s; flash := flash s; radio := radio s; asleep := asleep s |}.

Definition set_latestData (v : SensorData) (s : machine) : machine :=
  {| sensorConfig := sensorConfig s; sensorsConfigured := sensorsConfigured s;
     lastTransmitTime := lastTransmitTime s; activeSensorCount := activeSensorCount s;
     transmitterID := transmitterID s; powerSaveMode := powerSaveMode s;
     latestData := v; totalPackets := totalPackets s;
     eeprom := eeprom s; flash := flash s; radio := radio s; asleep := asleep s |}.

Definition set_eeprom (v : store) (s : machine) : machine :=
  {| sensorConfig := sensorConfig s; sensorsConfigured := sensorsConfigured s;
     lastTransmitTime := lastTransmitTime s; activeSensorCount := activeSensorCount s;
     transmitterID := transmitterID s; powerSaveMode := powerSaveMode s;
     latestData := latestData s; totalPackets := totalPackets s;
     eeprom := v; flash := flash s; radio := radio s; asleep := asleep s |}.

(** [EEPROM.commit()]: the RAM mirror goes to flash. *)
Definition EEPROM_commit (s : machine) : machine :=
  {| sensorConfig := sensorConfig s; sensorsConfigured := sensorsConfigured s;
     lastTransmitTime := lastTransmitTime s; activeSensorCount := activeSensorCount s;
     transmitterID := transmitterID s; powerSaveMode := powerSaveMode s;
     latestData := latestData s; totalPackets := totalPackets s;
     eeprom := eeprom s; flash := eeprom s; radio := radio s; asleep := asleep s |}.

(** [LoRa.beginPacket(); LoRa.print(packet); LoRa.endPacket();
    loraStats.totalPackets++]. *)
Definition LoRa_send (packet : string) (s : machine) : machine :=
  {| sensorConfig := sensorConfig s; sensorsConfigured := sensorsConfigured s;
     lastTransmitTime := lastTransmitTime s; activeSensorCount := activeSensorCount s;
     transmitterID := transmitterID s; powerSaveMode := powerSaveMode s;
     latestData := latestData s; totalPackets := u32 (totalPackets s + 1);
     eeprom := eeprom s; flash := flash s; radio := radio s ++ [packet];
     asleep := asleep s |}.

Definition enterDeepSleep (s : machine) : machine :=
  {| sensorConfig := sensorConfig s; sensorsConfigured := sensorsConfigured s;
     lastTransmitTime := lastTransmitTime s; activeSensorCount := activeSensorCount s;
     transmitterID := transmitterID s; powerSaveMode := powerSaveMode s;
     latestData := latestData s; totalPackets := totalPackets s;
     eeprom := eeprom s; flash := flash s; radio := radio s; asleep := true |}.

(** [a[i] = v] on an array held as a list. *)
Fixpoint set_nth {A : Type} (i : nat) (v : A) (l : list A) : list A :=
  match l, i with
  | [], _ => []
  | _ :: r, O => v :: r
  | x :: r, S i' => x :: set_nth i' v r
  end.

Definition slot (s : machine) (i : nat) : DeviceAddress :=
  nth i (sensorConfig s) zero_address.

(** The state the globals are initialised to, with [EEPROM.begin] having
    loaded the mirror from flash. *)
Definition boot (rom : store) : machine :=
  {| sensorConfig := repeat zero_address (Z.to_nat MAX_SENSOR_COUNT);
     sensorsConfigured := false;
     lastTransmitTime := 0;
     activeSensorCount := 1;
     transmitterID := 1;
     powerSaveMode := false;
     latestData := {| temps := repeat fzero (Z.to_nat MAX_SENSOR_COUNT);
                      timestamp := 0; valid := false |};
     totalPackets := 0;
     eeprom := rom; flash := rom; radio := []; asleep := false |}.

(** ** EEPROM access *)

(** [EEPROM.put]: copies the bytes of the value when they fit. *)
Definition EEPROM_put (address : nat) (bs : list byte) (m : store) : store :=
  if (address + List.length bs <=? EEPROM_SIZE)%nat then
    fun a => if ((address <=? a) && (a <? address + List.length bs))%nat
             then nth (a - address) bs x00 else m a
  else m.

(** [EEPROM.get] of a value of [n] bytes. *)
Definition EEPROM_get (address n : nat) (m : store) : list byte :=
  map m (seq address n).

Definition byte_of_Z (n : Z) : byte :=
  match Byte.of_N (Z.to_N (u8 n)) with
  | Some b => b
  | None => x00
  end.

Definition Z_of_byte (b : byte) : Z := Z.of_N (Byte.to_N b).

(** [uint16_t], little endian. *)
Definition bytes_of_u16 (v : Z) : list byte :=
  [byte_of_Z (v mod 256); byte_of_Z (v / 256)].

Definition u16_of_bytes (l : list byte) : Z :=
  Z_of_byte (nth 0 l x00) + 256 * Z_of_byte (nth 1 l x00).

(** The bytes of [struct SensorConfig]: the slots one after another. *)
Definition config_bytes (sensors : list DeviceAddress) : list byte :=
  flat_map address_bytes sensors.

Definition config_of_bytes (l : list byte) : list DeviceAddress :=
  map (fun k => address_of_bytes (firstn 8 (skipn (8 * k) l)))
      (seq 0 (Z.to_nat MAX_SENSOR_COUNT)).

(** ** Uniqueness checks *)

(** [isDuplicateSensor]. *)
Definition isDuplicateSensor (s : machine) (newAddr : DeviceAddress)
    (excludeIndex : nat) : bool :=
  existsb (fun i => memcmp8_eq newAddr (slot s i))
          (seq 0 (Nat.min excludeIndex (Z.to_nat (activeSensorCount s)))).

(** The pairs [(i, j)] in the order the two loops of [validateUniqueConfig]
    visit them. *)
Definition pairs_below (n : nat) : list (nat * nat) :=
  flat_map (fun i => map (fun j => (i, j)) (seq (S i) (n - S i))) (seq 0 n).

Definition first_collision (s : machine) : option (nat * nat) :=
  find (fun p => memcmp8_eq (slot s (fst p)) (slot s (snd p)))
       (pairs_below (Z.to_nat (activeSensorCount s))).

Definition validateUniqueConfig (s : machine) : bool :=
  match first_collision s with
  | Some _ => false
  | None => true
  end.

(** ** Saving and loading *)

Definition saveSensorConfig (s : machine) : machine :=
  let m := EEPROM_put EEPROM_MAGIC_ADDR (bytes_of_u16 EEPROM_MAGIC) (eeprom s) in
  let m := EEPROM_put EEPROM_SENSOR_ADDR (config_bytes (sensorConfig s)) m in
  let m := EEPROM_put EEPROM_SENSOR_COUNT_ADDR [byte_of_Z (activeSensorCount s)] m in
  EEPROM_commit (set_eeprom m s).

(** What a call prints and signals. *)
Inductive event :=
| Serial_print (line : string)
| BlinkLED (pin times delayMs : Z).

Definition LED_RED_PIN : Z := 26.

Definition hex_chars : text := chars "0123456789ABCDEF".

Definition hex2 (b : byte) : text :=
  [nth (Z.to_nat (Z_of_byte b / 16)) hex_chars "0"%char;
   nth (Z.to_nat (Z_of_byte b mod 16)) hex_chars "0"%char].

Fixpoint join (sep : text) (l : list text) : text :=
  match l with
  | [] => []
  | [x] => x
  | x :: r => x ++ sep ++ join sep r
  end.

(** [printSensorAddress]. *)
Definition printSensorAddress (a : DeviceAddress) : string :=
  string_of_list_ascii (join (chars ":") (map hex2 (address_bytes a))).

Definition dec (n : Z) : string := string_of_list_ascii (printf_d n).

(** The three fields of the persisted record. *)
Definition stored_magic (m : store) : Z :=
  u16_of_bytes (EEPROM_get EEPROM_MAGIC_ADDR 2 m).

Definition stored_config (m : store) : list DeviceAddress :=
  config_of_bytes (EEPROM_get EEPROM_SENSOR_ADDR 80 m).

Definition stored_count (m : store) : Z :=
  Z_of_byte (nth 0 (EEPROM_get EEPROM_SENSOR_COUNT_ADDR 1 m) x00).

(** [EEPROM.get(EEPROM_SENSOR_ADDR, sensorConfig);
    EEPROM.get(EEPROM_SENSOR_COUNT_ADDR, activeSensorCount);]. *)
Definition read_stored (s : machine) : machine :=
  set_activeSensorCount (stored_count (eeprom s))
    (set_sensorConfig (stored_config (eeprom s)) s).

(** The listing of a configuration that was read. *)
Definition listing (s : machine) : list event :=
  [Serial_print ("Configuration loaded: " ++ dec (activeSensorCount s) ++ " sensors");
   Serial_print "Configured sensors:";
   Serial_print ("  Ambient: " ++ printSensorAddress (slot s 0))]
  ++ map (fun i => Serial_print ("  Pos" ++ dec (Z.of_nat i) ++ ": "
                                  ++ printSensorAddress (slot s i)))
         (seq 1 (Z.to_nat (activeSensorCount s) - 1)).

Definition duplicate_warning (i j : nat) : list event :=
  [Serial_print ("ERROR: Duplicate sensor detected between positions "
                 ++ dec (Z.of_nat i) ++ " and " ++ dec (Z.of_nat j) ++ "!");
   Serial_print "✗ WARNING: Loaded configuration contains duplicate sensors!";
   Serial_print "   Setup required to fix configuration.";
   BlinkLED LED_RED_PIN 5 200].

Definition no_configuration : event :=
  Serial_print "No valid configuration found - setup required".

(** [loadSensorConfig]: the new state and what the call printed and
    signalled. *)
Definition loadSensorConfig (s : machine) : machine * list event :=
  let out := [Serial_print "Loading configuration from EEPROM..."] in
  if stored_magic (eeprom s) =? EEPROM_MAGIC then
    let s := read_stored s in
    if (activeSensorCount s <? 1) || (MAX_SENSOR_COUNT <? activeSensorCount s) then
      (set_sensorsConfigured false (set_activeSensorCount 1 s),
       out ++ [Serial_print ("✗ Invalid sensor count (" ++ dec (activeSensorCount s)
                             ++ "), resetting to 1")])
    else
      match first_collision s with
      | Some (i, j) =>
          (set_sensorsConfigured false s, out ++ listing s ++ duplicate_warning i j)
      | None =>
          (set_sensorsConfigured true s,
           out ++ listing s
               ++ [Serial_print "✓ Configuration validated - all sensors unique"])
      end
  else (set_sensorsConfigured false s, out ++ [no_configuration]).

(** ** Polling the bus

    One turn of a waiting loop: the value [millis()] has at the loop test,
    whether the save button is then held for BUTTON_SAVE_PRESS_MS, what
    [getTempC] returns for candidate [i] in the pass that follows, and the
    value [millis()] has once candidate [i] has been dealt with. *)
Record poll := {
  clock : Z;
  save_held : bool;
  getTempC : nat -> float;
  clock_after : nat -> Z
}.

(** A run either returns, reads outside an array, or is still waiting when
    the recorded polls end. *)
Inductive run (A : Type) :=
| Done (a : A)
| OutOfBounds
| Pending.
Arguments Done {A} a.
Arguments OutOfBounds {A}.
Arguments Pending {A}.

(** The [for] loop of [findSensorByTouch]: the first candidate from [i] on,
    among [n] more, that moved past the threshold. *)
Fixpoint first_touch (p : poll) (baselines : list float) (i n : nat)
  : run (option nat) :=
  match n with
  | O => Done None
  | S n' =>
      match nth_error baselines i with
      | None => OutOfBounds
      | Some b =>
          if touched (getTempC p i) b then Done (Some i)
          else first_touch p baselines (S i) n'
      end
  end.

Definition TOUCH_TIMEOUT_MS : Z := 30000.

(** The [while] loop of [findSensorByTouch]: the index found, or -1, and the
    baselines as the call leaves them. *)
Fixpoint findSensorByTouch_from (startTime : Z) (polls : list poll)
    (baselines : list float) (count : nat) : run (Z * list float) :=
  match polls with
  | [] => Pending
  | p :: rest =>
      if u32 (clock p - startTime) <? TOUCH_TIMEOUT_MS then
        match first_touch p baselines 0 count with
        | Done (Some i) => Done (Z.of_nat i, set_nth i (getTempC p i) baselines)
        | Done None => findSensorByTouch_from startTime rest baselines count
        | OutOfBounds => OutOfBounds
        | Pending => Pending
        end
      else Done (-1, baselines)
  end.

(** What the bus, the clock and the button deliver to one call: the value of
    [millis()] at entry and the polls of the loop. *)
Record window := {
  opened : Z;
  polls : list poll
}.

Definition findSensorByTouch (w : window) (baselines : list float)
    (count : nat) : run (Z * list float) :=
  findSensorByTouch_from (opened w) (polls w) baselines count.

(** ** The setup sequence *)

Definition POSITION_TIMEOUT_MS : Z := 60000.

(** The locals of a position wait together with the globals. *)
Record waiting := {
  w_machine : machine;
  w_baselines : list float;
  w_waitStart : Z;
  w_sensorFound : bool
}.

Definition assign_slot (pos : nat) (a : DeviceAddress) (s : machine) : machine :=
  set_sensorConfig (set_nth pos a (sensorConfig s)) s.

(** The [for] loop over the candidates inside a position wait. *)
Fixpoint scan_for_touch (pos : nat) (allSensors : list DeviceAddress)
    (p : poll) (i n : nat) (st : waiting) : waiting :=
  match n with
  | O => st
  | S n' =>
      let currentTemp := getTempC p i in
      if touched currentTemp (nth i (w_baselines st) fzero) then
        if isDuplicateSensor (w_machine st) (nth i allSensors zero_address) pos then
          scan_for_touch pos allSensors p (S i) n'
            {| w_machine := w_machine st;
               w_baselines := set_nth i currentTemp (w_baselines st);
               w_waitStart := clock_after p i;
               w_sensorFound := w_sensorFound st |}
        else
          {| w_machine :=
               set_activeSensorCount (u8 (activeSensorCount (w_machine st) + 1))
                 (assign_slot pos (nth i allSensors zero_address) (w_machine st));
             w_baselines := set_nth i currentTemp (w_baselines st);
             w_waitStart := w_waitStart st;
             w_sensorFound := true |}
      else scan_for_touch pos allSensors p (S i) n' st
  end.

Inductive wait_exit := SensorFound | ButtonPressed | WaitTimeout.

(** The [while] loop of a position wait. *)
Fixpoint wait_for_position (pos : nat) (allSensors : list DeviceAddress)
    (n : nat) (ps : list poll) (st : waiting) : run (wait_exit * waiting) :=
  match ps with
  | [] => Pending
  | p :: rest =>
      if u32 (clock p - w_waitStart st) <? POSITION_TIMEOUT_MS then
        if save_held p then Done (ButtonPressed, st)
        else
          let st' := scan_for_touch pos allSensors p 0 n st in
          if w_sensorFound st' then Done (SensorFound, st')
          else wait_for_position pos allSensors n rest st'
      else Done (WaitTimeout, st)
  end.

(** The [for] loop over the positions, [remaining] of them from [pos] on. *)
Fixpoint assign_positions (remaining pos : nat) (allSensors : list DeviceAddress)
    (n : nat) (ws : list window) (baselines : list float) (s : machine)
  : run machine :=
  match remaining with
  | O => Done s
  | S k =>
      match ws with
      | [] => Pending
      | w :: ws' =>
          match wait_for_position pos allSensors n (polls w)
                  {| w_machine := s; w_baselines := baselines;
                     w_waitStart := opened w; w_sensorFound := false |} with
          | Done (SensorFound, st) =>
              assign_positions k (S pos) allSensors n ws' (w_baselines st) (w_machine st)
          | Done (_, st) => Done (w_machine st)
          | OutOfBounds => OutOfBounds
          | Pending => Pending
          end
      end
  end.

(** What the collaborators deliver to one setup attempt. *)
Record world := {
  devices : list DeviceAddress;   (* getDeviceCount and getAddress *)
  baselineTemp : nat -> float;    (* the baseline reading of device i *)
  ambient : window;               (* the wait for the ambient sensor *)
  positions : list window         (* the waits for the positions, in order *)
}.

(** The ways [scanAndIdentifySensors] returns. *)
Inductive setup_exit :=
| NoSensorsFound
| AmbientRequired
| DuplicateSensors
| SetupComplete.

Definition scanAndIdentifySensors (w : world) (s : machine)
  : run (setup_exit * machine) :=
  let deviceCount := List.length (devices w) in
  if (deviceCount <? 1)%nat then Done (NoSensorsFound, s)
  else
    let allSensors := firstn 16 (devices w) in
    let baselines := map (baselineTemp w) (seq 0 (Nat.min deviceCount 16)) in
    let s := set_activeSensorCount 0 s in
    match findSensorByTouch (ambient w) baselines deviceCount with
    | Done (identifiedSensor, baselines) =>
        if 0 <=? identifiedSensor then
          let s := assign_slot 0 (nth (Z.to_nat identifiedSensor) allSensors zero_address) s in
          let s := set_activeSensorCount 1 s in
          match assign_positions (Z.to_nat MAX_SENSOR_COUNT - 1) 1 allSensors
                  (Nat.min deviceCount 16) (positions w) baselines s with
          | Done s =>
              if validateUniqueConfig s
              then Done (SetupComplete, set_sensorsConfigured true (saveSensorConfig s))
              else Done (DuplicateSensors, s)
          | OutOfBounds => OutOfBounds
          | Pending => Pending
          end
        else Done (AmbientRequired, s)
    | OutOfBounds => OutOfBounds
    | Pending => Pending
    end.

Definition enterSetupMode (w : world) (s : machine) : run (setup_exit * machine) :=
  scanAndIdentifySensors w s.

(** ** Transmission *)

(** What the collaborators deliver to one transmission: the reading of the
    probe with a given address and the value of [millis()]. *)
Record transmit_io := {
  probe : DeviceAddress -> float;
  millis_read : Z
}.

Definition readAndTransmitData (io : transmit_io) (s : machine) : run machine :=
  let temps' :=
    fold_left (fun t i => set_nth i (probe io (slot s i)) t)
              (seq 0 (Z.to_nat (activeSensorCount s))) (temps (latestData s)) in
  let s := set_latestData {| temps := temps';
                             timestamp := millis_read io / 1000;
                             valid := true |} s in
  match encode_packet (transmitterID s) (activeSensorCount s) temps' with
  | Some packet => Done (LoRa_send packet s)
  | None => OutOfBounds
  end.

(** What the collaborators deliver to one turn of [loop]. *)
Record loop_io := {
  setup_pressed : bool;     (* checkButtonPress(BUTTON_SETUP_PRESS_MS) *)
  setup_world : world;
  loop_millis : Z;          (* millis() in the transmit test *)
  transmit : transmit_io;
  sent_millis : Z           (* millis() stored in lastTransmitTime *)
}.

Definition transmit_due (now : Z) (s : machine) : bool :=
  sensorsConfigured s && (TRANSMIT_INTERVAL_MS <=? u32 (now - lastTransmitTime s)).

Definition loop (io : loop_io) (s : machine) : run machine :=
  match (if setup_pressed io
         then match enterSetupMode (setup_world io) s with
              | Done (_, s') => Done s'
              | OutOfBounds => OutOfBounds
              | Pending => Pending
              end
         else Done s) with
  | Done s =>
      if transmit_due (loop_millis io) s then
        match readAndTransmitData (transmit io) s with
        | Done s =>
            let s := set_lastTransmitTime (sent_millis io) s in
            Done (if powerSaveMode s then enterDeepSleep s else s)
        | OutOfBounds => OutOfBounds
        | Pending => Pending
        end
      else Done s
  | OutOfBounds => OutOfBounds
  | Pending => Pending
  end.

(** ** Device name and transmitter settings *)

Definition EEPROM_NAME_ADDR : nat := 88.
Definition EEPROM_TRANSMITTER_ID_ADDR : nat := 120.
Definition EEPROM_POWER_MODE_ADDR : nat := 122.
Definition MAX_DEVICE_NAME_LENGTH : nat := 32.

Definition set_transmitterID (v : Z) (s : machine) : machine :=
  {| sensorConfig := sensorConfig s; sensorsConfigured := sensorsConfigured s;
     lastTransmitTime := lastTransmitTime s; activeSensorCount := activeSensorCount s;
     transmitterID := v; powerSaveMode := powerSaveMode s;
     latestData := latestData s; totalPackets := totalPackets s;
     eeprom := eeprom s; flash := flash s; radio := radio s; asleep := asleep s |}.

Definition set_powerSaveMode (v : bool) (s : machine) : machine :=
  {| sensorConfig := sensorConfig s; sensorsConfigured := sensorsConfigured s;
     lastTransmitTime := lastTransmitTime s; activeSensorCount := activeSensorCount s;
     transmitterID := transmitterID s; powerSaveMode := v;
     latestData := latestData s; totalPackets := totalPackets s;
     eeprom := eeprom s; flash := flash s; radio := radio s; asleep := asleep s |}.

(** [char deviceName[32]] is a list of 32 bytes; the firmware is the
    [machine] together with it. *)
Definition name_bytes (s : string) : list byte :=
  map byte_of_ascii (list_ascii_of_string s).

Definition default_deviceName : list byte :=
  name_bytes "AxleWatch-TX" ++ repeat x00 20.

(** The C string an array holds: the bytes in front of the first NUL. *)
Fixpoint c_string (l : list byte) : list byte :=
  match l with
  | [] => []
  | c :: r => if Byte.eqb c x00 then [] else c :: c_string r
  end.

(** [strncpy(dest, src, n)]: the [n] bytes written.  A source list that
    ends stands for a string whose terminator follows. *)
Fixpoint strncpy (n : nat) (src : list byte) : list byte :=
  match n with
  | O => []
  | S n' =>
      match src with
      | [] => repeat x00 (S n')
      | c :: r => if Byte.eqb c x00 then repeat x00 (S n') else c :: strncpy n' r
      end
  end.

(** The loop of [loadDeviceName]: every byte in front of the first NUL is
    in 32..126.  A byte above 126 fails the test whether [char] is signed
    (it is then below 32) or not. *)
Fixpoint printable_until_nul (l : list byte) : bool :=
  match l with
  | [] => true
  | c :: r =>
      if Byte.eqb c x00 then true
      else if (Z_of_byte c <? 32) || (126 <? Z_of_byte c) then false
      else printable_until_nul r
  end.

Definition stored_name_valid (tempName : list byte) : bool :=
  let first := Z_of_byte (nth 0 tempName x00) in
  if (first =? 0) || (first =? 255) then false else printable_until_nul tempName.

Definition saveDeviceName (deviceName : list byte) (s : machine) : machine :=
  EEPROM_commit (set_eeprom (EEPROM_put EEPROM_NAME_ADDR deviceName (eeprom s)) s).

(** [loadDeviceName]: the new content of [deviceName]. *)
Definition loadDeviceName (deviceName : list byte) (s : machine) : list byte :=
  let tempName := EEPROM_get EEPROM_NAME_ADDR MAX_DEVICE_NAME_LENGTH (eeprom s) in
  if stored_name_valid tempName
  then strncpy (MAX_DEVICE_NAME_LENGTH - 1) tempName ++ [x00]
  else deviceName.

Definition saveTransmitterConfig (s : machine) : machine :=
  let m := EEPROM_put EEPROM_TRANSMITTER_ID_ADDR (bytes_of_u16 (transmitterID s)) (eeprom s) in
  let m := EEPROM_put EEPROM_POWER_MODE_ADDR [if powerSaveMode s then x01 else x00] m in
  EEPROM_commit (set_eeprom m s).

(** [EEPROM.get] copies the stored byte into [bool savedPowerMode].  The
    language gives that object a meaning for the bytes 0 and 1 only; for any
    other byte the test [savedPowerMode == 0 || savedPowerMode == 1] goes the
    way the build makes it go.  A build that compares the byte takes the
    else branch and the flag is off ([CompareByte]); a build that takes a
    [bool] to be 0 or 1 drops the test and keeps the byte, which is not zero,
    so the flag is on ([TrustBool], what the optimising compiler does). *)
Inductive bool_reading := CompareByte | TrustBool.

(** [loadTransmitterConfig]. *)
Definition loadTransmitterConfig (build : bool_reading) (s : machine) : machine :=
  let savedID := u16_of_bytes (EEPROM_get EEPROM_TRANSMITTER_ID_ADDR 2 (eeprom s)) in
  let savedPowerMode :=
    Z_of_byte (nth 0 (EEPROM_get EEPROM_POWER_MODE_ADDR 1 (eeprom s)) x00) in
  let s := if negb (savedID =? 0xFFFF) then set_transmitterID savedID s
           else set_transmitterID 1 s in
  if (savedPowerMode =? 0) || (savedPowerMode =? 1)
  then set_powerSaveMode (savedPowerMode =? 1) s
  else match build with
       | CompareByte => set_powerSaveMode false s
       | TrustBool => set_powerSaveMode true s
       end.

(** The three loads of [setup()], in its order, from the initial globals. *)
Definition setup_loads (build : bool_reading) (rom : store) : machine * list byte :=
  let s := fst (loadSensorConfig (boot rom)) in
  let deviceName := loadDeviceName default_deviceName s in
  (loadTransmitterConfig build s, deviceName).

(** The body of a configuration request, as [deserializeJson] and the
    conversions of [doc["name"]], [doc["transmitterID"]] and
    [doc["powerSaveMode"]] deliver it: each key is there or not. *)
Record config_request := {
  req_name : option (list byte);
  req_transmitterID : option Z;
  req_powerSaveMode : option bool
}.

(** [handleApiConfigPost] on a body that parsed. *)
Definition handleApiConfigPost (req : config_request)
    (st : machine * list byte) : machine * list byte :=
  let '(s, deviceName) := st in
  let '(s, deviceName) :=
    match req_name req with
    | Some newName =>
        let deviceName := strncpy (MAX_DEVICE_NAME_LENGTH - 1) newName ++ [x00] in
        (saveDeviceName deviceName s, deviceName)
    | None => (s, deviceName)
    end in
  let s := match req_transmitterID req with
           | Some newID => set_transmitterID newID s
           | None => s
           end in
  let s := match req_powerSaveMode req with
           | Some newPowerMode => set_powerSaveMode newPowerMode s
           | None => s
           end in
  (saveTransmitterConfig s, deviceName).

(** ** The serial log *)

Definition SERIAL_BUFFER_SIZE : Z := 100.

Record SerialLogEntry := {
  log_timestamp : Z;
  log_message : string
}.

Definition empty_entry : SerialLogEntry :=
  {| log_timestamp := 0; log_message := EmptyString |}.

(** [serialBuffer], [serialBufferIndex] and [serialBufferCount]. *)
Record serial_log := {
  serialBuffer : list SerialLogEntry;
  serialBufferIndex : Z;
  serialBufferCount : Z
}.

Definition initial_log : serial_log :=
  {| serialBuffer := repeat empty_entry (Z.to_nat SERIAL_BUFFER_SIZE);
     serialBufferIndex := 0;
     serialBufferCount := 0 |}.

(** [logToSerial], with the value of [millis()]. *)
Definition logToSerial (e : SerialLogEntry) (b : serial_log) : serial_log :=
  {| serialBuffer := set_nth (Z.to_nat (serialBufferIndex b)) e (serialBuffer b);
     serialBufferIndex := Z.rem (serialBufferIndex b + 1) SERIAL_BUFFER_SIZE;
     serialBufferCount := if serialBufferCount b <? SERIAL_BUFFER_SIZE
                          then serialBufferCount b + 1
                          else serialBufferCount b |}.

(** [getSerialLogs]: the entries its loop hands to the JSON document, in
    order; what the document then holds is the library's matter. *)
Definition getSerialLogs (b : serial_log) : list SerialLogEntry :=
  let start := Z.rem (serialBufferIndex b - serialBufferCount b + SERIAL_BUFFER_SIZE)
                     SERIAL_BUFFER_SIZE in
  map (fun i => nth (Z.to_nat (Z.rem (start + Z.of_nat i) SERIAL_BUFFER_SIZE))
                    (serialBuffer b) empty_entry)
      (seq 0 (Z.to_nat (serialBufferCount b))).

(** The log after a run of [logToSerial] calls, oldest first. *)
Definition log_all (entries : list SerialLogEntry) : serial_log :=
  fold_left (fun b e => logToSerial e b) entries initial_log.

(** ** Button and buzzer *)

(** One turn of the loop of [checkButtonPress]: what [digitalRead] returns
    at the loop test and the value of [millis()] at the test against the
    duration. *)
Record button_sample := {
  is_low : bool;
  millis_check : Z
}.

Fixpoint checkButtonPress_loop (pressStart duration : Z)
    (samples : list button_sample) : run bool :=
  match samples with
  | [] => Pending
  | x :: rest =>
      if is_low x then
        if duration <? u32 (millis_check x - pressStart) then Done true
        else checkButtonPress_loop pressStart duration rest
      else Done false
  end.

(** [checkButtonPress]: the first [digitalRead], the value of [millis()]
    taken as the start of the press, and the turns of the loop. *)
Definition checkButtonPress (duration : Z) (low_at_entry : bool) (pressStart : Z)
    (samples : list button_sample) : run bool :=
  if low_at_entry then checkButtonPress_loop pressStart duration samples
  else Done false.

(** [playTone]: the number of cycles and the half period in microseconds;
    nothing when the frequency is 0, where the division traps.  [int] and
    [long] are 32 bits wide. *)
Definition s32 (x : Z) : Z := (x + 2 ^ 31) mod 2 ^ 32 - 2 ^ 31.

Definition playTone (frequency duration : Z) : option (Z * Z) :=
  if frequency =? 0 then None
  else
    let period := Z.quot 1000000 frequency in
    let halfPeriod := Z.quot period 2 in
    let cycles := Z.quot (s32 (frequency * duration)) 1000 in
    Some (Z.max 0 cycles, halfPeriod).

(** The microseconds of [delayMicroseconds] a tone asks for. *)
Definition tone_micros (t : Z * Z) : Z := fst t * (2 * snd t).

(** ** Vocabulary of the statements *)

(** The characters a field may hold: anything but the separators. *)
Definition field_char (c : ascii) : bool :=
  negb (Ascii.eqb c ","%char) && negb (Ascii.eqb c ":"%char).

(** A reading the encoder is made for: a finite value whose magnitude, in
    tenths, stays below 10^20.  [getTempC] delivers a few hundred degrees at
    most. *)
Definition probe_value (x : float) : bool :=
  match x with
  | S754_zero _ => true
  | S754_finite _ m e => tenths m e <? 10 ^ 20
  | _ => false
  end.

(** The fields in front of the ambient one. *)
Definition position_fields (activeSensorCount : Z) (temps : list float) : list text :=
  map (fun i => printf_1f (nth i temps fzero)) (seq 1 (Z.to_nat activeSensorCount - 1))
  ++ map (fun _ => chars "0.0")
         (seq (Z.to_nat activeSensorCount)
              (Z.to_nat MAX_SENSOR_COUNT - Z.to_nat activeSensorCount)).

(** The decoded slots of a store collide below its count. *)
Definition stored_collision (rom : store) : Prop :=
  exists i j, (i < j < Z.to_nat (stored_count rom))%nat /\
              nth i (stored_config rom) zero_address
              = nth j (stored_config rom) zero_address.

(** Candidate [k] of poll [p] has not moved past the threshold. *)
(** [n] consecutive integers from [lo]. *)
Definition zrange (lo : Z) (n : nat) : list Z :=
  map (fun i => lo + Z.of_nat i) (seq 0 n).

(** [touched] says "more than 24 sixteenths apart" of every probe reading
    [a] from [lo] on and every reading at most [w] sixteenths from it. *)
Definition band_agrees (lo : Z) (n : nat) (w : Z) : bool :=
  forallb (fun a =>
             let fa := sixteenths a in
             forallb (fun d => Bool.eqb (touched fa (sixteenths (a - d)))
                                        (24 <? Z.abs d))
                     (zrange (- w) (Z.to_nat (2 * w + 1))))
          (zrange lo n).

(** [touched] says "more than one degree apart" of every two readings of
    whole degrees from [lo] on. *)
Definition degrees_agree (lo : Z) (n : nat) : bool :=
  forallb (fun a =>
             let fa := sixteenths (16 * a) in
             forallb (fun b => Bool.eqb (touched fa (sixteenths (16 * b)))
                                        (1 <? Z.abs (a - b)))
                     (zrange lo n))
          (zrange lo n).

Definition untouched (p : poll) (baselines : list float) (k : nat) : Prop :=
  touched (getTempC p k) (nth k baselines fzero) = false.

(** A poll taken inside the budget of [findSensorByTouch] in which no
    candidate has moved. *)
Definition quiet_poll (startTime : Z) (baselines : list float) (count : nat)
    (q : poll) : Prop :=
  u32 (clock q - startTime) < TOUCH_TIMEOUT_MS /\
  forall k, (k < count)%nat -> untouched q baselines k.

(** Position [pos] was assigned: some address went into its slot and the
    active count went up by one. *)
Definition position_assigned (pos : nat) (s s' : machine) : Prop :=
  exists a, s' = set_activeSensorCount (u8 (activeSensorCount s + 1)) (assign_slot pos a s).

(** The setup sequence has filled the positions below [pos]: the active
    count is [pos], there are ten slots, and the slots below [pos] hold
    pairwise distinct addresses of enumerated devices. *)
Definition setup_inv (allSensors : list DeviceAddress) (pos : nat) (s : machine) : Prop :=
  activeSensorCount s = Z.of_nat pos /\
  List.length (sensorConfig s) = 10%nat /\
  (forall k, (k < pos)%nat -> In (slot s k) allSensors) /\
  (forall i j, (i < j < pos)%nat -> slot s i <> slot s j).

(** Two states that differ at most in the slots and the active count. *)
Definition same_outside_config (s s' : machine) : Prop :=
  sensorsConfigured s' = sensorsConfigured s /\
  lastTransmitTime s' = lastTransmitTime s /\
  transmitterID s' = transmitterID s /\
  powerSaveMode s' = powerSaveMode s /\
  latestData s' = latestData s /\
  totalPackets s' = totalPackets s /\
  eeprom s' = eeprom s /\
  flash s' = flash s /\
  radio s' = radio s /\
  asleep s' = asleep s.

(** A device name in good order: 32 bytes, the last one NUL, and only
    bytes from 32 to 126 in front of the first NUL. *)
Definition name_ok (deviceName : list byte) : Prop :=
  List.length deviceName = 32%nat /\
  nth 31 deviceName x00 = x00 /\
  printable_until_nul deviceName = true.

(** A byte from 32 to 126. *)
Definition printable (c : byte) : bool :=
  (32 <=? Z_of_byte c) && (Z_of_byte c <=? 126).

(** The ring buffer [b] holds the last entries of [l]: the index and the
    count follow the number of entries, and entry [j] of the last hundred
    sits in cell [j mod 100]. *)
Definition ring_inv (l : list SerialLogEntry) (b : serial_log) : Prop :=
  List.length (serialBuffer b) = 100%nat /\
  serialBufferIndex b = Z.of_nat (List.length l) mod 100 /\
  serialBufferCount b = Z.min (Z.of_nat (List.length l)) 100 /\
  forall j, (j < List.length l)%nat -> (List.length l <= j + 100)%nat ->
            nth (j mod 100) (serialBuffer b) empty_entry = nth j l empty_entry.

(** ** Sample inputs *)

(** 25.1f, 12.3f and 18.0f. *)
Definition f25_1 : float := S754_finite false 13159629 (-19).
Definition f12_3 : float := S754_finite false 12897485 (-20).
Definition f18_0 : float := S754_finite false 9437184 (-19).

(** Two probes and a configuration that uses them. *)
Definition probe_A : DeviceAddress := mkAddress x28 xff x4a x11 x92 x16 x03 x5c.
Definition probe_B : DeviceAddress := mkAddress x28 xff x7d x20 x92 x16 x04 xe1.
Definition probe_C : DeviceAddress := mkAddress x28 xaa x01 x02 x03 x04 x05 x06.

Definition blank_rom : store := fun _ => xff.

Definition two_probe_machine : machine :=
  set_activeSensorCount 2
    (set_sensorConfig
       (probe_A :: probe_B :: repeat zero_address 8) (boot blank_rom)).

Definition wrong_magic_rom : store :=
  EEPROM_put EEPROM_SENSOR_COUNT_ADDR [x03] (fun _ => x00).

(** A store with a good magic marker, a count of 2 and the same (zero)
    address in slots 0 and 1. *)
Definition duplicate_rom : store :=
  EEPROM_put EEPROM_SENSOR_COUNT_ADDR [x02]
    (EEPROM_put EEPROM_MAGIC_ADDR (bytes_of_u16 EEPROM_MAGIC) (fun _ => x00)).

(** 20.0f, 21.5f and 22.0f. *)
Definition f20_0 : float := S754_finite false 10485760 (-19).
Definition f21_5 : float := S754_finite false 11272192 (-19).
Definition f22_0 : float := S754_finite false 11534336 (-19).

(** A pass that reads the given temperatures, at clock [t]. *)
Definition pass (t : Z) (readings : list float) : poll :=
  {| clock := t; save_held := false;
     getTempC := fun i => nth i readings fzero;
     clock_after := fun _ => t |}.

Definition rejected_example : waiting :=
  {| w_machine := two_probe_machine;
     w_baselines := [f20_0; f20_0; f20_0];
     w_waitStart := 0;
     w_sensorFound := false |}.

(** Three probes on the bus.  The first is touched in the ambient wait, the
    second in the wait for position 1, and the save button is held in the
    wait for position 2. *)
Definition guided_world : world :=
  {| devices := [probe_A; probe_B; probe_C];
     baselineTemp := fun _ => f20_0;
     ambient := {| opened := 0; polls := [pass 500 [f22_0; f20_0; f20_0]] |};
     positions :=
       [ {| opened := 2000; polls := [pass 2500 [f22_0; f22_0; f20_0]] |};
         {| opened := 5000;
            polls := [ {| clock := 5500; save_held := true;
                          getTempC := fun _ => f20_0;
                          clock_after := fun _ => 5500 |} ] |} ] |}.

(** The configured device of the round trip, and a bus on which nothing is
    touched before the ambient wait runs out. *)
Definition configured_machine : machine :=
  set_sensorsConfigured true (saveSensorConfig two_probe_machine).

Definition silent_world : world :=
  {| devices := [probe_A; probe_B; probe_C];
     baselineTemp := fun _ => f20_0;
     ambient := {| opened := 0;
                   polls := [pass 500 [f20_0; f20_0; f20_0];
                             pass 30500 [f20_0; f20_0; f20_0]] |};
     positions := [] |}.

Definition due_turn : loop_io :=
  {| setup_pressed := false;
     setup_world := silent_world;
     loop_millis := 61000;
     transmit := {| probe := fun _ => f20_0; millis_read := 61000 |};
     sent_millis := 61100 |}.

Definition garage_name : list byte := name_bytes "Trailer 7" ++ repeat x00 23.

Definition tabbed_name : list byte :=
  name_bytes "Axle" ++ [x09] ++ name_bytes "1" ++ repeat x00 26.

Definition warm_probes : transmit_io :=
  {| probe := fun a => if memcmp8_eq a probe_A then f25_1 else f12_3;
     millis_read := 61000 |}.

Definition crowded_world : world :=
  {| devices := repeat probe_A 17;
     baselineTemp := fun _ => f20_0;
     ambient := {| opened := 0; polls := [pass 500 (repeat f20_0 17)] |};
     positions := [] |}.

(** * Properties *)

(** ** Text and numbers *)

Lemma is_digit_digit (d : Z) : is_digit (digit d) = true.
Proof.
  unfold digit. generalize (Z.to_nat d) as k. intro k.
  do 10 (destruct k as [|k]; [reflexivity|]). destruct k; reflexivity.
Qed.

Lemma digits_all_digit (fuel : nat) :
  forall n, forallb is_digit (digits fuel n) = true.
Proof.
  induction fuel as [|f IH]; intro n; simpl; [reflexivity|].
  destruct (n <? 10).
  - simpl. now rewrite is_digit_digit.
  - rewrite forallb_app, IH. simpl. now rewrite is_digit_digit.
Qed.

Lemma digits_nonempty (fuel : nat) (n : Z) : digits (S fuel) n <> [].
Proof.
  simpl. destruct (n <? 10); [discriminate|].
  intro H. apply app_eq_nil in H. destruct H as [_ H]. discriminate.
Qed.

Lemma digits_length (fuel : nat) :
  forall (n : Z) (d : nat),
    n < 10 ^ Z.of_nat (S d) -> (List.length (digits fuel n) <= S d)%nat.
Proof.
  induction fuel as [|f IH]; intros n d Hn; simpl; [lia|].
  destruct (n <? 10) eqn:E.
  - simpl. lia.
  - apply Z.ltb_ge in E. rewrite length_app. simpl.
    destruct d as [|d].
    + change (10 ^ Z.of_nat 1) with 10 in Hn. lia.
    + assert (n / 10 < 10 ^ Z.of_nat (S d)).
      { apply Z.div_lt_upper_bound; [lia|].
        rewrite <- Z.pow_succ_r by lia.
        replace (Z.succ (Z.of_nat (S d))) with (Z.of_nat (S (S d))) by lia.
        exact Hn. }
      specialize (IH (n / 10) d H). lia.
Qed.

Lemma digit_value_digit (d : Z) : 0 <= d < 10 -> digit_value (digit d) = d.
Proof.
  intro H.
  assert (d = 0 \/ d = 1 \/ d = 2 \/ d = 3 \/ d = 4 \/ d = 5 \/ d = 6 \/
          d = 7 \/ d = 8 \/ d = 9) as Hd by lia.
  repeat (destruct Hd as [->|Hd]; [reflexivity|]). subst d. reflexivity.
Qed.

Lemma number_app (l : text) (c : ascii) :
  number (l ++ [c]) = 10 * number l + digit_value c.
Proof. unfold number. now rewrite fold_left_app. Qed.

(** The digits denote the number they were made from. *)
Lemma digits_number (fuel : nat) :
  forall n, 0 <= n < 10 ^ Z.of_nat fuel -> number (digits fuel n) = n.
Proof.
  induction fuel as [|f IH]; intros n Hn.
  - change (10 ^ Z.of_nat 0) with 1 in Hn. simpl. unfold number. simpl. lia.
  - cbn [digits]. destruct (n <? 10) eqn:E.
    + apply Z.ltb_lt in E. unfold number. cbn [fold_left].
      rewrite digit_value_digit by lia. lia.
    + apply Z.ltb_ge in E. rewrite number_app.
      rewrite IH, digit_value_digit.
      * pose proof (Z.div_mod n 10). lia.
      * apply Z.mod_pos_bound. lia.
      * split; [apply Z.div_pos; lia|].
        apply Z.div_lt_upper_bound; [lia|].
        rewrite <- Z.pow_succ_r by lia.
        replace (Z.succ (Z.of_nat f)) with (Z.of_nat (S f)) by lia. lia.
Qed.

Lemma decimal_number (n : Z) : 0 <= n -> number (decimal n) = n.
Proof.
  intro Hn. apply digits_number. split; [exact Hn|].
  destruct (Z.eq_dec n 0) as [->|Hne]; [reflexivity|].
  pose proof (Z.log2_nonneg n) as Hl.
  destruct (Z.log2_spec n ltac:(lia)) as [_ Hup].
  rewrite Nat2Z.inj_succ, Z2Nat.id by exact Hl.
  apply Z.lt_le_trans with (2 ^ Z.succ (Z.log2 n)); [exact Hup|].
  apply Z.pow_le_mono_l. lia.
Qed.

Lemma decimal_all_digit (n : Z) : forallb is_digit (decimal n) = true.
Proof. apply digits_all_digit. Qed.

Lemma decimal_nonempty (n : Z) : decimal n <> [].
Proof. apply digits_nonempty. Qed.

Lemma decimal_length (n : Z) (d : nat) :
  n < 10 ^ Z.of_nat (S d) -> (List.length (decimal n) <= S d)%nat.
Proof. apply digits_length. Qed.

(** No digit is a sign, a comma or a colon. *)
Lemma digit_not_punct (c : ascii) :
  is_digit c = true ->
  Ascii.eqb c "-"%char = false /\ Ascii.eqb c ","%char = false /\
  Ascii.eqb c ":"%char = false.
Proof.
  unfold is_digit. intro H. apply existsb_exists in H.
  destruct H as [x [Hin Hx]]. apply Ascii.eqb_eq in Hx. subst x.
  simpl in Hin.
  repeat (destruct Hin as [<-|Hin]; [repeat split; reflexivity|]).
  destruct Hin.
Qed.

Lemma digits_field_chars (l : text) :
  forallb is_digit l = true -> forallb field_char l = true.
Proof.
  induction l as [|c l IH]; simpl; [reflexivity|].
  intro H. apply andb_true_iff in H. destruct H as [Hc Hl].
  destruct (digit_not_punct c Hc) as [_ [H1 H2]].
  unfold field_char at 1. rewrite H1, H2. simpl. auto.
Qed.

Lemma fixed1_field_chars (neg : bool) (t : Z) :
  forallb field_char (fixed1 neg t) = true.
Proof.
  unfold fixed1. rewrite !forallb_app.
  rewrite (digits_field_chars _ (decimal_all_digit _)).
  assert (Hd := digits_field_chars [digit (t mod 10)]).
  simpl in Hd. rewrite is_digit_digit in Hd. specialize (Hd eq_refl).
  simpl. rewrite andb_true_r in Hd. rewrite Hd.
  destruct neg; reflexivity.
Qed.

Lemma printf_1f_field_chars (x : float) :
  forallb field_char (printf_1f x) = true.
Proof.
  destruct x as [s|s| |s m e]; simpl;
    try apply fixed1_field_chars; try reflexivity.
  destruct s; reflexivity.
Qed.

Lemma fixed1_one_fraction_digit (neg : bool) (t : Z) :
  one_fraction_digit (fixed1 neg t) = true.
Proof.
  unfold fixed1, one_fraction_digit.
  replace ((if neg then ["-"%char] else []) ++ decimal (t / 10) ++ ["."%char; digit (t mod 10)])
    with (((if neg then ["-"%char] else []) ++ decimal (t / 10)) ++ ["."%char; digit (t mod 10)])
    by now rewrite <- app_assoc.
  rewrite rev_app_distr. simpl.
  rewrite is_digit_digit. simpl. rewrite rev_involutive.
  assert (Hall := decimal_all_digit (t / 10)).
  assert (Hne := decimal_nonempty (t / 10)).
  destruct neg; simpl.
  - rewrite Hall. destruct (decimal (t / 10)); [congruence|reflexivity].
  - destruct (decimal (t / 10)) as [|c r]; [congruence|].
    simpl in Hall. apply andb_true_iff in Hall. destruct Hall as [Hc Hr].
    destruct (digit_not_punct c Hc) as [H1 _]. rewrite H1. simpl.
    now rewrite Hc, Hr.
Qed.

Lemma fixed1_length (neg : bool) (t : Z) (d : nat) :
  t / 10 < 10 ^ Z.of_nat (S d) -> (List.length (fixed1 neg t) <= S d + 3)%nat.
Proof.
  intro H. unfold fixed1. rewrite !length_app.
  pose proof (decimal_length (t / 10) d H). destruct neg; simpl; lia.
Qed.

Lemma split_on_no_sep (sep : ascii) (a : text) :
  forallb (fun c => negb (Ascii.eqb c sep)) a = true -> split_on sep a = [a].
Proof.
  induction a as [|x a IH]; simpl; [reflexivity|].
  intro H. apply andb_true_iff in H. destruct H as [Hx Ha].
  apply negb_true_iff in Hx. rewrite Hx, (IH Ha). reflexivity.
Qed.

Lemma split_on_app (sep : ascii) (a b : text) :
  forallb (fun c => negb (Ascii.eqb c sep)) a = true ->
  split_on sep (a ++ sep :: b) = a :: split_on sep b.
Proof.
  induction a as [|x a IH]; simpl.
  - now rewrite Ascii.eqb_refl.
  - intro H. apply andb_true_iff in H. destruct H as [Hx Ha].
    apply negb_true_iff in Hx. rewrite Hx, (IH Ha). reflexivity.
Qed.

Lemma field_chars_no_comma (a : text) :
  forallb field_char a = true ->
  forallb (fun c => negb (Ascii.eqb c ","%char)) a = true.
Proof.
  induction a as [|x a IH]; simpl; [reflexivity|].
  intro H. apply andb_true_iff in H. destruct H as [Hx Ha].
  unfold field_char in Hx. apply andb_true_iff in Hx.
  destruct Hx as [Hx _]. now rewrite Hx, IH.
Qed.

(** Fields written each with a comma behind it, then a last one, are read
    back by [split_on]. *)
Lemma split_on_fields (fs : list text) (last : text) :
  Forall (fun f => forallb field_char f = true) fs ->
  forallb field_char last = true ->
  split_on ","%char (List.concat (map (fun f => f ++ chars ",") fs) ++ last)
  = fs ++ [last].
Proof.
  intros Hfs Hlast. induction Hfs as [|f fs Hf _ IH].
  - apply split_on_no_sep, field_chars_no_comma, Hlast.
  - cbn [map List.concat]. rewrite <- !app_assoc.
    change (chars "," ++ ?r) with (","%char :: r).
    rewrite split_on_app by (apply field_chars_no_comma, Hf).
    now rewrite IH.
Qed.

Lemma after_colon_app (a b : text) :
  forallb (fun c => negb (Ascii.eqb c ":"%char)) a = true ->
  after_colon (a ++ ":"%char :: b) = b.
Proof.
  induction a as [|x a IH]; simpl; [reflexivity|].
  intro H. apply andb_true_iff in H. destruct H as [Hx Ha].
  apply negb_true_iff in Hx. now rewrite Hx, IH.
Qed.

Lemma digits_no_colon (l : text) :
  forallb is_digit l = true ->
  forallb (fun c => negb (Ascii.eqb c ":"%char)) l = true.
Proof.
  induction l as [|c l IH]; simpl; [reflexivity|].
  intro H. apply andb_true_iff in H. destruct H as [Hc Hl].
  destruct (digit_not_punct c Hc) as [_ [_ H2]]. now rewrite H2, IH.
Qed.

(** ** The packet buffer *)

(** As long as everything fits in front of the terminator, the buffer holds
    the pieces one after another. *)
Lemma snprintf_all_fits (pieces : list text) :
  forall c,
    offset c = Z.of_nat (List.length (written c)) ->
    (List.length (written c) + List.length (List.concat pieces) < 256)%nat ->
    exists c', snprintf_all c pieces = Some c' /\
               written c' = written c ++ List.concat pieces.
Proof.
  induction pieces as [|s rest IH]; intros c Hoff Hfit; simpl in *.
  - exists c. now rewrite app_nil_r.
  - rewrite length_app in Hfit.
    unfold snprintf_at, PACKET_SIZE.
    destruct (256 <? offset c) eqn:E; [apply Z.ltb_lt in E; lia|].
    rewrite firstn_all2 by lia.
    match goal with |- context [snprintf_all ?c1 rest] => destruct (IH c1) as [c' [H1 H2]] end.
    + simpl. rewrite length_app. lia.
    + simpl. rewrite length_app. lia.
    + exists c'. split; [exact H1|]. rewrite H2. simpl. now rewrite <- app_assoc.
Qed.

Lemma concat_length_bound {A : Type} (k : nat) (l : list (list A)) :
  Forall (fun p => (List.length p <= k)%nat) l ->
  (List.length (List.concat l) <= k * List.length l)%nat.
Proof.
  induction 1 as [|p l Hp _ IH]; simpl; [lia|].
  rewrite length_app. lia.
Qed.

(** ** Temperatures *)

(** The sample temperatures and the threshold are the binary32 values of
    their decimal literals. *)
Lemma sample_floats :
  f25_1 = float_ratio 251 10 /\ f12_3 = float_ratio 123 10 /\
  f18_0 = float_of_Z 18 /\ f20_0 = float_of_Z 20 /\
  f21_5 = float_ratio 43 2 /\ f22_0 = float_of_Z 22 /\
  TEMP_CHANGE_THRESHOLD = float_ratio 3 2.
Proof. vm_compute. repeat split. Qed.

(** The threshold is strict: a move of exactly 1.5 is not a touch. *)
Lemma threshold_strict :
  touched f21_5 f20_0 = false /\ touched f22_0 f20_0 = true /\
  touched f20_0 f22_0 = true /\ touched f20_0 f20_0 = false.
Proof. vm_compute. repeat split. Qed.

Lemma in_zrange (lo : Z) (n : nat) (x : Z) :
  lo <= x < lo + Z.of_nat n -> In x (zrange lo n).
Proof.
  intro H. unfold zrange. apply in_map_iff. exists (Z.to_nat (x - lo)).
  split; [lia|]. apply in_seq. lia.
Qed.

Lemma band_agrees_spec (lo : Z) (n : nat) (w a b : Z) :
  band_agrees lo n w = true ->
  lo <= a < lo + Z.of_nat n -> Z.abs (a - b) <= w ->
  touched (sixteenths a) (sixteenths b) = (24 <? Z.abs (a - b)).
Proof.
  intros Hall Ha Hb. unfold band_agrees in Hall.
  rewrite forallb_forall in Hall.
  specialize (Hall a (in_zrange lo n a Ha)). cbv zeta in Hall.
  rewrite forallb_forall in Hall.
  assert (Hin : In (a - b) (zrange (- w) (Z.to_nat (2 * w + 1))))
    by (apply in_zrange; lia).
  specialize (Hall (a - b) Hin).
  apply eqb_prop in Hall. rewrite <- Hall. f_equal. f_equal. lia.
Qed.

Lemma degrees_agree_spec (lo : Z) (n : nat) (a b : Z) :
  degrees_agree lo n = true ->
  lo <= a < lo + Z.of_nat n -> lo <= b < lo + Z.of_nat n ->
  touched (sixteenths (16 * a)) (sixteenths (16 * b)) = (1 <? Z.abs (a - b)).
Proof.
  intros Hall Ha Hb. unfold degrees_agree in Hall.
  rewrite forallb_forall in Hall.
  specialize (Hall a (in_zrange lo n a Ha)). cbv zeta in Hall.
  rewrite forallb_forall in Hall.
  specialize (Hall b (in_zrange lo n b Hb)).
  apply eqb_prop in Hall. exact Hall.
Qed.

(** The two checks, run over the range of the probe: every reading from
    -55 to 125 degrees against every reading at most three degrees from it,
    and every two readings of whole degrees. *)
Lemma probe_band_agrees : band_agrees (-880) 2881 48 = true.
Proof. vm_compute. reflexivity. Qed.

Lemma probe_degrees_agree : degrees_agree (-55) 181 = true.
Proof. vm_compute. reflexivity. Qed.

(** Of two probe readings at most three degrees apart, [touched] says
    whether they are more than 1.5 degrees apart, in either direction. *)
Lemma touched_band (a b : Z) :
  -880 <= a <= 2000 -> Z.abs (a - b) <= 48 ->
  touched (sixteenths a) (sixteenths b) = (24 <? Z.abs (a - b)).
Proof.
  intros Ha Hb. apply (band_agrees_spec (-880) 2881 48).
  - exact probe_band_agrees.
  - change (Z.of_nat 2881) with 2881. lia.
  - exact Hb.
Qed.

(** The same of any two readings of whole degrees in the range of the
    probe, however far apart. *)
Lemma touched_degrees (a b : Z) :
  -55 <= a <= 125 -> -55 <= b <= 125 ->
  touched (sixteenths (16 * a)) (sixteenths (16 * b)) = (1 <? Z.abs (a - b)).
Proof.
  intros Ha Hb. apply (degrees_agree_spec (-55) 181).
  - exact probe_degrees_agree.
  - change (Z.of_nat 181) with 181. lia.
  - change (Z.of_nat 181) with 181. lia.
Qed.

(** ** What a field says *)

Lemma round_half_even_spec (num den : Z) :
  0 <= num -> 0 < den ->
  0 <= round_half_even num den /\
  2 * Z.abs (num - round_half_even num den * den) <= den /\
  (2 * Z.abs (num - round_half_even num den * den) = den ->
   Z.even (round_half_even num den) = true).
Proof.
  intros Hn Hd. unfold round_half_even.
  pose proof (Z.div_mod num den ltac:(lia)) as Hdm.
  pose proof (Z.mod_pos_bound num den Hd) as Hr.
  pose proof (Z.div_pos num den Hn Hd) as Hq.
  set (q := num / den) in *. set (r := num mod den) in *.
  assert (Hq0 : num - q * den = r) by lia.
  assert (Hq1 : num - (q + 1) * den = r - den) by lia.
  destruct (2 * r ?= den) eqn:E.
  - apply Z.compare_eq in E. destruct (Z.even q) eqn:Ev.
    + rewrite Hq0. repeat split; [lia|lia|auto].
    + rewrite Hq1. repeat split; [lia|lia|].
      intros _. rewrite Z.even_add, Ev. reflexivity.
  - rewrite Z.compare_lt_iff in E. rewrite Hq0. repeat split; lia.
  - rewrite Z.compare_gt_iff in E. rewrite Hq1. repeat split; lia.
Qed.

Lemma tenths_nonneg (m : positive) (e : Z) : 0 <= tenths m e.
Proof.
  unfold tenths. destruct (0 <=? e) eqn:E.
  - apply Z.leb_le in E. pose proof (Z.pow_pos_nonneg 2 e ltac:(lia) E). nia.
  - apply Z.leb_gt in E.
    apply round_half_even_spec; [lia|apply Z.pow_pos_nonneg; lia].
Qed.

(** [tenths] is the correctly rounded magnitude. *)
Lemma tenths_nearest (m : positive) (e : Z) : nearest_tenth m e (tenths m e).
Proof.
  unfold nearest_tenth, tenths. destruct (0 <=? e) eqn:E.
  - apply Z.leb_le in E.
    rewrite (Z.max_r 0 e) by lia. rewrite (Z.max_l 0 (- e)) by lia.
    change (2 ^ 0) with 1.
    replace (10 * Z.pos m * 2 ^ e - Z.pos m * 2 ^ e * 10 * 1) with 0 by lia.
    simpl. split; [lia|discriminate].
  - apply Z.leb_gt in E.
    rewrite (Z.max_l 0 e) by lia. rewrite (Z.max_r 0 (- e)) by lia.
    change (2 ^ 0) with 1.
    replace (10 * Z.pos m * 1) with (Z.pos m * 10) by lia.
    apply round_half_even_spec; [lia|apply Z.pow_pos_nonneg; lia].
Qed.

(** At most one number of tenths is the nearest. *)
Lemma nearest_tenth_unique (m : positive) (e t u : Z) :
  nearest_tenth m e t -> nearest_tenth m e u -> t = u.
Proof.
  unfold nearest_tenth.
  set (num := 10 * Z.pos m * 2 ^ Z.max 0 e). set (scale := 2 ^ Z.max 0 (- e)).
  assert (Hs : 0 < scale) by (apply Z.pow_pos_nonneg; lia).
  intros [Ht Et] [Hu Eu].
  assert (Hd : Z.abs (t - u) <= 1) by nia.
  destruct (Z.eq_dec t u) as [|Hne]; [assumption|exfalso].
  assert (Hcase : t = u + 1 \/ u = t + 1) by lia.
  assert (Htie : 2 * Z.abs (num - t * scale) = scale /\
                 2 * Z.abs (num - u * scale) = scale) by nia.
  destruct Htie as [T U]. specialize (Et T). specialize (Eu U).
  destruct Hcase as [->| ->].
  - rewrite Z.even_add, Eu in Et. discriminate.
  - rewrite Z.even_add, Et in Eu. discriminate.
Qed.

(** A printed field reads back as the sign and the tenths it was printed
    from. *)
Lemma field_tenths_fixed1 (neg : bool) (t : Z) :
  0 <= t -> field_tenths (fixed1 neg t) = Some (neg, t).
Proof.
  intro Ht. unfold fixed1.
  assert (Hall := decimal_all_digit (t / 10)).
  assert (Hne := decimal_nonempty (t / 10)).
  assert (Hnum := decimal_number (t / 10) ltac:(apply Z.div_pos; lia)).
  assert (Hm := Z.mod_pos_bound t 10 ltac:(lia)).
  assert (Hv := digit_value_digit (t mod 10) Hm).
  pose proof (Z.div_mod t 10 ltac:(lia)) as Hdm.
  set (D := decimal (t / 10)) in *. set (dg := digit (t mod 10)) in *.
  assert (Hbody : field_tenths ((if neg then ["-"%char] else []) ++ D ++ ["."%char; dg])
                  = match rev (D ++ ["."%char; dg]) with
                    | d :: p :: r =>
                        let whole := rev r in
                        if Ascii.eqb p "."%char && is_digit d
                           && negb (Nat.eqb (List.length whole) 0) && forallb is_digit whole
                        then Some (neg, 10 * number whole + digit_value d)
                        else None
                    | _ => None
                    end).
  { unfold field_tenths. destruct neg; [reflexivity|].
    destruct D as [|c r]; [congruence|].
    cbn [forallb] in Hall. apply andb_true_iff in Hall. destruct Hall as [Hc _].
    destruct (digit_not_punct c Hc) as [H1 _].
    cbn [app]. rewrite H1. reflexivity. }
  rewrite Hbody, rev_app_distr. cbn [rev app]. cbv zeta.
  rewrite rev_involutive, Hall. unfold dg at 1. rewrite is_digit_digit.
  destruct D as [|c r]; [congruence|].
  cbn [List.length Nat.eqb negb andb Ascii.eqb Bool.eqb].
  rewrite Hnum, Hv. f_equal. f_equal. lia.
Qed.

(** What [printf("%.1f")] prints is its argument to one decimal place. *)
Lemma printf_1f_denotes (x : float) :
  probe_value x = true -> denotes (printf_1f x) x.
Proof.
  destruct x as [s|s| |s m e]; cbn [probe_value printf_1f denotes];
    try discriminate; intros _.
  - apply field_tenths_fixed1. lia.
  - exists (tenths m e). split.
    + apply field_tenths_fixed1, tenths_nonneg.
    + apply tenths_nearest.
Qed.

(** ** Telemetry framing *)

Lemma probe_value_one_fraction_digit (x : float) :
  probe_value x = true -> one_fraction_digit (printf_1f x) = true.
Proof.
  destruct x as [s|s| |s m e]; simpl; try discriminate;
    intros _; apply fixed1_one_fraction_digit.
Qed.

Lemma probe_value_length (x : float) :
  probe_value x = true -> (List.length (printf_1f x) <= 22)%nat.
Proof.
  destruct x as [s|s| |s m e]; simpl; try discriminate; intro H.
  - apply (fixed1_length s 0 18). reflexivity.
  - apply Z.ltb_lt in H. apply (fixed1_length s (tenths m e) 18).
    apply Z.div_lt_upper_bound; [lia|].
    change (10 * 10 ^ Z.of_nat 19) with (10 ^ 20). exact H.
Qed.

Lemma probe_value_nth (temps : list float) (i : nat) :
  Forall (fun x => probe_value x = true) temps ->
  probe_value (nth i temps fzero) = true.
Proof.
  intro H. revert i. induction H as [|x l Hx _ IH]; intros [|i]; simpl; auto.
Qed.

Lemma nth_map_seq {A : Type} (f : nat -> A) (a n k : nat) (d : A) :
  (k < n)%nat -> nth k (map f (seq a n)) d = f (a + k)%nat.
Proof.
  intro H. rewrite (nth_indep _ d (f 0%nat)) by (rewrite length_map, length_seq; exact H).
  rewrite map_nth. now rewrite seq_nth.
Qed.

Lemma packet_pieces_fields (id ac : Z) (temps : list float) :
  packet_pieces id ac temps
  = (chars "TX" ++ printf_d id ++ chars ":")
    :: map (fun f => f ++ chars ",") (position_fields ac temps)
    ++ [printf_1f (nth 0 temps fzero)].
Proof.
  unfold packet_pieces, position_fields. simpl.
  rewrite map_app, !map_map, <- app_assoc. reflexivity.
Qed.

Lemma position_fields_length (ac : Z) (temps : list float) :
  1 <= ac <= 10 -> List.length (position_fields ac temps) = 9%nat.
Proof.
  intro H. unfold position_fields, MAX_SENSOR_COUNT.
  rewrite length_app, !length_map, !length_seq. lia.
Qed.

Lemma position_fields_chars (ac : Z) (temps : list float) :
  Forall (fun f => forallb field_char f = true) (position_fields ac temps).
Proof.
  unfold position_fields. apply Forall_app. split; apply Forall_forall; intros f Hf;
    apply in_map_iff in Hf; destruct Hf as [i [<- _]].
  - apply printf_1f_field_chars.
  - reflexivity.
Qed.

Lemma header_length (id : Z) :
  0 <= id < 65536 ->
  (List.length (chars "TX" ++ printf_d id ++ chars ":") <= 8)%nat.
Proof.
  intro H. unfold printf_d. destruct (id <? 0) eqn:E; [apply Z.ltb_lt in E; lia|].
  rewrite !length_app. simpl.
  assert (List.length (decimal id) <= 5)%nat by (apply (decimal_length id 4); simpl; lia).
  lia.
Qed.

(** What the buffer holds when the readings are probe values. *)
Lemma encode_packet_text (id ac : Z) (temps : list float) :
  0 <= id < 65536 ->
  1 <= ac <= 10 ->
  Forall (fun x => probe_value x = true) temps ->
  encode_packet id ac temps
  = Some (string_of_list_ascii
            ((chars "TX" ++ printf_d id ++ chars ":")
             ++ List.concat (map (fun f => f ++ chars ",") (position_fields ac temps))
             ++ printf_1f (nth 0 temps fzero))).
Proof.
  intros Hid Hac Htemps. unfold encode_packet.
  destruct (snprintf_all_fits (packet_pieces id ac temps) {| written := []; offset := 0 |})
    as [c [Hc Hw]]; [reflexivity| |].
  - rewrite packet_pieces_fields. cbn [written List.length Nat.add List.concat].
    rewrite concat_app. cbn [List.concat]. rewrite app_nil_r, !length_app.
    pose proof (header_length id Hid) as Hh. rewrite !length_app in Hh.
    assert (List.length (List.concat (map (fun f => f ++ chars ",") (position_fields ac temps)))
            <= 23 * 9)%nat.
    { pose proof (concat_length_bound 23
                    (map (fun f => f ++ chars ",") (position_fields ac temps))) as Hb.
      rewrite length_map, (position_fields_length ac temps Hac) in Hb.
      apply Hb. apply Forall_forall. intros p Hp.
      apply in_map_iff in Hp. destruct Hp as [f [<- Hf]].
      rewrite length_app. change (List.length (chars ",")) with 1%nat.
      unfold position_fields in Hf.
      apply in_app_or in Hf. destruct Hf as [Hf|Hf];
        apply in_map_iff in Hf; destruct Hf as [i [<- _]].
      - pose proof (probe_value_length _ (probe_value_nth temps i Htemps)). lia.
      - simpl. lia. }
    pose proof (probe_value_length _ (probe_value_nth temps 0 Htemps)).
    lia.
  - rewrite Hc. cbn [option_map]. rewrite Hw, packet_pieces_fields.
    cbn [written List.concat app]. rewrite concat_app. cbn [List.concat].
    now rewrite app_nil_r.
Qed.

Lemma packet_fields_text (id : Z) (fs : list text) (last : text) :
  0 <= id ->
  Forall (fun f => forallb field_char f = true) fs ->
  forallb field_char last = true ->
  packet_fields
    (string_of_list_ascii
       ((chars "TX" ++ printf_d id ++ chars ":")
        ++ List.concat (map (fun f => f ++ chars ",") fs) ++ last))
  = fs ++ [last].
Proof.
  intros Hid Hfs Hlast. unfold packet_fields, chars at 1.
  rewrite list_ascii_of_string_of_list_ascii.
  unfold printf_d. destruct (id <? 0) eqn:E; [apply Z.ltb_lt in E; lia|].
  replace ((chars "TX" ++ decimal id ++ chars ":") ++
           List.concat (map (fun f => f ++ chars ",") fs) ++ last)
    with ((chars "TX" ++ decimal id) ++ ":"%char ::
          (List.concat (map (fun f => f ++ chars ",") fs) ++ last))
    by (rewrite <- !app_assoc; reflexivity).
  rewrite after_colon_app.
  - apply split_on_fields; assumption.
  - rewrite forallb_app. rewrite (digits_no_colon _ (decimal_all_digit id)). reflexivity.
Qed.

(** C1.  The packet of any transmitter identity, any active count from 1 to
    10 and any probe readings has exactly ten comma-separated fields after
    the colon.  Position field [i] carries reading [i] for [i] below the
    active count and is the placeholder "0.0" from the active count up to 9;
    the tenth field is the ambient reading; every field has exactly one
    fractional digit.  The number a field carries is its reading rounded to
    the nearest tenth, ties to the even tenth, with the reading's sign. *)
Theorem telemetry_framing (id activeCount : Z) (reading : list float) :
  0 <= id < 65536 ->
  1 <= activeCount <= 10 ->
  Forall (fun x => probe_value x = true) reading ->
  exists packet,
    encode_packet id activeCount reading = Some packet /\
    List.length (packet_fields packet) = 10%nat /\
    (forall i, (1 <= i < Z.to_nat activeCount)%nat ->
       nth (i - 1) (packet_fields packet) [] = printf_1f (nth i reading fzero)) /\
    (forall i, (Z.to_nat activeCount <= i <= 9)%nat ->
       nth (i - 1) (packet_fields packet) [] = chars "0.0") /\
    nth 9 (packet_fields packet) [] = printf_1f (nth 0 reading fzero) /\
    Forall (fun f => one_fraction_digit f = true) (packet_fields packet) /\
    (forall i, (1 <= i < Z.to_nat activeCount)%nat ->
       denotes (nth (i - 1) (packet_fields packet) []) (nth i reading fzero)) /\
    denotes (nth 9 (packet_fields packet) []) (nth 0 reading fzero).
Proof.
  intros Hid Hac Hr. eexists. split; [apply encode_packet_text; assumption|].
  rewrite packet_fields_text
    by (try lia; try apply position_fields_chars; apply printf_1f_field_chars).
  pose proof (position_fields_length activeCount reading Hac) as Hlen.
  assert (Hpos : forall i, (1 <= i < Z.to_nat activeCount)%nat ->
            nth (i - 1) (position_fields activeCount reading
                         ++ [printf_1f (nth 0 reading fzero)]) []
            = printf_1f (nth i reading fzero)).
  { intros i Hi. rewrite app_nth1 by lia. unfold position_fields.
    rewrite app_nth1 by (rewrite length_map, length_seq; lia).
    rewrite nth_map_seq by lia. f_equal. f_equal. lia. }
  assert (Hamb : nth 9 (position_fields activeCount reading
                        ++ [printf_1f (nth 0 reading fzero)]) []
                 = printf_1f (nth 0 reading fzero)).
  { rewrite app_nth2 by lia. rewrite Hlen. reflexivity. }
  split; [|split; [exact Hpos|split; [|split; [exact Hamb|split; [|split]]]]].
  - rewrite length_app, Hlen. reflexivity.
  - intros i Hi. rewrite app_nth1 by lia. unfold position_fields, MAX_SENSOR_COUNT.
    rewrite app_nth2 by (rewrite length_map, length_seq; lia).
    rewrite length_map, length_seq. rewrite nth_map_seq by lia. reflexivity.
  - apply Forall_app. split.
    + unfold position_fields. apply Forall_app.
      split; apply Forall_forall; intros f Hf;
        apply in_map_iff in Hf; destruct Hf as [i [<- _]].
      * apply probe_value_one_fraction_digit, probe_value_nth, Hr.
      * reflexivity.
    + constructor; [|constructor].
      apply probe_value_one_fraction_digit, probe_value_nth, Hr.
  - intros i Hi. rewrite (Hpos i Hi).
    apply printf_1f_denotes, probe_value_nth, Hr.
  - rewrite Hamb. apply printf_1f_denotes, probe_value_nth, Hr.
Qed.

Lemma telemetry_framing_witness :
  exists packet,
    encode_packet 7 3 [f25_1; f12_3; f18_0] = Some packet /\
    List.length (packet_fields packet) = 10%nat.
Proof.
  destruct (telemetry_framing 7 3 [f25_1; f12_3; f18_0]) as [p [H1 [H2 _]]].
  - lia.
  - lia.
  - repeat constructor.
  - exists p. split; assumption.
Defined.

(** C2.  Active count 3, ambient 25.1, positions 12.3 and 18.0, transmitter 7:
    the packet is "TX7:12.3,18.0,0.0,0.0,0.0,0.0,0.0,0.0,0.0,25.1". *)
Theorem encode_example :
  encode_packet 7 3 [f25_1; f12_3; f18_0; fzero; fzero; fzero; fzero; fzero; fzero; fzero]
  = Some "TX7:12.3,18.0,0.0,0.0,0.0,0.0,0.0,0.0,0.0,25.1"%string.
Proof. vm_compute. reflexivity. Qed.

(** ** The EEPROM store *)

Lemma EEPROM_get_put_other (address : nat) (bs : list byte) (m : store) (a n : nat) :
  (a + n <= address \/ address + List.length bs <= a)%nat ->
  EEPROM_get a n (EEPROM_put address bs m) = EEPROM_get a n m.
Proof.
  intro H. unfold EEPROM_get, EEPROM_put.
  destruct (address + List.length bs <=? EEPROM_SIZE)%nat; [|reflexivity].
  apply map_ext_in. intros x Hx. apply in_seq in Hx.
  destruct (address <=? x)%nat eqn:E1; [|reflexivity].
  destruct (x <? address + List.length bs)%nat eqn:E2; [|reflexivity].
  apply Nat.leb_le in E1. apply Nat.ltb_lt in E2. lia.
Qed.

Lemma EEPROM_get_put_same (address : nat) (bs : list byte) (m : store) :
  (address + List.length bs <= EEPROM_SIZE)%nat ->
  EEPROM_get address (List.length bs) (EEPROM_put address bs m) = bs.
Proof.
  intro H. unfold EEPROM_get, EEPROM_put.
  apply Nat.leb_le in H. rewrite H. apply Nat.leb_le in H.
  apply (nth_ext _ _ x00 x00).
  - now rewrite length_map, length_seq.
  - intros k Hk. rewrite length_map, length_seq in Hk.
    rewrite nth_map_seq by exact Hk.
    assert (E1 : (address <=? address + k)%nat = true) by (apply Nat.leb_le; lia).
    assert (E2 : (address + k <? address + List.length bs)%nat = true)
      by (apply Nat.ltb_lt; lia).
    rewrite E1, E2. simpl. f_equal. lia.
Qed.

Lemma Z_of_byte_of_Z (n : Z) : 0 <= n < 256 -> Z_of_byte (byte_of_Z n) = n.
Proof.
  intro H. unfold Z_of_byte, byte_of_Z, u8.
  rewrite Z.mod_small by (simpl; lia).
  destruct (Byte.of_N (Z.to_N n)) as [b|] eqn:E.
  - apply Byte.to_of_N in E. rewrite E. lia.
  - apply Byte.of_N_None_iff in E. lia.
Qed.

Lemma Z_of_byte_range (b : byte) : 0 <= Z_of_byte b < 256.
Proof.
  unfold Z_of_byte. pose proof (Byte.to_N_bounded b). lia.
Qed.

Lemma address_of_address_bytes (a : DeviceAddress) :
  address_of_bytes (address_bytes a) = a.
Proof. destruct a. reflexivity. Qed.

Lemma memcmp8_eq_true (a b : DeviceAddress) : memcmp8_eq a b = true <-> a = b.
Proof.
  split.
  - destruct a, b. unfold memcmp8_eq. simpl. intro H.
    repeat (apply andb_true_iff in H; destruct H as [?H H]).
    repeat match goal with
           | E : Byte.eqb _ _ = true |- _ => apply Byte.byte_dec_bl in E; subst
           end.
    reflexivity.
  - intros <-. destruct a. unfold memcmp8_eq. simpl.
    rewrite !(Byte.byte_dec_lb eq_refl). reflexivity.
Qed.

Lemma config_bytes_length (sensors : list DeviceAddress) :
  List.length (config_bytes sensors) = (8 * List.length sensors)%nat.
Proof.
  unfold config_bytes. induction sensors as [|a l IH]; simpl; [reflexivity|].
  simpl in IH. rewrite IH. lia.
Qed.

Lemma config_of_config_bytes (sensors : list DeviceAddress) :
  List.length sensors = 10%nat -> config_of_bytes (config_bytes sensors) = sensors.
Proof.
  intro H.
  do 10 (destruct sensors as [|[] sensors]; [discriminate|]).
  destruct sensors; [reflexivity|discriminate].
Qed.

(** ** Uniqueness *)

Lemma in_pairs_below (n i j : nat) :
  In (i, j) (pairs_below n) <-> (i < j < n)%nat.
Proof.
  unfold pairs_below. rewrite in_flat_map. split.
  - intros [x [Hx Hp]]. apply in_seq in Hx. apply in_map_iff in Hp.
    destruct Hp as [y [E Hy]]. apply in_seq in Hy. inversion E; subst. lia.
  - intro H. exists i. split; [apply in_seq; lia|].
    apply in_map_iff. exists j. split; [reflexivity|apply in_seq; lia].
Qed.

Lemma first_collision_some (s : machine) (i j : nat) :
  first_collision s = Some (i, j) ->
  (i < j < Z.to_nat (activeSensorCount s))%nat /\ slot s i = slot s j.
Proof.
  unfold first_collision. intro H. apply find_some in H. destruct H as [Hin Heq].
  apply in_pairs_below in Hin. apply memcmp8_eq_true in Heq. auto.
Qed.

Lemma first_collision_none (s : machine) :
  first_collision s = None <->
  (forall i j, (i < j < Z.to_nat (activeSensorCount s))%nat -> slot s i <> slot s j).
Proof.
  unfold first_collision. split.
  - intros H i j Hij E.
    pose proof (find_none _ _ H (i, j) (proj2 (in_pairs_below _ i j) Hij)) as Hf.
    simpl in Hf. apply memcmp8_eq_true in E. congruence.
  - intro H.
    destruct (find _ _) as [[i j]|] eqn:E; [|reflexivity].
    apply find_some in E. destruct E as [Hin Heq].
    apply in_pairs_below in Hin. apply memcmp8_eq_true in Heq.
    exfalso. exact (H i j Hin Heq).
Qed.

Lemma validateUniqueConfig_true (s : machine) :
  validateUniqueConfig s = true <->
  (forall i j, (i < j < Z.to_nat (activeSensorCount s))%nat -> slot s i <> slot s j).
Proof.
  rewrite <- first_collision_none. unfold validateUniqueConfig.
  destruct (first_collision s); split; congruence.
Qed.

(** ** Saving and loading *)

(** What [saveSensorConfig] leaves in the store, read back field by field. *)
Lemma saved_store (s : machine) :
  List.length (sensorConfig s) = 10%nat ->
  let m := flash (saveSensorConfig s) in
  EEPROM_get EEPROM_MAGIC_ADDR 2 m = bytes_of_u16 EEPROM_MAGIC /\
  EEPROM_get EEPROM_SENSOR_ADDR 80 m = config_bytes (sensorConfig s) /\
  EEPROM_get EEPROM_SENSOR_COUNT_ADDR 1 m = [byte_of_Z (activeSensorCount s)] /\
  eeprom (saveSensorConfig s) = m.
Proof.
  intros Hlen m. subst m. unfold saveSensorConfig.
  cbn [flash eeprom EEPROM_commit set_eeprom].
  pose proof (config_bytes_length (sensorConfig s)) as Hcl. rewrite Hlen in Hcl.
  unfold EEPROM_MAGIC_ADDR, EEPROM_SENSOR_ADDR, EEPROM_SENSOR_COUNT_ADDR.
  split; [|split; [|split; [|reflexivity]]].
  - rewrite !EEPROM_get_put_other by (rewrite ?Hcl; simpl; lia).
    apply (EEPROM_get_put_same 0 (bytes_of_u16 EEPROM_MAGIC)). simpl. unfold EEPROM_SIZE. lia.
  - rewrite EEPROM_get_put_other by (simpl; lia).
    change 80%nat with (8 * 10)%nat. rewrite <- Hcl.
    apply EEPROM_get_put_same. rewrite Hcl. unfold EEPROM_SIZE. lia.
  - apply (EEPROM_get_put_same 84 [byte_of_Z (activeSensorCount s)]).
    simpl. unfold EEPROM_SIZE. lia.
Qed.

Lemma magic_round_trip : u16_of_bytes (bytes_of_u16 EEPROM_MAGIC) = EEPROM_MAGIC.
Proof. reflexivity. Qed.

(** Loading from a store that [saveSensorConfig] wrote. *)
Lemma load_saved (s t : machine) :
  List.length (sensorConfig s) = 10%nat ->
  1 <= activeSensorCount s <= 10 ->
  (forall i j, (i < j < Z.to_nat (activeSensorCount s))%nat -> slot s i <> slot s j) ->
  eeprom t = flash (saveSensorConfig s) ->
  let t' := fst (loadSensorConfig t) in
  sensorConfig t' = sensorConfig s /\
  activeSensorCount t' = activeSensorCount s /\
  sensorsConfigured t' = true.
Proof.
  intros Hlen Hac Huniq Hrom.
  destruct (saved_store s Hlen) as [Hm [Hc [Hn _]]].
  assert (Hread : sensorConfig (read_stored t) = sensorConfig s /\
                  activeSensorCount (read_stored t) = activeSensorCount s).
  { unfold read_stored, stored_config, stored_count. rewrite Hrom, Hc, Hn.
    cbn [nth sensorConfig activeSensorCount set_activeSensorCount set_sensorConfig].
    rewrite (config_of_config_bytes _ Hlen), Z_of_byte_of_Z by lia. auto. }
  destruct Hread as [Hrc Hrn].
  unfold loadSensorConfig, stored_magic.
  rewrite Hrom, Hm, magic_round_trip, Z.eqb_refl, Hrn.
  destruct (activeSensorCount s <? 1) eqn:E1; [apply Z.ltb_lt in E1; lia|].
  destruct (MAX_SENSOR_COUNT <? activeSensorCount s) eqn:E2;
    [apply Z.ltb_lt in E2; unfold MAX_SENSOR_COUNT in E2; lia|].
  cbn [orb].
  assert (Hnone : first_collision (read_stored t) = None).
  { apply first_collision_none. intros i j Hij. unfold slot. rewrite Hrc.
    apply Huniq. rewrite <- Hrn. exact Hij. }
  rewrite Hnone. cbn [fst]. auto.
Qed.

(** C3.  A configuration with ten slots, an active count from 1 to 10 and
    pairwise distinct addresses in its active slots, once saved, is loaded
    back unchanged after a restart (and equally within the same session), and
    the device is then marked configured. *)
Theorem persistence_round_trip (s : machine) :
  List.length (sensorConfig s) = 10%nat ->
  1 <= activeSensorCount s <= 10 ->
  (forall i j, (i < j < Z.to_nat (activeSensorCount s))%nat -> slot s i <> slot s j) ->
  (let s' := fst (loadSensorConfig (boot (flash (saveSensorConfig s)))) in
   sensorConfig s' = sensorConfig s /\
   activeSensorCount s' = activeSensorCount s /\
   sensorsConfigured s' = true) /\
  (let s' := fst (loadSensorConfig (saveSensorConfig s)) in
   sensorConfig s' = sensorConfig s /\
   activeSensorCount s' = activeSensorCount s /\
   sensorsConfigured s' = true).
Proof.
  intros Hlen Hac Huniq. split.
  - apply load_saved; auto.
  - apply load_saved; auto.
Qed.

Lemma persistence_round_trip_witness :
  let s' := fst (loadSensorConfig (boot (flash (saveSensorConfig two_probe_machine)))) in
  sensorConfig s' = sensorConfig two_probe_machine /\
  activeSensorCount s' = 2 /\
  sensorsConfigured s' = true.
Proof.
  apply (persistence_round_trip two_probe_machine).
  - reflexivity.
  - simpl. lia.
  - intros i j H. simpl in H.
    assert (i = 0%nat /\ j = 1%nat) as [-> ->] by lia.
    simpl. discriminate.
Defined.

(** C4.  Started with a store whose magic marker is not EEPROM_MAGIC, or
    whose stored count is 0 or above 10, the device comes out of
    [loadSensorConfig] with an active count of 1 and marked unconfigured. *)
Theorem untrusted_record_fallback (rom : store) :
  stored_magic rom <> EEPROM_MAGIC \/ stored_count rom = 0 \/ 10 < stored_count rom ->
  let s' := fst (loadSensorConfig (boot rom)) in
  activeSensorCount s' = 1 /\ sensorsConfigured s' = false.
Proof.
  intro H. unfold loadSensorConfig.
  change (eeprom (boot rom)) with rom.
  destruct (stored_magic rom =? EEPROM_MAGIC) eqn:E.
  - apply Z.eqb_eq in E. destruct H as [H|H]; [contradiction|].
    change (activeSensorCount (read_stored (boot rom))) with (stored_count rom).
    assert (Hbad : (stored_count rom <? 1) || (MAX_SENSOR_COUNT <? stored_count rom) = true).
    { apply orb_true_iff. unfold MAX_SENSOR_COUNT.
      destruct H as [H|H]; [left; apply Z.ltb_lt|right; apply Z.ltb_lt]; lia. }
    rewrite Hbad. split; reflexivity.
  - split; reflexivity.
Qed.

Lemma untrusted_record_fallback_witness :
  let s' := fst (loadSensorConfig (boot wrong_magic_rom)) in
  activeSensorCount s' = 1 /\ sensorsConfigured s' = false.
Proof.
  apply (untrusted_record_fallback wrong_magic_rom).
  left. vm_compute. discriminate.
Defined.

Lemma duplicate_rom_collides : stored_collision duplicate_rom.
Proof. exists 0%nat, 1%nat. split; [vm_compute; lia|reflexivity]. Qed.

(** C5 as stated fails: a record with a good magic marker, a count in range
    and colliding slots does not bring the active count back to 1. *)
Lemma corrupt_record_counterexample :
  ~ (forall rom,
       stored_magic rom = EEPROM_MAGIC ->
       1 <= stored_count rom <= 10 ->
       stored_collision rom ->
       let s' := fst (loadSensorConfig (boot rom)) in
       activeSensorCount s' = 1 /\ sensorsConfigured s' = false).
Proof.
  intro H. specialize (H duplicate_rom eq_refl).
  destruct H as [H _].
  - vm_compute. split; discriminate.
  - exact duplicate_rom_collides.
  - vm_compute in H. discriminate.
Qed.

Lemma listing_not_no_configuration (s : machine) : ~ In no_configuration (listing s).
Proof.
  unfold listing, no_configuration. intro H. apply in_app_or in H.
  destruct H as [H|H].
  - simpl in H. destruct H as [H|[H|[H|[]]]]; discriminate.
  - apply in_map_iff in H. destruct H as [i [H _]]. discriminate.
Qed.

(** C5, amended.  A record with a good magic marker, a count from 1 to 10 and
    colliding slots leaves the device unconfigured, with the count and the
    slots as they were stored; the call prints the duplicate warning and
    blinks the red LED, and does not print the line of the magic mismatch,
    which is all a record with a wrong magic marker gets. *)
Theorem corrupt_record_fallback (rom : store) :
  stored_magic rom = EEPROM_MAGIC ->
  1 <= stored_count rom <= 10 ->
  stored_collision rom ->
  let s' := fst (loadSensorConfig (boot rom)) in
  let out := snd (loadSensorConfig (boot rom)) in
  sensorsConfigured s' = false /\
  activeSensorCount s' = stored_count rom /\
  sensorConfig s' = stored_config rom /\
  In (Serial_print "✗ WARNING: Loaded configuration contains duplicate sensors!") out /\
  In (BlinkLED LED_RED_PIN 5 200) out /\
  ~ In no_configuration out /\
  (forall rom', stored_magic rom' <> EEPROM_MAGIC ->
     snd (loadSensorConfig (boot rom'))
     = [Serial_print "Loading configuration from EEPROM..."; no_configuration]).
Proof.
  intros Hm Hc [i [j [Hij Heq]]].
  assert (Hlast : forall rom', stored_magic rom' <> EEPROM_MAGIC ->
     snd (loadSensorConfig (boot rom'))
     = [Serial_print "Loading configuration from EEPROM..."; no_configuration]).
  { intros rom' H'. unfold loadSensorConfig. change (eeprom (boot rom')) with rom'.
    apply Z.eqb_neq in H'. rewrite H'. reflexivity. }
  unfold loadSensorConfig. change (eeprom (boot rom)) with rom.
  rewrite Hm, Z.eqb_refl.
  change (activeSensorCount (read_stored (boot rom))) with (stored_count rom).
  destruct (stored_count rom <? 1) eqn:E1; [apply Z.ltb_lt in E1; lia|].
  destruct (MAX_SENSOR_COUNT <? stored_count rom) eqn:E2;
    [apply Z.ltb_lt in E2; unfold MAX_SENSOR_COUNT in E2; lia|].
  cbn [orb].
  destruct (first_collision (read_stored (boot rom))) as [[a b]|] eqn:E.
  - cbn [fst snd]. repeat split; try exact Hlast.
    + apply in_or_app. right. apply in_or_app. right. simpl. auto.
    + apply in_or_app. right. apply in_or_app. right. simpl. auto.
    + intro H. apply in_app_or in H. destruct H as [H|H].
      * simpl in H. destruct H as [H|[]]. discriminate.
      * apply in_app_or in H. destruct H as [H|H].
        -- exact (listing_not_no_configuration _ H).
        -- simpl in H. destruct H as [H|[H|[H|[H|[]]]]]; discriminate.
  - exfalso. apply (proj1 (first_collision_none _) E i j Hij). exact Heq.
Qed.

Lemma corrupt_record_fallback_witness :
  let s' := fst (loadSensorConfig (boot duplicate_rom)) in
  sensorsConfigured s' = false /\ activeSensorCount s' = 2.
Proof.
  destruct (corrupt_record_fallback duplicate_rom) as [H1 [H2 _]].
  - reflexivity.
  - vm_compute. split; discriminate.
  - exact duplicate_rom_collides.
  - split; [exact H1|exact H2].
Defined.

(** ** Touch identification *)

Lemma nth_error_nth_lt {A : Type} (l : list A) (i : nat) (d : A) :
  (i < List.length l)%nat -> nth_error l i = Some (nth i l d).
Proof.
  revert i. induction l as [|x l IH]; intros [|i] H; simpl in *; try lia; auto.
  apply IH. lia.
Qed.

Lemma first_touch_none (p : poll) (baselines : list float) (n : nat) :
  forall i,
    (i + n <= List.length baselines)%nat ->
    (forall k, (i <= k < i + n)%nat -> untouched p baselines k) ->
    first_touch p baselines i n = Done None.
Proof.
  induction n as [|n IH]; intros i Hlen Hq; simpl; [reflexivity|].
  rewrite (nth_error_nth_lt baselines i fzero) by lia.
  rewrite (Hq i) by lia. apply IH; [lia|]. intros k Hk. apply Hq. lia.
Qed.

Lemma first_touch_some (p : poll) (baselines : list float) (n : nat) :
  forall i k,
    (i + n <= List.length baselines)%nat ->
    (i <= k < i + n)%nat ->
    touched (getTempC p k) (nth k baselines fzero) = true ->
    (forall k', (i <= k' < k)%nat -> untouched p baselines k') ->
    first_touch p baselines i n = Done (Some k).
Proof.
  induction n as [|n IH]; intros i k Hlen Hk Ht Hq; simpl; [lia|].
  rewrite (nth_error_nth_lt baselines i fzero) by lia.
  destruct (Nat.eq_dec i k) as [->|Hne].
  - now rewrite Ht.
  - rewrite (Hq i) by lia. apply IH; try lia; auto.
    intros k' Hk'. apply Hq. lia.
Qed.

Lemma findSensorByTouch_skip (startTime : Z) (baselines : list float) (count : nat)
    (quiet rest : list poll) :
  (count <= List.length baselines)%nat ->
  Forall (quiet_poll startTime baselines count) quiet ->
  findSensorByTouch_from startTime (quiet ++ rest) baselines count
  = findSensorByTouch_from startTime rest baselines count.
Proof.
  intros Hlen Hq. induction Hq as [|q l [Hin Hno] _ IH]; simpl; [reflexivity|].
  apply Z.ltb_lt in Hin. rewrite Hin.
  rewrite first_touch_none; auto. intros k Hk. apply Hno. lia.
Qed.

(** C6.  [findSensorByTouch] returns the index of the first candidate, in
    enumeration order, that deviates from its baseline by more than the
    threshold in the first pass where one does, and refreshes that baseline;
    with baselines 20.0, 20.0, 20.0 and a pass reading 20.0, 22.0, 20.0 it
    returns 1; when the budget runs out with no candidate past the threshold
    it returns -1.  The threshold is 1.5 and the deviation is absolute and
    must exceed it: a reading 1.5 away in either direction is not a touch,
    one 2.0 above or below is; of probe readings (sixteenths of a degree
    from -55 to 125 degrees) at most three degrees apart, and of whole
    degrees however far apart, [touched] holds exactly of those more than
    1.5 degrees apart. *)
Theorem touch_identification (startTime : Z) (baselines : list float)
    (count : nat) (quiet : list poll) (p : poll) (rest : list poll) :
  (count <= List.length baselines)%nat ->
  Forall (quiet_poll startTime baselines count) quiet ->
  (forall i,
     u32 (clock p - startTime) < TOUCH_TIMEOUT_MS ->
     (i < count)%nat ->
     touched (getTempC p i) (nth i baselines fzero) = true ->
     (forall k, (k < i)%nat -> untouched p baselines k) ->
     findSensorByTouch {| opened := startTime; polls := quiet ++ p :: rest |}
       baselines count
     = Done (Z.of_nat i, set_nth i (getTempC p i) baselines)) /\
  (TOUCH_TIMEOUT_MS <= u32 (clock p - startTime) ->
   findSensorByTouch {| opened := startTime; polls := quiet ++ p :: rest |}
     baselines count
   = Done (-1, baselines)) /\
  findSensorByTouch {| opened := 0; polls := [pass 500 [f20_0; f22_0; f20_0]] |}
    [f20_0; f20_0; f20_0] 3
  = Done (1, [f20_0; f22_0; f20_0]) /\
  (f20_0 = float_of_Z 20 /\ f22_0 = float_of_Z 22 /\
   TEMP_CHANGE_THRESHOLD = float_ratio 3 2 /\
   sixteenths 320 = float_of_Z 20 /\ sixteenths 24 = float_ratio 3 2) /\
  (touched (float_ratio 43 2) (float_of_Z 20) = false /\
   touched (float_ratio 37 2) (float_of_Z 20) = false /\
   touched (float_of_Z 22) (float_of_Z 20) = true /\
   touched (float_of_Z 18) (float_of_Z 20) = true /\
   touched (float_of_Z 20) (float_of_Z 20) = false) /\
  (forall a b, -880 <= a <= 2000 -> Z.abs (a - b) <= 48 ->
     touched (sixteenths a) (sixteenths b) = (24 <? Z.abs (a - b))) /\
  (forall a b, -55 <= a <= 125 -> -55 <= b <= 125 ->
     touched (sixteenths (16 * a)) (sixteenths (16 * b)) = (1 <? Z.abs (a - b))).
Proof.
  intros Hlen Hq. unfold findSensorByTouch. cbn [opened polls].
  split; [|split; [|split; [|split; [|split; [|split]]]]];
    [| | |vm_compute; repeat split|vm_compute; repeat split
     |exact touched_band|exact touched_degrees].
  - intros i Hin Hi Ht Hbefore.
    rewrite findSensorByTouch_skip by assumption. simpl.
    apply Z.ltb_lt in Hin. rewrite Hin.
    rewrite (first_touch_some p baselines count 0 i); auto; try lia.
    intros k Hk. apply Hbefore. lia.
  - intro Hout. rewrite findSensorByTouch_skip by assumption. simpl.
    apply Z.ltb_ge in Hout. now rewrite Hout.
  - vm_compute. reflexivity.
Qed.

Lemma touch_identification_witness :
  findSensorByTouch
    {| opened := 1000;
       polls := pass 1500 [f20_0; f20_0; f20_0] :: pass 2750 [f20_0; f20_0; f22_0] :: [] |}
    [f20_0; f20_0; f20_0] 3
  = Done (2, [f20_0; f20_0; f22_0]) /\
  findSensorByTouch
    {| opened := 1000;
       polls := pass 1500 [f20_0; f20_0; f20_0] :: pass 31000 [f20_0; f20_0; f22_0] :: [] |}
    [f20_0; f20_0; f20_0] 3
  = Done (-1, [f20_0; f20_0; f20_0]).
Proof.
  assert (Hq : Forall (quiet_poll 1000 [f20_0; f20_0; f20_0] 3)
                 [pass 1500 [f20_0; f20_0; f20_0]]).
  { constructor; [|constructor]. split; [reflexivity|].
    intros k Hk. do 3 (destruct k as [|k]; [reflexivity|]). lia. }
  split.
  - destruct (touch_identification 1000 [f20_0; f20_0; f20_0] 3
                [pass 1500 [f20_0; f20_0; f20_0]]
                (pass 2750 [f20_0; f20_0; f22_0]) []) as [H _].
    + simpl. lia.
    + exact Hq.
    + apply (H 2%nat).
      * reflexivity.
      * lia.
      * reflexivity.
      * intros k Hk. do 2 (destruct k as [|k]; [reflexivity|]). lia.
  - destruct (touch_identification 1000 [f20_0; f20_0; f20_0] 3
                [pass 1500 [f20_0; f20_0; f20_0]]
                (pass 31000 [f20_0; f20_0; f22_0]) []) as [_ [H _]].
    + simpl. lia.
    + exact Hq.
    + apply H. vm_compute. discriminate.
Defined.

(** ** The position wait *)

Lemma nth_set_nth_other {A : Type} (v d : A) (l : list A) :
  forall i k, i <> k -> nth k (set_nth i v l) d = nth k l d.
Proof.
  induction l as [|x l IH]; intros [|i] [|k] H; simpl; try reflexivity; try lia.
  apply IH. lia.
Qed.

Lemma nth_set_nth_same {A : Type} (v d : A) (l : list A) :
  forall i, (i < List.length l)%nat -> nth i (set_nth i v l) d = v.
Proof.
  induction l as [|x l IH]; intros [|i] H; simpl in *; try lia; auto.
  apply IH. lia.
Qed.

Lemma length_set_nth {A : Type} (v : A) (l : list A) :
  forall i, List.length (set_nth i v l) = List.length l.
Proof.
  induction l as [|x l IH]; intros [|i]; simpl; auto.
Qed.

Lemma scan_for_touch_skip (pos : nat) (allSensors : list DeviceAddress) (p : poll)
    (st : waiting) (r m : nat) :
  forall i,
    (forall k, (i <= k < i + m)%nat -> untouched p (w_baselines st) k) ->
    scan_for_touch pos allSensors p i (m + r) st
    = scan_for_touch pos allSensors p (i + m) r st.
Proof.
  induction m as [|m IH]; intros i Hq.
  - now rewrite Nat.add_0_r.
  - cbn [Nat.add scan_for_touch]. rewrite (Hq i) by lia.
    rewrite IH by (intros k Hk; apply Hq; lia).
    f_equal. lia.
Qed.

Lemma scan_for_touch_quiet (pos : nat) (allSensors : list DeviceAddress) (p : poll)
    (st : waiting) (m i : nat) :
  (forall k, (i <= k < i + m)%nat -> untouched p (w_baselines st) k) ->
  scan_for_touch pos allSensors p i m st = st.
Proof.
  intro Hq. rewrite <- (Nat.add_0_r m). rewrite scan_for_touch_skip by exact Hq.
  reflexivity.
Qed.

Lemma isDuplicateSensor_true (s : machine) (a : DeviceAddress) (pos : nat) :
  isDuplicateSensor s a pos = true <->
  exists k, (k < pos)%nat /\ (k < Z.to_nat (activeSensorCount s))%nat /\ a = slot s k.
Proof.
  unfold isDuplicateSensor. rewrite existsb_exists. split.
  - intros [k [Hk He]]. apply in_seq in Hk. apply memcmp8_eq_true in He.
    exists k. repeat split; auto; lia.
  - intros [k [H1 [H2 He]]]. exists k. split; [apply in_seq; lia|].
    now apply memcmp8_eq_true.
Qed.

(** C7.  While position [pos] is being assigned (the active count is then
    [pos]), a touch on a candidate whose address is already in a slot below
    [pos] assigns nothing: the globals, the slots and the active count among
    them, stay as they are, the baseline of that candidate becomes its
    current reading, the window restarts at the clock read after the
    rejection, and the pass goes on with the next candidate; when no other
    candidate is touched in that pass, the same wait goes on with the next
    poll. *)
Theorem duplicate_touch_rejected (pos : nat) (allSensors : list DeviceAddress)
    (p : poll) (st : waiting) (i : nat) :
  activeSensorCount (w_machine st) = Z.of_nat pos ->
  touched (getTempC p i) (nth i (w_baselines st) fzero) = true ->
  (exists k, (k < pos)%nat /\ nth i allSensors zero_address = slot (w_machine st) k) ->
  let st' := {| w_machine := w_machine st;
                w_baselines := set_nth i (getTempC p i) (w_baselines st);
                w_waitStart := clock_after p i;
                w_sensorFound := w_sensorFound st |} in
  (forall m, scan_for_touch pos allSensors p i (S m) st
             = scan_for_touch pos allSensors p (S i) m st') /\
  (forall n rest,
     w_sensorFound st = false ->
     u32 (clock p - w_waitStart st) < POSITION_TIMEOUT_MS ->
     save_held p = false ->
     (i < n)%nat ->
     (forall k, (k < n)%nat -> k <> i -> untouched p (w_baselines st) k) ->
     wait_for_position pos allSensors n (p :: rest) st
     = wait_for_position pos allSensors n rest st').
Proof.
  intros Hcount Ht [k [Hk Hdup]] st'.
  assert (Hd : isDuplicateSensor (w_machine st) (nth i allSensors zero_address) pos = true).
  { apply isDuplicateSensor_true. exists k. repeat split; auto. lia. }
  assert (Hstep : forall m, scan_for_touch pos allSensors p i (S m) st
                            = scan_for_touch pos allSensors p (S i) m st').
  { intro m. cbn [scan_for_touch]. now rewrite Ht, Hd. }
  split; [exact Hstep|].
  intros n rest Hfound Hin Hheld Hi Hothers.
  cbn [wait_for_position]. apply Z.ltb_lt in Hin. rewrite Hin, Hheld.
  assert (Hscan : scan_for_touch pos allSensors p 0 n st = st').
  { replace n with (i + S (n - S i))%nat by lia.
    rewrite scan_for_touch_skip by (intros k' Hk'; apply Hothers; lia).
    cbn [Nat.add]. rewrite Hstep. apply scan_for_touch_quiet.
    intros k' Hk'. unfold untouched, st'. cbn [w_baselines].
    rewrite nth_set_nth_other by lia. apply Hothers; lia. }
  rewrite Hscan. unfold st' at 1. cbn [w_sensorFound]. rewrite Hfound. reflexivity.
Qed.

Lemma duplicate_touch_rejected_witness :
  wait_for_position 2 [probe_A; probe_B; probe_C] 3
    [pass 500 [f20_0; f22_0; f20_0]; pass 70000 [f20_0; f22_0; f20_0]]
    rejected_example
  = Done (WaitTimeout,
          {| w_machine := two_probe_machine;
             w_baselines := [f20_0; f22_0; f20_0];
             w_waitStart := 500;
             w_sensorFound := false |}).
Proof.
  destruct (duplicate_touch_rejected 2 [probe_A; probe_B; probe_C]
              (pass 500 [f20_0; f22_0; f20_0]) rejected_example 1) as [_ H].
  - reflexivity.
  - reflexivity.
  - exists 1%nat. split; [lia|reflexivity].
  - rewrite (H 3%nat).
    + reflexivity.
    + reflexivity.
    + reflexivity.
    + reflexivity.
    + lia.
    + intros k Hk Hne. destruct k as [|[|[|k]]]; try reflexivity; lia.
Defined.

(** ** The setup sequence *)

Lemma scan_for_touch_cases (pos : nat) (allSensors : list DeviceAddress) (p : poll)
    (n : nat) :
  forall i st,
    let st' := scan_for_touch pos allSensors p i n st in
    (w_machine st' = w_machine st /\ w_sensorFound st' = w_sensorFound st) \/
    (w_sensorFound st' = true /\ position_assigned pos (w_machine st) (w_machine st')).
Proof.
  induction n as [|n IH]; intros i st; cbn [scan_for_touch]; [left; auto|].
  destruct (touched _ _); [|apply IH].
  destruct (isDuplicateSensor _ _ _).
  - match goal with |- context [scan_for_touch _ _ _ _ _ ?st1] => apply (IH (S i) st1) end.
  - right. split; [reflexivity|]. eexists. reflexivity.
Qed.

Lemma wait_for_position_cases (pos : nat) (allSensors : list DeviceAddress)
    (n : nat) (ps : list poll) :
  forall st e st',
    w_sensorFound st = false ->
    wait_for_position pos allSensors n ps st = Done (e, st') ->
    (e = SensorFound /\ position_assigned pos (w_machine st) (w_machine st')) \/
    (e <> SensorFound /\ w_machine st' = w_machine st).
Proof.
  induction ps as [|p ps IH]; intros st e st' Hf H; cbn [wait_for_position] in H;
    [discriminate|].
  destruct (u32 (clock p - w_waitStart st) <? POSITION_TIMEOUT_MS).
  - destruct (save_held p).
    + inversion H; subst. right. split; [discriminate|reflexivity].
    + destruct (scan_for_touch_cases pos allSensors p n 0 st) as [[Hm Hs]|[Hs Ha]];
        rewrite Hs in H.
      * rewrite Hf in H. apply IH in H; [|congruence].
        rewrite Hm in H. exact H.
      * inversion H; subst. left. auto.
  - inversion H; subst. right. split; [discriminate|reflexivity].
Qed.

Lemma assign_positions_inv (allSensors : list DeviceAddress) (n : nat)
    (remaining : nat) :
  forall pos ws baselines s s',
    activeSensorCount s = Z.of_nat pos ->
    (1 <= pos)%nat ->
    (pos + remaining = 10)%nat ->
    assign_positions remaining pos allSensors n ws baselines s = Done s' ->
    Z.of_nat pos <= activeSensorCount s' <= 10 /\ slot s' 0 = slot s 0.
Proof.
  induction remaining as [|k IH]; intros pos ws baselines s s' Hc Hpos Hsum H;
    cbn [assign_positions] in H.
  - inversion H; subst. split; [lia|reflexivity].
  - destruct ws as [|w ws']; [discriminate|].
    destruct (wait_for_position _ _ _ _ _) as [[e st]| |] eqn:E; try discriminate.
    apply wait_for_position_cases in E; [|reflexivity]. cbn [w_machine] in E.
    destruct E as [[-> [a Ha]]|[Hne Hm]].
    + apply IH in H; try lia.
      * destruct H as [H1 H2]. split; [lia|]. rewrite H2, Ha.
        unfold slot, assign_slot.
        cbn [sensorConfig set_activeSensorCount set_sensorConfig].
        apply nth_set_nth_other. lia.
      * rewrite Ha. simpl. rewrite Hc. unfold u8.
        rewrite Z.mod_small by (change (2 ^ 8) with 256; lia). lia.
    + assert (Hs' : s' = s) by (destruct e; congruence).
      subst s'. split; [lia|reflexivity].
Qed.

Lemma first_touch_in_bounds (p : poll) (baselines : list float) (n : nat) :
  forall i k, first_touch p baselines i n = Done (Some k) ->
              (k < List.length baselines)%nat.
Proof.
  induction n as [|n IH]; intros i k H; simpl in H; [discriminate|].
  destruct (nth_error baselines i) as [b|] eqn:E; [|discriminate].
  destruct (touched _ _).
  - inversion H; subst. apply nth_error_Some. congruence.
  - eapply IH; eauto.
Qed.

Lemma findSensorByTouch_index (startTime : Z) (count : nat) (ps : list poll) :
  forall baselines idx b',
    findSensorByTouch_from startTime ps baselines count = Done (idx, b') ->
    0 <= idx ->
    (Z.to_nat idx < List.length baselines)%nat.
Proof.
  induction ps as [|p ps IH]; intros baselines idx b' H Hidx; simpl in H;
    [discriminate|].
  destruct (u32 (clock p - startTime) <? TOUCH_TIMEOUT_MS).
  - destruct (first_touch p baselines 0 count) as [[k|]| |] eqn:E; try discriminate.
    + inversion H; subst. apply first_touch_in_bounds in E. lia.
    + eapply IH; eauto.
  - inversion H; subst. lia.
Qed.

Lemma In_firstn {A : Type} (x : A) (l : list A) :
  forall n, In x (firstn n l) -> In x l.
Proof.
  induction l as [|y l IH]; intros [|n] H; simpl in *; auto; try contradiction.
  destruct H as [H|H]; eauto.
Qed.

(** C8.  Whenever the setup sequence reaches its save, the configuration it
    saves has an active count from 1 to 10, pairwise distinct addresses in
    its active slots, and the address of an enumerated device in slot 0. *)
Theorem saved_configuration_valid (w : world) (s s' : machine) :
  (0 < List.length (sensorConfig s))%nat ->
  scanAndIdentifySensors w s = Done (SetupComplete, s') ->
  exists c,
    s' = set_sensorsConfigured true (saveSensorConfig c) /\
    1 <= activeSensorCount c <= 10 /\
    (forall i j, (i < j < Z.to_nat (activeSensorCount c))%nat -> slot c i <> slot c j) /\
    In (slot c 0) (devices w).
Proof.
  intros Hlen H. unfold scanAndIdentifySensors in H.
  destruct (List.length (devices w) <? 1)%nat; [discriminate|].
  destruct (findSensorByTouch _ _ _) as [[idx b']| |] eqn:Ef; try discriminate.
  destruct (0 <=? idx) eqn:Eidx; [|discriminate].
  apply Z.leb_le in Eidx.
  destruct (assign_positions _ _ _ _ _ _ _) as [c| |] eqn:Ea; try discriminate.
  destruct (validateUniqueConfig c) eqn:Ev; [|discriminate].
  inversion H; subst. exists c.
  apply assign_positions_inv in Ea; [|reflexivity|lia|reflexivity].
  destruct Ea as [Hc H0]. simpl Z.of_nat in Hc.
  split; [reflexivity|]. split; [exact Hc|].
  split; [apply validateUniqueConfig_true; exact Ev|].
  rewrite H0. unfold slot, assign_slot.
  cbn [sensorConfig set_activeSensorCount set_sensorConfig].
  rewrite nth_set_nth_same by exact Hlen.
  unfold findSensorByTouch in Ef. apply findSensorByTouch_index in Ef; [|exact Eidx].
  rewrite length_map, length_seq in Ef.
  apply In_firstn with (n := 16%nat). apply nth_In.
  rewrite length_firstn. lia.
Qed.

Lemma saved_configuration_valid_witness :
  exists c,
    1 <= activeSensorCount c <= 10 /\
    (forall i j, (i < j < Z.to_nat (activeSensorCount c))%nat -> slot c i <> slot c j) /\
    In (slot c 0) [probe_A; probe_B; probe_C].
Proof.
  edestruct (saved_configuration_valid guided_world (boot blank_rom)) as [c [_ H]].
  - simpl. lia.
  - vm_compute. reflexivity.
  - exists c. exact H.
Defined.

(** ** Aborted attempts *)

Lemma no_devices_abort (w : world) (s : machine) :
  devices w = [] -> scanAndIdentifySensors w s = Done (NoSensorsFound, s).
Proof. intro H. unfold scanAndIdentifySensors. now rewrite H. Qed.

Lemma ambient_abort_state (w : world) (s s' : machine) :
  scanAndIdentifySensors w s = Done (AmbientRequired, s') ->
  s' = set_activeSensorCount 0 s.
Proof.
  unfold scanAndIdentifySensors. intro H.
  destruct (List.length (devices w) <? 1)%nat; [discriminate|].
  destruct (findSensorByTouch _ _ _) as [[idx b']| |]; try discriminate.
  destruct (0 <=? idx).
  - destruct (assign_positions _ _ _ _ _ _ _) as [c| |]; try discriminate.
    destruct (validateUniqueConfig c); discriminate.
  - now inversion H.
Qed.

(** C9 at its failing input.  A configured device with two active sensors
    enters setup, three devices are enumerated and none is touched within the
    ambient budget: nothing is written to the store, the slots stay, but the
    active count is left at 0. *)
Theorem ambient_timeout_resets_count :
  exists s',
    scanAndIdentifySensors silent_world configured_machine = Done (AmbientRequired, s') /\
    flash s' = flash configured_machine /\
    sensorConfig s' = sensorConfig configured_machine /\
    sensorsConfigured s' = true /\
    activeSensorCount configured_machine = 2 /\
    activeSensorCount s' = 0.
Proof.
  exists (set_activeSensorCount 0 configured_machine).
  split; [vm_compute; reflexivity|]. repeat split.
Qed.

(** With an active count of 0 the encoder writes ten placeholders in front
    of the ambient field. *)
Lemma encode_packet_zero (id : Z) (reading : list float) :
  0 <= id < 65536 ->
  probe_value (nth 0 reading fzero) = true ->
  exists packet,
    encode_packet id 0 reading = Some packet /\
    packet_fields packet
    = repeat (chars "0.0") 10 ++ [printf_1f (nth 0 reading fzero)].
Proof.
  intros Hid Hp.
  assert (Hpieces : packet_pieces id 0 reading
                    = (chars "TX" ++ printf_d id ++ chars ":")
                      :: map (fun f => f ++ chars ",") (repeat (chars "0.0") 10)
                      ++ [printf_1f (nth 0 reading fzero)]) by reflexivity.
  unfold encode_packet.
  destruct (snprintf_all_fits (packet_pieces id 0 reading) {| written := []; offset := 0 |})
    as [c [Hc Hw]]; [reflexivity| |].
  - rewrite Hpieces. cbn [written List.length Nat.add List.concat].
    rewrite concat_app. cbn [List.concat]. rewrite app_nil_r, !length_app.
    pose proof (header_length id Hid) as Hh. rewrite !length_app in Hh.
    pose proof (probe_value_length _ Hp).
    change (List.length (List.concat (map (fun f => f ++ chars ",")
                                          (repeat (chars "0.0") 10)))) with 40%nat.
    lia.
  - rewrite Hc. cbn [option_map]. eexists. split; [reflexivity|].
    rewrite Hw, Hpieces. cbn [written List.concat app].
    rewrite concat_app. cbn [List.concat]. rewrite app_nil_r.
    apply packet_fields_text; [lia| |apply printf_1f_field_chars].
    repeat constructor.
Qed.

(** C10.  A setup attempt that ends for want of the ambient sensor leaves the
    configured flag as it was and the active count at 0.  A device that was
    configured then goes on transmitting: the next [loop] turn whose interval
    has passed sends a packet encoded with an active count of 0, ten
    placeholders in front of the ambient field. *)
Theorem aborted_setup_frame (w : world) (s s' : machine) :
  scanAndIdentifySensors w s = Done (AmbientRequired, s') ->
  sensorsConfigured s' = sensorsConfigured s /\
  activeSensorCount s' = 0 /\
  (sensorsConfigured s = true ->
   0 <= transmitterID s < 65536 ->
   probe_value (nth 0 (temps (latestData s)) fzero) = true ->
   forall io,
     setup_pressed io = false ->
     TRANSMIT_INTERVAL_MS <= u32 (loop_millis io - lastTransmitTime s) ->
     exists s'' packet,
       loop io s' = Done s'' /\
       radio s'' = radio s ++ [packet] /\
       encode_packet (transmitterID s) 0 (temps (latestData s)) = Some packet /\
       packet_fields packet
       = repeat (chars "0.0") 10 ++ [printf_1f (nth 0 (temps (latestData s)) fzero)]).
Proof.
  intro H. apply ambient_abort_state in H. subst s'.
  split; [reflexivity|]. split; [reflexivity|].
  intros Hconf Hid Hp io Hpress Hdue.
  destruct (encode_packet_zero _ _ Hid Hp) as [packet [He Hf]].
  unfold loop. rewrite Hpress. unfold transmit_due.
  cbn [sensorsConfigured lastTransmitTime set_activeSensorCount].
  rewrite Hconf. apply Z.leb_le in Hdue. rewrite Hdue. cbn [andb].
  unfold readAndTransmitData.
  cbn [activeSensorCount transmitterID latestData set_activeSensorCount
       set_latestData Z.to_nat seq fold_left].
  rewrite He.
  eexists. exists packet. split; [reflexivity|]. split; [|split; [reflexivity|exact Hf]].
  cbn [powerSaveMode set_lastTransmitTime LoRa_send set_latestData set_activeSensorCount].
  destruct (powerSaveMode s); reflexivity.
Qed.

Lemma aborted_setup_frame_witness :
  exists s' s'' packet,
    scanAndIdentifySensors silent_world configured_machine = Done (AmbientRequired, s') /\
    sensorsConfigured s' = true /\
    activeSensorCount s' = 0 /\
    loop due_turn s' = Done s'' /\
    radio s'' = [packet] /\
    List.length (packet_fields packet) = 11%nat.
Proof.
  destruct (aborted_setup_frame silent_world configured_machine
              (set_activeSensorCount 0 configured_machine)) as [H1 [H2 H3]].
  - vm_compute. reflexivity.
  - destruct (H3 eq_refl) with (io := due_turn) as [s'' [packet [Ha [Hb [_ Hd]]]]].
    + simpl. lia.
    + reflexivity.
    + reflexivity.
    + vm_compute. discriminate.
    + exists (set_activeSensorCount 0 configured_machine), s'', packet.
      split; [vm_compute; reflexivity|].
      split; [exact H1|]. split; [exact H2|]. split; [exact Ha|].
      split; [exact Hb|]. rewrite Hd. reflexivity.
Defined.

(** ** More on the setup sequence *)

Lemma same_outside_config_refl (s : machine) : same_outside_config s s.
Proof. repeat split. Qed.

Lemma same_outside_config_trans (a b c : machine) :
  same_outside_config a b -> same_outside_config b c -> same_outside_config a c.
Proof.
  unfold same_outside_config. intros H1 H2.
  repeat match goal with H : _ /\ _ |- _ => destruct H end.
  repeat split; congruence.
Qed.

(** What one pass does to the globals: nothing, or one assignment of a
    candidate that is not a duplicate. *)
Lemma scan_for_touch_assigns (pos : nat) (allSensors : list DeviceAddress) (p : poll)
    (n : nat) :
  forall i st,
    let st' := scan_for_touch pos allSensors p i n st in
    (w_machine st' = w_machine st /\ w_sensorFound st' = w_sensorFound st) \/
    (w_sensorFound st' = true /\
     exists i', (i <= i' < i + n)%nat /\
       isDuplicateSensor (w_machine st) (nth i' allSensors zero_address) pos = false /\
       w_machine st'
       = set_activeSensorCount (u8 (activeSensorCount (w_machine st) + 1))
           (assign_slot pos (nth i' allSensors zero_address) (w_machine st))).
Proof.
  induction n as [|n IH]; intros i st; cbn [scan_for_touch]; [left; auto|].
  destruct (touched _ _).
  - destruct (isDuplicateSensor _ _ _) eqn:Ed.
    + match goal with |- context [scan_for_touch _ _ _ _ _ ?st1] =>
        destruct (IH (S i) st1) as [H|[Hf [i' [Hi' H]]]] end.
      * left. exact H.
      * right. split; [exact Hf|]. exists i'. split; [lia|exact H].
    + right. split; [reflexivity|]. exists i. split; [lia|]. split; [exact Ed|reflexivity].
  - destruct (IH (S i) st) as [H|[Hf [i' [Hi' H]]]].
    + left. exact H.
    + right. split; [exact Hf|]. exists i'. split; [lia|exact H].
Qed.

Lemma wait_for_position_assigns (pos : nat) (allSensors : list DeviceAddress)
    (n : nat) (ps : list poll) :
  forall st e st',
    w_sensorFound st = false ->
    wait_for_position pos allSensors n ps st = Done (e, st') ->
    (e <> SensorFound /\ w_machine st' = w_machine st) \/
    (e = SensorFound /\
     exists i', (i' < n)%nat /\
       isDuplicateSensor (w_machine st) (nth i' allSensors zero_address) pos = false /\
       w_machine st'
       = set_activeSensorCount (u8 (activeSensorCount (w_machine st) + 1))
           (assign_slot pos (nth i' allSensors zero_address) (w_machine st))).
Proof.
  induction ps as [|p ps IH]; intros st e st' Hf H; cbn [wait_for_position] in H;
    [discriminate|].
  destruct (u32 (clock p - w_waitStart st) <? POSITION_TIMEOUT_MS).
  - destruct (save_held p).
    + inversion H; subst. left. split; [discriminate|reflexivity].
    + destruct (scan_for_touch_assigns pos allSensors p n 0 st) as [[Hm Hs]|[Hs Ha]];
        rewrite Hs in H.
      * rewrite Hf in H. apply IH in H; [|congruence].
        rewrite Hm in H. exact H.
      * inversion H; subst. right. split; [reflexivity|].
        destruct Ha as [i' [Hi' Ha]]. exists i'. split; [lia|exact Ha].
  - inversion H; subst. left. split; [discriminate|reflexivity].
Qed.

(** Assigning a candidate that is not a duplicate keeps the invariant. *)
Lemma setup_inv_assign (allSensors : list DeviceAddress) (pos i : nat) (s : machine) :
  setup_inv allSensors pos s ->
  (pos < 10)%nat ->
  (i < List.length allSensors)%nat ->
  isDuplicateSensor s (nth i allSensors zero_address) pos = false ->
  setup_inv allSensors (S pos)
    (set_activeSensorCount (u8 (activeSensorCount s + 1))
       (assign_slot pos (nth i allSensors zero_address) s)).
Proof.
  intros [Hc [Hl [Hin Hd]]] Hpos Hi Hdup.
  assert (Hslot : forall k, slot (set_activeSensorCount (u8 (activeSensorCount s + 1))
                                    (assign_slot pos (nth i allSensors zero_address) s)) k
                            = if Nat.eqb k pos then nth i allSensors zero_address
                              else slot s k).
  { intro k. unfold slot, assign_slot.
    cbn [sensorConfig set_activeSensorCount set_sensorConfig].
    destruct (Nat.eqb k pos) eqn:E.
    - apply Nat.eqb_eq in E. subst k. apply nth_set_nth_same. lia.
    - apply Nat.eqb_neq in E. apply nth_set_nth_other. lia. }
  assert (Hfresh : forall k, (k < pos)%nat -> nth i allSensors zero_address <> slot s k).
  { intros k Hk E.
    assert (isDuplicateSensor s (nth i allSensors zero_address) pos = true)
      by (apply isDuplicateSensor_true; exists k; repeat split; auto; lia).
    congruence. }
  split; [|split; [|split]].
  - cbn [activeSensorCount set_activeSensorCount]. rewrite Hc. unfold u8.
    rewrite Z.mod_small by (change (2 ^ 8) with 256; lia). lia.
  - unfold assign_slot. cbn [sensorConfig set_activeSensorCount set_sensorConfig].
    now rewrite length_set_nth.
  - intros k Hk. rewrite Hslot. destruct (Nat.eqb k pos) eqn:E.
    + apply nth_In. exact Hi.
    + apply Nat.eqb_neq in E. apply Hin. lia.
  - intros a b Hab. rewrite !Hslot.
    destruct (Nat.eqb a pos) eqn:Ea; [apply Nat.eqb_eq in Ea; lia|].
    destruct (Nat.eqb b pos) eqn:Eb.
    + intro E. apply (Hfresh a); [lia|]. now symmetry.
    + apply Nat.eqb_neq in Eb. apply Hd. lia.
Qed.

Lemma assign_positions_setup_inv (allSensors : list DeviceAddress) (n : nat)
    (remaining : nat) :
  forall pos ws baselines s s',
    (n <= List.length allSensors)%nat ->
    setup_inv allSensors pos s ->
    (pos + remaining = 10)%nat ->
    assign_positions remaining pos allSensors n ws baselines s = Done s' ->
    exists pos', (pos <= pos' <= 10)%nat /\ setup_inv allSensors pos' s' /\
                 same_outside_config s s'.
Proof.
  induction remaining as [|k IH]; intros pos ws baselines s s' Hn Hinv Hsum H;
    cbn [assign_positions] in H.
  - inversion H; subst. exists pos. split; [lia|]. split; [exact Hinv|].
    apply same_outside_config_refl.
  - destruct ws as [|w ws']; [discriminate|].
    destruct (wait_for_position _ _ _ _ _) as [[e st]| |] eqn:E; try discriminate.
    apply wait_for_position_assigns in E; [|reflexivity]. cbn [w_machine] in E.
    destruct E as [[Hne Hm]|[-> [i' [Hi' [Hdup Hm]]]]].
    + assert (Hs' : s' = s) by (destruct e; congruence).
      subst s'. exists pos. split; [lia|]. split; [exact Hinv|].
      apply same_outside_config_refl.
    + apply IH in H; try lia.
      * destruct H as [pos' [Hp [Hinv' Hsame]]]. exists pos'.
        split; [lia|]. split; [exact Hinv'|].
        eapply same_outside_config_trans; [|exact Hsame].
        rewrite Hm. repeat split.
      * rewrite Hm. apply setup_inv_assign; auto; lia.
Qed.

(** How a setup attempt can end, for a device with its ten slots. *)
Lemma scan_outcome (w : world) (s : machine) (e : setup_exit) (s' : machine) :
  List.length (sensorConfig s) = 10%nat ->
  scanAndIdentifySensors w s = Done (e, s') ->
  (e = NoSensorsFound /\ s' = s /\ devices w = []) \/
  (e = AmbientRequired /\ s' = set_activeSensorCount 0 s /\ devices w <> []) \/
  (e = SetupComplete /\
   exists c pos,
     s' = set_sensorsConfigured true (saveSensorConfig c) /\
     (1 <= pos <= 10)%nat /\
     setup_inv (firstn 16 (devices w)) pos c /\
     same_outside_config s c).
Proof.
  intros Hlen H. unfold scanAndIdentifySensors in H.
  destruct (List.length (devices w) <? 1)%nat eqn:Edev.
  - inversion H; subst. left. repeat split.
    apply Nat.ltb_lt in Edev. destruct (devices w); [reflexivity|simpl in Edev; lia].
  - apply Nat.ltb_ge in Edev.
    assert (Hne : devices w <> []) by (intro E; rewrite E in Edev; simpl in Edev; lia).
    destruct (findSensorByTouch _ _ _) as [[idx b']| |] eqn:Ef; try discriminate.
    destruct (0 <=? idx) eqn:Eidx.
    + apply Z.leb_le in Eidx.
      destruct (assign_positions _ _ _ _ _ _ _) as [c| |] eqn:Ea; try discriminate.
      unfold findSensorByTouch in Ef.
      apply findSensorByTouch_index in Ef; [|exact Eidx].
      rewrite length_map, length_seq in Ef.
      apply assign_positions_setup_inv in Ea.
      * destruct Ea as [pos [Hp [Hinv Hsame]]].
        assert (Hv : validateUniqueConfig c = true).
        { apply validateUniqueConfig_true. destruct Hinv as [Hc [_ [_ Hd]]].
          rewrite Hc, Nat2Z.id. exact Hd. }
        rewrite Hv in H. inversion H; subst. right. right.
        split; [reflexivity|]. exists c, pos.
        split; [reflexivity|]. split; [lia|]. split; [exact Hinv|].
        eapply same_outside_config_trans; [|exact Hsame]. repeat split.
      * rewrite length_firstn. lia.
      * split; [reflexivity|]. split; [|split].
        -- unfold assign_slot.
           cbn [sensorConfig set_activeSensorCount set_sensorConfig].
           now rewrite length_set_nth.
        -- intros k Hk. assert (k = 0%nat) by lia. subst k.
           unfold slot, assign_slot.
           cbn [sensorConfig set_activeSensorCount set_sensorConfig].
           rewrite nth_set_nth_same by lia. apply nth_In.
           rewrite length_firstn. lia.
        -- intros i j Hij. lia.
      * reflexivity.
    + inversion H; subst. right. left. repeat split. exact Hne.
Qed.

(** X1.  The final validation of the setup sequence cannot fail: with the
    duplicates rejected touch by touch, a device with its ten slots never
    leaves [scanAndIdentifySensors] through the duplicate error. *)
Theorem duplicate_exit_unreachable (w : world) (s s' : machine) :
  List.length (sensorConfig s) = 10%nat ->
  scanAndIdentifySensors w s <> Done (DuplicateSensors, s').
Proof.
  intros Hlen H. apply scan_outcome in H; [|exact Hlen].
  destruct H as [[H _]|[[H _]|[H _]]]; discriminate.
Qed.

Lemma duplicate_exit_unreachable_witness :
  scanAndIdentifySensors guided_world (boot blank_rom)
  <> Done (DuplicateSensors, boot blank_rom).
Proof.
  apply (duplicate_exit_unreachable guided_world (boot blank_rom)). reflexivity.
Defined.

(** X2.  A setup attempt that does not complete leaves the slots, the
    configured flag, the EEPROM and everything else as they were; only the
    active count may differ, and then it is 0. *)
Theorem incomplete_setup_frame (w : world) (s : machine) (e : setup_exit) (s' : machine) :
  List.length (sensorConfig s) = 10%nat ->
  scanAndIdentifySensors w s = Done (e, s') ->
  e <> SetupComplete ->
  sensorConfig s' = sensorConfig s /\
  same_outside_config s s' /\
  (activeSensorCount s' = activeSensorCount s \/ activeSensorCount s' = 0).
Proof.
  intros Hlen H Hne. apply scan_outcome in H; [|exact Hlen].
  destruct H as [[_ [-> _]]|[[_ [-> _]]|[H _]]].
  - split; [reflexivity|]. split; [apply same_outside_config_refl|]. now left.
  - split; [reflexivity|]. split; [repeat split|]. now right.
  - contradiction.
Qed.

Lemma incomplete_setup_frame_witness :
  exists s',
    scanAndIdentifySensors silent_world configured_machine = Done (AmbientRequired, s') /\
    sensorConfig s' = sensorConfig configured_machine /\
    flash s' = flash configured_machine.
Proof.
  exists (set_activeSensorCount 0 configured_machine).
  destruct (incomplete_setup_frame silent_world configured_machine AmbientRequired
              (set_activeSensorCount 0 configured_machine)) as [H1 [H2 _]].
  - reflexivity.
  - vm_compute. reflexivity.
  - discriminate.
  - split; [vm_compute; reflexivity|]. split; [exact H1|]. apply H2.
Defined.

(** X3.  A setup attempt that completes can be relied on after a restart:
    the device is configured with 1 to 10 sensors, and loading what it saved
    gives the same slots and the same active count, configured again. *)
Theorem completed_setup_survives_restart (w : world) (s s' : machine) :
  List.length (sensorConfig s) = 10%nat ->
  scanAndIdentifySensors w s = Done (SetupComplete, s') ->
  sensorsConfigured s' = true /\
  1 <= activeSensorCount s' <= 10 /\
  let t := fst (loadSensorConfig (boot (flash s'))) in
  sensorConfig t = sensorConfig s' /\
  activeSensorCount t = activeSensorCount s' /\
  sensorsConfigured t = true.
Proof.
  intros Hlen H. apply scan_outcome in H; [|exact Hlen].
  destruct H as [[H _]|[[H _]|[_ [c [pos [-> [Hp [Hinv _]]]]]]]]; try discriminate.
  destruct Hinv as [Hc [Hl [_ Hd]]].
  split; [reflexivity|].
  cbn [activeSensorCount set_sensorsConfigured saveSensorConfig EEPROM_commit set_eeprom
       sensorConfig flash].
  split; [lia|].
  apply (load_saved c); auto; try lia.
  rewrite Hc, Nat2Z.id. exact Hd.
Qed.

Lemma completed_setup_survives_restart_witness :
  exists s',
    scanAndIdentifySensors guided_world (boot blank_rom) = Done (SetupComplete, s') /\
    activeSensorCount (fst (loadSensorConfig (boot (flash s')))) = 2 /\
    sensorsConfigured (fst (loadSensorConfig (boot (flash s')))) = true.
Proof.
  eexists. split; [vm_compute; reflexivity|].
  edestruct (completed_setup_survives_restart guided_world (boot blank_rom))
    as [_ [_ [_ [H2 H3]]]].
  - reflexivity.
  - vm_compute. reflexivity.
  - split; [rewrite H2; reflexivity|exact H3].
Defined.

Lemma distinct_slots_bounded (allSensors : list DeviceAddress) (pos : nat) (c : machine) :
  setup_inv allSensors pos c -> (pos <= List.length allSensors)%nat.
Proof.
  intros [_ [_ [Hin Hd]]].
  rewrite <- (length_seq pos 0), <- (length_map (slot c)).
  apply NoDup_incl_length.
  - apply (NoDup_nth _ zero_address). intros i j Hi Hj E.
    rewrite length_map, length_seq in Hi, Hj.
    rewrite !nth_map_seq in E by assumption. simpl in E.
    destruct (Nat.lt_trichotomy i j) as [Hlt|[Heq|Hgt]]; [|exact Heq|].
    + exfalso. apply (Hd i j); [lia|exact E].
    + exfalso. apply (Hd j i); [lia|]. now symmetry.
  - intros a Ha. apply in_map_iff in Ha. destruct Ha as [k [<- Hk]].
    apply in_seq in Hk. apply Hin. lia.
Qed.

(** X4.  After a completed setup every active slot holds the address of an
    enumerated device, and the active count is at most the number of devices
    on the bus (and at most 16, the size of the candidate array). *)
Theorem setup_uses_enumerated_devices (w : world) (s s' : machine) :
  List.length (sensorConfig s) = 10%nat ->
  scanAndIdentifySensors w s = Done (SetupComplete, s') ->
  (forall k, (k < Z.to_nat (activeSensorCount s'))%nat -> In (slot s' k) (devices w)) /\
  activeSensorCount s' <= Z.of_nat (Nat.min 16 (List.length (devices w))).
Proof.
  intros Hlen H. apply scan_outcome in H; [|exact Hlen].
  destruct H as [[H _]|[[H _]|[_ [c [pos [-> [Hp [Hinv _]]]]]]]]; try discriminate.
  pose proof (distinct_slots_bounded _ _ _ Hinv) as Hb.
  rewrite length_firstn in Hb.
  destruct Hinv as [Hc [Hl [Hin Hd]]].
  cbn [activeSensorCount set_sensorsConfigured saveSensorConfig EEPROM_commit set_eeprom].
  split.
  - intros k Hk. rewrite Hc, Nat2Z.id in Hk.
    apply In_firstn with (n := 16%nat). exact (Hin k Hk).
  - rewrite Hc. lia.
Qed.

Lemma setup_uses_enumerated_devices_witness :
  exists s',
    scanAndIdentifySensors guided_world (boot blank_rom) = Done (SetupComplete, s') /\
    activeSensorCount s' <= 3.
Proof.
  eexists. split; [vm_compute; reflexivity|].
  edestruct (setup_uses_enumerated_devices guided_world (boot blank_rom)) as [_ H].
  - reflexivity.
  - vm_compute. reflexivity.
  - exact H.
Defined.

(** X5.  While position [pos] is being assigned, the first touched candidate
    of a pass, when its address is in no slot below [pos], takes the slot:
    its address goes into slot [pos], the active count becomes [pos + 1], its
    baseline becomes its current reading, the candidates behind it are not
    looked at, and the wait ends. *)
Theorem fresh_touch_assigned (pos : nat) (allSensors : list DeviceAddress)
    (n : nat) (p : poll) (rest : list poll) (st : waiting) (i : nat) :
  activeSensorCount (w_machine st) = Z.of_nat pos ->
  (pos < 10)%nat ->
  u32 (clock p - w_waitStart st) < POSITION_TIMEOUT_MS ->
  save_held p = false ->
  (i < n)%nat ->
  touched (getTempC p i) (nth i (w_baselines st) fzero) = true ->
  (forall k, (k < pos)%nat -> nth i allSensors zero_address <> slot (w_machine st) k) ->
  (forall k, (k < i)%nat -> untouched p (w_baselines st) k) ->
  wait_for_position pos allSensors n (p :: rest) st
  = Done (SensorFound,
          {| w_machine :=
               set_activeSensorCount (Z.of_nat pos + 1)
                 (assign_slot pos (nth i allSensors zero_address) (w_machine st));
             w_baselines := set_nth i (getTempC p i) (w_baselines st);
             w_waitStart := w_waitStart st;
             w_sensorFound := true |}).
Proof.
  intros Hcount Hpos Hin Hheld Hi Ht Hfresh Hbefore.
  cbn [wait_for_position]. apply Z.ltb_lt in Hin. rewrite Hin, Hheld.
  assert (Hd : isDuplicateSensor (w_machine st) (nth i allSensors zero_address) pos = false).
  { destruct (isDuplicateSensor _ _ _) eqn:E; [|reflexivity].
    apply isDuplicateSensor_true in E. destruct E as [k [Hk [_ E]]].
    exfalso. exact (Hfresh k Hk E). }
  replace n with (i + S (n - S i))%nat by lia.
  rewrite scan_for_touch_skip by (intros k' Hk'; apply Hbefore; lia).
  cbn [Nat.add scan_for_touch]. rewrite Ht, Hd. cbn [w_sensorFound].
  rewrite Hcount. unfold u8.
  rewrite Z.mod_small by (change (2 ^ 8) with 256; lia). reflexivity.
Qed.

Lemma fresh_touch_assigned_witness :
  wait_for_position 2 [probe_A; probe_B; probe_C] 3
    [pass 500 [f20_0; f20_0; f22_0]] rejected_example
  = Done (SensorFound,
          {| w_machine :=
               set_activeSensorCount 3 (assign_slot 2 probe_C two_probe_machine);
             w_baselines := [f20_0; f20_0; f22_0];
             w_waitStart := 0;
             w_sensorFound := true |}).
Proof.
  apply (fresh_touch_assigned 2 [probe_A; probe_B; probe_C] 3
           (pass 500 [f20_0; f20_0; f22_0]) [] rejected_example 2).
  - reflexivity.
  - lia.
  - reflexivity.
  - reflexivity.
  - lia.
  - reflexivity.
  - intros k Hk. destruct k as [|[|k]]; [discriminate|discriminate|lia].
  - intros k Hk. destruct k as [|[|k]]; [reflexivity|reflexivity|lia].
Defined.

(** ** Device name and transmitter settings *)

Lemma u16_round_trip (v : Z) : 0 <= v < 65536 -> u16_of_bytes (bytes_of_u16 v) = v.
Proof.
  intro H. unfold u16_of_bytes, bytes_of_u16. cbn [nth].
  rewrite !Z_of_byte_of_Z.
  - pose proof (Z.div_mod v 256). lia.
  - split; [apply Z.div_pos; lia|apply Z.div_lt_upper_bound; lia].
  - apply Z.mod_pos_bound. lia.
Qed.

Lemma u16_of_bytes_range (l : list byte) : 0 <= u16_of_bytes l < 65536.
Proof.
  unfold u16_of_bytes.
  pose proof (Z_of_byte_range (nth 0 l x00)).
  pose proof (Z_of_byte_range (nth 1 l x00)). lia.
Qed.

Lemma strncpy_length (n : nat) : forall src, List.length (strncpy n src) = n.
Proof.
  induction n as [|n IH]; intro src; [reflexivity|].
  cbn [strncpy]. destruct src as [|c r]; [apply repeat_length|].
  destruct (Byte.eqb c x00); [apply repeat_length|].
  simpl. now rewrite IH.
Qed.

Lemma c_string_zeros (k : nat) (l : list byte) : c_string (repeat x00 (S k) ++ l) = [].
Proof. reflexivity. Qed.

(** [strncpy] and the terminator behind it keep the string, cut to [n]. *)
Lemma c_string_strncpy (n : nat) :
  forall src, c_string (strncpy n src ++ [x00]) = firstn n (c_string src).
Proof.
  induction n as [|n IH]; intro src.
  - reflexivity.
  - cbn [strncpy]. destruct src as [|c r]; [reflexivity|].
    cbn [c_string]. destruct (Byte.eqb c x00) eqn:E; [reflexivity|].
    cbn [app c_string firstn]. rewrite E, IH. reflexivity.
Qed.

Lemma c_string_length_le (l : list byte) :
  forall k, (k < List.length l)%nat -> nth k l x00 = x00 ->
            (List.length (c_string l) <= k)%nat.
Proof.
  induction l as [|c r IH]; intros k Hk Hn; simpl in *; [lia|].
  destruct (Byte.eqb c x00) eqn:E; [simpl; lia|].
  destruct k as [|k].
  - subst c. discriminate.
  - simpl. specialize (IH k ltac:(lia) Hn). lia.
Qed.

Lemma printable_strncpy (n : nat) :
  forall src, printable_until_nul src = true ->
              printable_until_nul (strncpy n src ++ [x00]) = true.
Proof.
  induction n as [|n IH]; intros src H.
  - reflexivity.
  - cbn [strncpy]. destruct src as [|c r]; [reflexivity|].
    cbn [printable_until_nul] in H.
    destruct (Byte.eqb c x00) eqn:E; [reflexivity|].
    cbn [app printable_until_nul]. rewrite E.
    destruct ((Z_of_byte c <? 32) || (126 <? Z_of_byte c)); [discriminate|].
    apply IH. exact H.
Qed.

Lemma nth_app_last {A : Type} (l : list A) (x d : A) :
  nth (List.length l) (l ++ [x]) d = x.
Proof. rewrite app_nth2 by lia. now rewrite Nat.sub_diag. Qed.

Lemma loaded_name_ok (tempName : list byte) :
  printable_until_nul tempName = true ->
  name_ok (strncpy (MAX_DEVICE_NAME_LENGTH - 1) tempName ++ [x00]).
Proof.
  intro H. unfold MAX_DEVICE_NAME_LENGTH. cbn [Nat.sub]. split; [|split].
  - rewrite length_app, strncpy_length. reflexivity.
  - rewrite <- (strncpy_length 31 tempName) at 1. apply nth_app_last.
  - apply printable_strncpy. exact H.
Qed.

Lemma saved_name_read_back (deviceName : list byte) (s : machine) :
  List.length deviceName = 32%nat ->
  EEPROM_get EEPROM_NAME_ADDR MAX_DEVICE_NAME_LENGTH
    (flash (saveDeviceName deviceName s)) = deviceName.
Proof.
  intro Hlen. unfold saveDeviceName, MAX_DEVICE_NAME_LENGTH.
  cbn [flash eeprom EEPROM_commit set_eeprom].
  rewrite <- Hlen. apply EEPROM_get_put_same.
  rewrite Hlen. unfold EEPROM_NAME_ADDR, EEPROM_SIZE. lia.
Qed.

(** X6.  A device name that [loadDeviceName] accepts (first byte neither 0
    nor 255, bytes 32..126 up to the terminator) comes back after a restart:
    the loaded array holds the same C string as the saved one. *)
Theorem device_name_round_trip (deviceName other : list byte) (s : machine) :
  List.length deviceName = 32%nat ->
  nth 31 deviceName x00 = x00 ->
  stored_name_valid deviceName = true ->
  let loaded := loadDeviceName other (boot (flash (saveDeviceName deviceName s))) in
  c_string loaded = c_string deviceName /\ name_ok loaded.
Proof.
  intros Hlen Hnul Hvalid. unfold loadDeviceName.
  change (eeprom (boot ?r)) with r.
  rewrite saved_name_read_back by exact Hlen. rewrite Hvalid.
  split.
  - rewrite c_string_strncpy. apply firstn_all2.
    unfold MAX_DEVICE_NAME_LENGTH. cbn [Nat.sub].
    apply c_string_length_le; [lia|exact Hnul].
  - apply loaded_name_ok. unfold stored_name_valid in Hvalid.
    destruct ((_ =? 0) || (_ =? 255)); [discriminate|exact Hvalid].
Qed.

Lemma device_name_round_trip_witness :
  c_string (loadDeviceName default_deviceName
              (boot (flash (saveDeviceName garage_name (boot blank_rom)))))
  = name_bytes "Trailer 7".
Proof.
  destruct (device_name_round_trip garage_name default_deviceName (boot blank_rom))
    as [H _].
  - reflexivity.
  - reflexivity.
  - reflexivity.
  - rewrite H. reflexivity.
Defined.

(** X7.  A stored name that is empty, starts with byte 255, or has a byte
    outside 32..126 in front of its terminator is not taken over at start:
    [deviceName] keeps the content it had. *)
Theorem invalid_name_not_restored (deviceName other : list byte) (s : machine) :
  List.length deviceName = 32%nat ->
  (nth 0 deviceName x00 = x00 \/ nth 0 deviceName x00 = xff \/
   exists k, (k < List.length (c_string deviceName))%nat /\
             (Z_of_byte (nth k deviceName x00) < 32 \/
              126 < Z_of_byte (nth k deviceName x00))) ->
  loadDeviceName other (boot (flash (saveDeviceName deviceName s))) = other.
Proof.
  intros Hlen Hbad. unfold loadDeviceName.
  change (eeprom (boot ?r)) with r.
  rewrite saved_name_read_back by exact Hlen.
  assert (Hinv : stored_name_valid deviceName = false).
  { unfold stored_name_valid.
    destruct Hbad as [H|[H|[k [Hk Hc]]]]; try (rewrite H; reflexivity).
    destruct ((_ =? 0) || (_ =? 255)); [reflexivity|].
    clear Hlen. revert k Hk Hc.
    induction deviceName as [|c r IH]; intros k Hk Hc; simpl in Hk; [lia|].
    cbn [printable_until_nul]. cbn [c_string] in Hk.
    destruct (Byte.eqb c x00) eqn:E; [simpl in Hk; lia|].
    destruct k as [|k].
    - cbn [nth] in Hc.
      assert (((Z_of_byte c <? 32) || (126 <? Z_of_byte c)) = true) as ->.
      { apply orb_true_iff. destruct Hc; [left|right]; apply Z.ltb_lt; lia. }
      reflexivity.
    - destruct ((Z_of_byte c <? 32) || (126 <? Z_of_byte c)); [reflexivity|].
      apply (IH k); [simpl in Hk; lia|exact Hc]. }
  now rewrite Hinv.
Qed.

Lemma invalid_name_not_restored_witness :
  loadDeviceName default_deviceName
    (boot (flash (saveDeviceName tabbed_name (boot blank_rom))))
  = default_deviceName.
Proof.
  apply (invalid_name_not_restored tabbed_name default_deviceName (boot blank_rom)).
  - reflexivity.
  - right. right. exists 4%nat. split; [vm_compute; lia|left; vm_compute; reflexivity].
Defined.

Lemma saved_transmitter_read_back (s : machine) :
  0 <= transmitterID s < 65536 ->
  let m := flash (saveTransmitterConfig s) in
  u16_of_bytes (EEPROM_get EEPROM_TRANSMITTER_ID_ADDR 2 m) = transmitterID s /\
  nth 0 (EEPROM_get EEPROM_POWER_MODE_ADDR 1 m) x00
  = (if powerSaveMode s then x01 else x00).
Proof.
  intros Hid m. subst m. unfold saveTransmitterConfig.
  cbn [flash eeprom EEPROM_commit set_eeprom].
  unfold EEPROM_TRANSMITTER_ID_ADDR, EEPROM_POWER_MODE_ADDR. split.
  - rewrite EEPROM_get_put_other by (simpl; lia).
    rewrite (EEPROM_get_put_same 120 (bytes_of_u16 (transmitterID s)))
      by (simpl; unfold EEPROM_SIZE; lia).
    apply u16_round_trip. exact Hid.
  - rewrite (EEPROM_get_put_same 122 [if powerSaveMode s then x01 else x00])
      by (simpl; unfold EEPROM_SIZE; lia).
    reflexivity.
Qed.

(** X8.  The transmitter settings come back after a restart, except the
    identity 65535: it is read as "no identity stored" and replaced by 1.
    The power-save flag always comes back, in either build. *)
Theorem transmitter_config_round_trip (build : bool_reading) (s : machine) :
  0 <= transmitterID s < 65536 ->
  let t := loadTransmitterConfig build (boot (flash (saveTransmitterConfig s))) in
  transmitterID t = (if transmitterID s =? 65535 then 1 else transmitterID s) /\
  powerSaveMode t = powerSaveMode s.
Proof.
  intro Hid. destruct (saved_transmitter_read_back s Hid) as [H1 H2].
  unfold loadTransmitterConfig. change (eeprom (boot ?r)) with r.
  rewrite H1, H2. change 0xFFFF with 65535.
  destruct (transmitterID s =? 65535); destruct (powerSaveMode s); split; reflexivity.
Qed.

Lemma transmitter_config_round_trip_witness :
  let t := loadTransmitterConfig TrustBool
             (boot (flash (saveTransmitterConfig
                             (set_powerSaveMode true (set_transmitterID 65535 (boot blank_rom)))))) in
  transmitterID t = 1 /\ powerSaveMode t = true.
Proof.
  apply (transmitter_config_round_trip TrustBool
           (set_powerSaveMode true (set_transmitterID 65535 (boot blank_rom)))).
  simpl. lia.
Defined.



Lemma config_of_bytes_length (l : list byte) :
  List.length (config_of_bytes l) = 10%nat.
Proof. unfold config_of_bytes. now rewrite length_map, length_seq. Qed.

Lemma default_name_ok : name_ok default_deviceName.
Proof. repeat split. Qed.

Lemma loadDeviceName_ok (deviceName : list byte) (s : machine) :
  name_ok deviceName -> name_ok (loadDeviceName deviceName s).
Proof.
  intro H. unfold loadDeviceName.
  destruct (stored_name_valid _) eqn:E; [|exact H].
  apply loaded_name_ok. unfold stored_name_valid in E.
  destruct ((_ =? 0) || (_ =? 255)); [discriminate|exact E].
Qed.

(** X9.  Whatever the EEPROM holds and whichever build reads it, the three
    loads of [setup()] leave the device in good order: ten slots, an active count from 1 to 10, pairwise
    distinct active slots whenever it is marked configured, a transmitter
    identity from 0 to 65534, and a printable, terminated device name. *)
Theorem boot_state_valid (build : bool_reading) (rom : store) :
  let s := fst (setup_loads build rom) in
  List.length (sensorConfig s) = 10%nat /\
  1 <= activeSensorCount s <= 10 /\
  (sensorsConfigured s = true ->
   forall i j, (i < j < Z.to_nat (activeSensorCount s))%nat -> slot s i <> slot s j) /\
  0 <= transmitterID s < 65535 /\
  name_ok (snd (setup_loads build rom)).
Proof.
  unfold setup_loads. cbn [fst snd].
  assert (Hload :
    let s := fst (loadSensorConfig (boot rom)) in
    List.length (sensorConfig s) = 10%nat /\
    1 <= activeSensorCount s <= 10 /\
    (sensorsConfigured s = true ->
     forall i j, (i < j < Z.to_nat (activeSensorCount s))%nat -> slot s i <> slot s j)).
  { unfold loadSensorConfig. change (eeprom (boot rom)) with rom.
    destruct (stored_magic rom =? EEPROM_MAGIC).
    - change (activeSensorCount (read_stored (boot rom))) with (stored_count rom).
      destruct (stored_count rom <? 1) eqn:E1.
      + cbn [orb fst]. split; [apply config_of_bytes_length|].
        split; [simpl; lia|]. discriminate.
      + destruct (MAX_SENSOR_COUNT <? stored_count rom) eqn:E2.
        * cbn [orb fst]. split; [apply config_of_bytes_length|].
          split; [simpl; lia|]. discriminate.
        * cbn [orb]. apply Z.ltb_ge in E1, E2. unfold MAX_SENSOR_COUNT in E2.
          destruct (first_collision (read_stored (boot rom))) as [[a b]|] eqn:E;
            cbn [fst].
          -- split; [apply config_of_bytes_length|].
             split; [exact (conj E1 E2)|]. discriminate.
          -- split; [apply config_of_bytes_length|].
             split; [exact (conj E1 E2)|]. intros _.
             exact (proj1 (first_collision_none _) E).
    - cbn [fst]. split; [reflexivity|]. split; [simpl; lia|]. discriminate. }
  destruct Hload as [H1 [H2 H3]].
  set (s := fst (loadSensorConfig (boot rom))) in *.
  assert (Hframe : sensorConfig (loadTransmitterConfig build s) = sensorConfig s /\
                   activeSensorCount (loadTransmitterConfig build s) = activeSensorCount s /\
                   sensorsConfigured (loadTransmitterConfig build s) = sensorsConfigured s).
  { unfold loadTransmitterConfig.
    destruct (negb _); destruct ((_ =? 0) || (_ =? 1)); destruct build; repeat split. }
  destruct Hframe as [F1 [F2 F3]]. unfold slot. rewrite F1, F2, F3.
  split; [exact H1|]. split; [exact H2|]. split; [exact H3|]. split.
  - unfold loadTransmitterConfig.
    pose proof (u16_of_bytes_range (EEPROM_get EEPROM_TRANSMITTER_ID_ADDR 2 (eeprom s))) as Hr.
    destruct (u16_of_bytes _ =? 0xFFFF) eqn:E; cbn [negb].
    + destruct ((_ =? 0) || (_ =? 1)); destruct build; simpl; lia.
    + apply Z.eqb_neq in E. change 0xFFFF with 65535 in E.
      destruct ((_ =? 0) || (_ =? 1)); destruct build; simpl; lia.
  - apply loadDeviceName_ok, default_name_ok.
Qed.

(** ** The regions of the EEPROM *)

Lemma first_collision_ext (s t : machine) :
  sensorConfig s = sensorConfig t ->
  activeSensorCount s = activeSensorCount t ->
  first_collision s = first_collision t.
Proof.
  intros H1 H2. unfold first_collision, slot. now rewrite H1, H2.
Qed.

Lemma listing_ext (s t : machine) :
  sensorConfig s = sensorConfig t ->
  activeSensorCount s = activeSensorCount t ->
  listing s = listing t.
Proof.
  intros H1 H2. unfold listing, slot. now rewrite H1, H2.
Qed.

(** Two stores with the same sensor record are loaded alike. *)
Lemma loadSensorConfig_ext (r1 r2 : store) :
  stored_magic r1 = stored_magic r2 ->
  stored_config r1 = stored_config r2 ->
  stored_count r1 = stored_count r2 ->
  let a := loadSensorConfig (boot r1) in
  let b := loadSensorConfig (boot r2) in
  sensorConfig (fst a) = sensorConfig (fst b) /\
  activeSensorCount (fst a) = activeSensorCount (fst b) /\
  sensorsConfigured (fst a) = sensorsConfigured (fst b) /\
  snd a = snd b.
Proof.
  intros Hm Hc Hn. unfold loadSensorConfig.
  change (eeprom (boot r1)) with r1. change (eeprom (boot r2)) with r2.
  rewrite Hm.
  destruct (stored_magic r2 =? EEPROM_MAGIC); [|repeat split].
  assert (E1 : sensorConfig (read_stored (boot r1)) = sensorConfig (read_stored (boot r2)))
    by exact Hc.
  assert (E2 : activeSensorCount (read_stored (boot r1))
               = activeSensorCount (read_stored (boot r2))) by exact Hn.
  rewrite E2.
  destruct ((activeSensorCount (read_stored (boot r2)) <? 1)
            || (MAX_SENSOR_COUNT <? activeSensorCount (read_stored (boot r2)))).
  - cbn [fst snd]. repeat split. exact E1.
  - rewrite (first_collision_ext _ _ E1 E2), (listing_ext _ _ E1 E2).
    destruct (first_collision (read_stored (boot r2))) as [[i j]|];
      cbn [fst snd]; repeat split; assumption.
Qed.

Lemma sensor_record_untouched (address : nat) (bs : list byte) (m : store) :
  (85 <= address)%nat ->
  stored_magic (EEPROM_put address bs m) = stored_magic m /\
  stored_config (EEPROM_put address bs m) = stored_config m /\
  stored_count (EEPROM_put address bs m) = stored_count m.
Proof.
  intro H. unfold stored_magic, stored_config, stored_count,
    EEPROM_MAGIC_ADDR, EEPROM_SENSOR_ADDR, EEPROM_SENSOR_COUNT_ADDR.
  rewrite !EEPROM_get_put_other by lia. repeat split.
Qed.

(** X10.  Saving the device name and the transmitter settings leaves the
    sensor record alone: after a restart the sensor configuration is loaded
    exactly as it would have been without those saves, with the same report. *)
Theorem settings_leave_sensor_record (deviceName : list byte) (s : machine) :
  let a := loadSensorConfig
             (boot (flash (saveTransmitterConfig (saveDeviceName deviceName s)))) in
  let b := loadSensorConfig (boot (eeprom s)) in
  sensorConfig (fst a) = sensorConfig (fst b) /\
  activeSensorCount (fst a) = activeSensorCount (fst b) /\
  sensorsConfigured (fst a) = sensorsConfigured (fst b) /\
  snd a = snd b.
Proof.
  assert (H1 : (85 <= 122)%nat) by lia.
  assert (H2 : (85 <= 120)%nat) by lia.
  assert (H3 : (85 <= 88)%nat) by lia.
  apply loadSensorConfig_ext;
    unfold saveTransmitterConfig, saveDeviceName;
    cbn [flash eeprom EEPROM_commit set_eeprom transmitterID powerSaveMode];
    unfold EEPROM_POWER_MODE_ADDR, EEPROM_TRANSMITTER_ID_ADDR, EEPROM_NAME_ADDR.
  - rewrite (proj1 (sensor_record_untouched 122 _ _ H1)).
    rewrite (proj1 (sensor_record_untouched 120 _ _ H2)).
    now rewrite (proj1 (sensor_record_untouched 88 _ _ H3)).
  - rewrite (proj1 (proj2 (sensor_record_untouched 122 _ _ H1))).
    rewrite (proj1 (proj2 (sensor_record_untouched 120 _ _ H2))).
    now rewrite (proj1 (proj2 (sensor_record_untouched 88 _ _ H3))).
  - rewrite (proj2 (proj2 (sensor_record_untouched 122 _ _ H1))).
    rewrite (proj2 (proj2 (sensor_record_untouched 120 _ _ H2))).
    now rewrite (proj2 (proj2 (sensor_record_untouched 88 _ _ H3))).
Qed.

(** X11.  Saving the sensor configuration of a device with its ten slots
    leaves the name and the transmitter settings alone: after a restart they
    are loaded, by either build, as they would have been without that
    save. *)
Theorem sensor_save_leaves_settings (build : bool_reading) (deviceName : list byte)
    (s : machine) :
  List.length (sensorConfig s) = 10%nat ->
  let t := boot (flash (saveSensorConfig s)) in
  let u := boot (eeprom s) in
  loadDeviceName deviceName t = loadDeviceName deviceName u /\
  transmitterID (loadTransmitterConfig build t)
  = transmitterID (loadTransmitterConfig build u) /\
  powerSaveMode (loadTransmitterConfig build t)
  = powerSaveMode (loadTransmitterConfig build u).
Proof.
  intros Hlen t u.
  pose proof (config_bytes_length (sensorConfig s)) as Hcl. rewrite Hlen in Hcl.
  assert (Hget : forall a n, (85 <= a)%nat ->
            EEPROM_get a n (eeprom t) = EEPROM_get a n (eeprom u)).
  { intros a n Ha. subst t u. unfold saveSensorConfig.
    cbn [flash eeprom EEPROM_commit set_eeprom boot].
    unfold EEPROM_SENSOR_COUNT_ADDR, EEPROM_SENSOR_ADDR, EEPROM_MAGIC_ADDR.
    rewrite !EEPROM_get_put_other by (rewrite ?Hcl; simpl; lia). reflexivity. }
  unfold loadDeviceName, loadTransmitterConfig,
    EEPROM_NAME_ADDR, EEPROM_TRANSMITTER_ID_ADDR, EEPROM_POWER_MODE_ADDR.
  rewrite !Hget by lia.
  split; [reflexivity|].
  destruct (negb _); destruct ((_ =? 0) || (_ =? 1)); destruct build; split; reflexivity.
Qed.

Lemma sensor_save_leaves_settings_witness :
  loadDeviceName default_deviceName (boot (flash (saveSensorConfig two_probe_machine)))
  = loadDeviceName default_deviceName (boot blank_rom).
Proof.
  destruct (sensor_save_leaves_settings TrustBool default_deviceName two_probe_machine)
    as [H _].
  - reflexivity.
  - exact H.
Defined.

(** ** Settings over the web interface *)

Lemma printable_not_nul (c : byte) : printable c = true -> Byte.eqb c x00 = false.
Proof.
  intro H. destruct (Byte.eqb c x00) eqn:E; [|reflexivity].
  apply Byte.byte_dec_bl in E. subst c. discriminate.
Qed.

Lemma printable_string (l : list byte) :
  forallb printable l = true -> printable_until_nul l = true /\ c_string l = l.
Proof.
  induction l as [|c r IH]; intro H; [split; reflexivity|].
  cbn [forallb] in H. apply andb_true_iff in H. destruct H as [Hc Hr].
  cbn [printable_until_nul c_string]. rewrite (printable_not_nul c Hc).
  unfold printable in Hc. apply andb_true_iff in Hc. destruct Hc as [H1 H2].
  apply Z.leb_le in H1, H2.
  assert (((Z_of_byte c <? 32) || (126 <? Z_of_byte c)) = false) as ->.
  { apply orb_false_iff. split; apply Z.ltb_ge; lia. }
  destruct (IH Hr) as [IH1 IH2]. split; [exact IH1|now rewrite IH2].
Qed.

(** X12.  A configuration request with a non-empty printable name, an
    identity from 0 to 65534 and a power-save flag is in force after a
    restart: the name comes back cut to 31 characters, the identity and the
    flag as sent. *)
Theorem posted_settings_survive_restart (build : bool_reading) (newName : list byte)
    (newID : Z) (newPowerMode : bool) (s : machine) (deviceName : list byte) :
  newName <> [] ->
  forallb printable newName = true ->
  0 <= newID < 65535 ->
  let req := {| req_name := Some newName;
                req_transmitterID := Some newID;
                req_powerSaveMode := Some newPowerMode |} in
  let t := boot (flash (fst (handleApiConfigPost req (s, deviceName)))) in
  c_string (loadDeviceName default_deviceName t) = firstn 31 newName /\
  transmitterID (loadTransmitterConfig build t) = newID /\
  powerSaveMode (loadTransmitterConfig build t) = newPowerMode /\
  c_string (snd (handleApiConfigPost req (s, deviceName))) = firstn 31 newName.
Proof.
  intros Hne Hp Hid req t.
  destruct (printable_string newName Hp) as [Hpr Hcs].
  set (d := strncpy (MAX_DEVICE_NAME_LENGTH - 1) newName ++ [x00]).
  assert (Hd : name_ok d) by (apply loaded_name_ok; exact Hpr).
  assert (Hdc : c_string d = firstn 31 newName).
  { unfold d. rewrite c_string_strncpy, Hcs. reflexivity. }
  set (s1 := set_powerSaveMode newPowerMode
               (set_transmitterID newID (saveDeviceName d s))).
  assert (Hpost : handleApiConfigPost req (s, deviceName) = (saveTransmitterConfig s1, d))
    by reflexivity.
  subst t. rewrite Hpost. cbn [fst snd].
  assert (Hid1 : 0 <= transmitterID s1 < 65536) by (simpl; lia).
  destruct (saved_transmitter_read_back s1 Hid1) as [H1 H2].
  split; [|split; [|split]].
  - unfold loadDeviceName. change (eeprom (boot ?r)) with r.
    assert (Hget : EEPROM_get EEPROM_NAME_ADDR MAX_DEVICE_NAME_LENGTH
                     (flash (saveTransmitterConfig s1)) = d).
    { unfold saveTransmitterConfig. cbn [flash eeprom EEPROM_commit set_eeprom].
      unfold EEPROM_POWER_MODE_ADDR, EEPROM_TRANSMITTER_ID_ADDR.
      rewrite !EEPROM_get_put_other
        by (unfold EEPROM_NAME_ADDR, MAX_DEVICE_NAME_LENGTH; simpl; lia).
      change (eeprom s1) with (flash (saveDeviceName d s)).
      apply saved_name_read_back. apply Hd. }
    rewrite Hget.
    assert (Hvalid : stored_name_valid d = true).
    { unfold stored_name_valid.
      destruct newName as [|c r]; [congruence|].
      cbn [forallb] in Hp. apply andb_true_iff in Hp. destruct Hp as [Hc _].
      assert (Hfirst : nth 0 d x00 = c).
      { unfold d, MAX_DEVICE_NAME_LENGTH. cbn [Nat.sub strncpy].
        now rewrite (printable_not_nul c Hc). }
      rewrite Hfirst. unfold printable in Hc. apply andb_true_iff in Hc.
      destruct Hc as [Hc1 Hc2]. apply Z.leb_le in Hc1, Hc2.
      assert ((Z_of_byte c =? 0) = false) as -> by (apply Z.eqb_neq; lia).
      assert ((Z_of_byte c =? 255) = false) as -> by (apply Z.eqb_neq; lia).
      cbn [orb]. destruct Hd as [_ [_ Hd]]. exact Hd. }
    rewrite Hvalid, c_string_strncpy, Hdc.
    unfold MAX_DEVICE_NAME_LENGTH. cbn [Nat.sub].
    apply firstn_all2. rewrite length_firstn. lia.
  - unfold loadTransmitterConfig. change (eeprom (boot ?r)) with r.
    rewrite H1, H2. change (transmitterID s1) with newID. change 0xFFFF with 65535.
    assert ((newID =? 65535) = false) as -> by (apply Z.eqb_neq; lia).
    cbn [negb]. destruct (powerSaveMode s1); reflexivity.
  - unfold loadTransmitterConfig. change (eeprom (boot ?r)) with r.
    rewrite H1, H2. change (powerSaveMode s1) with newPowerMode.
    destruct (negb _); destruct newPowerMode; reflexivity.
  - exact Hdc.
Qed.

Lemma posted_settings_survive_restart_witness :
  let req := {| req_name := Some (name_bytes "Trailer 7");
                req_transmitterID := Some 42;
                req_powerSaveMode := Some true |} in
  let t := boot (flash (fst (handleApiConfigPost req (boot blank_rom, default_deviceName)))) in
  c_string (loadDeviceName default_deviceName t) = name_bytes "Trailer 7" /\
  transmitterID (loadTransmitterConfig TrustBool t) = 42 /\
  powerSaveMode (loadTransmitterConfig TrustBool t) = true.
Proof.
  destruct (posted_settings_survive_restart TrustBool (name_bytes "Trailer 7") 42 true
              (boot blank_rom) default_deviceName) as [H1 [H2 [H3 _]]].
  - discriminate.
  - reflexivity.
  - lia.
  - split; [rewrite H1; reflexivity|]. split; [exact H2|exact H3].
Defined.

(** ** The serial log *)

Lemma mod_100_neq (a b : nat) :
  (a < b)%nat -> (b < a + 100)%nat -> (a mod 100 <> b mod 100)%nat.
Proof.
  intros H1 H2 E.
  pose proof (Nat.div_mod_eq a 100). pose proof (Nat.div_mod_eq b 100).
  pose proof (Nat.mod_upper_bound a 100 ltac:(lia)).
  assert (a / 100 < b / 100 \/ b / 100 <= a / 100)%nat as [Hlt|Hge] by lia; nia.
Qed.

Lemma to_nat_mod_100 (k : nat) : Z.to_nat (Z.of_nat k mod 100) = (k mod 100)%nat.
Proof.
  rewrite <- (Nat2Z.id (k mod 100)). f_equal. rewrite Nat2Z.inj_mod. reflexivity.
Qed.

Lemma ring_inv_step (l : list SerialLogEntry) (b : serial_log) (e : SerialLogEntry) :
  ring_inv l b -> ring_inv (l ++ [e]) (logToSerial e b).
Proof.
  intros [Hlen [Hidx [Hcnt Hcell]]].
  unfold ring_inv, logToSerial, SERIAL_BUFFER_SIZE.
  cbn [serialBuffer serialBufferIndex serialBufferCount].
  rewrite length_app. cbn [List.length].
  pose proof (Z.mod_pos_bound (Z.of_nat (List.length l)) 100 ltac:(lia)) as Hb.
  split; [|split; [|split]].
  - now rewrite length_set_nth.
  - rewrite Hidx, Z.rem_mod_nonneg by lia.
    rewrite Zplus_mod_idemp_l. f_equal. lia.
  - rewrite Hcnt. destruct (Z.min (Z.of_nat (List.length l)) 100 <? 100) eqn:E.
    + apply Z.ltb_lt in E. lia.
    + apply Z.ltb_ge in E. lia.
  - intros j Hj Hj'. rewrite Hidx.
    assert (Hnat : Z.to_nat (Z.of_nat (List.length l) mod 100)
                   = (List.length l mod 100)%nat).
    { rewrite <- (Nat2Z.id (List.length l mod 100)). f_equal.
      rewrite Nat2Z.inj_mod. reflexivity. }
    rewrite Hnat.
    destruct (Nat.eq_dec j (List.length l)) as [->|Hne].
    + rewrite nth_set_nth_same
        by (rewrite Hlen; apply Nat.mod_upper_bound; lia).
      now rewrite nth_app_last.
    + rewrite nth_set_nth_other by (apply not_eq_sym, mod_100_neq; lia).
      rewrite app_nth1 by lia. apply Hcell; lia.
Qed.

Lemma ring_inv_log_all (l : list SerialLogEntry) : ring_inv l (log_all l).
Proof.
  induction l as [|e l IH] using rev_ind.
  - repeat split. intros j Hj. simpl in Hj. lia.
  - unfold log_all. rewrite fold_left_app. cbn [fold_left].
    apply ring_inv_step. exact IH.
Qed.

(** X13.  After any run of [logToSerial] calls, [getSerialLogs] goes
    through the last hundred entries (all of them when there are fewer), in
    the order they were logged. *)
Theorem serial_log_keeps_last_hundred (entries : list SerialLogEntry) :
  getSerialLogs (log_all entries) = skipn (List.length entries - 100) entries.
Proof.
  destruct (ring_inv_log_all entries) as [Hlen [Hidx [Hcnt Hcell]]].
  unfold getSerialLogs, SERIAL_BUFFER_SIZE. rewrite Hidx, Hcnt.
  set (len := List.length entries) in *.
  pose proof (Z.mod_pos_bound (Z.of_nat len) 100 ltac:(lia)) as Hb.
  assert (Hc : Z.to_nat (Z.min (Z.of_nat len) 100) = (len - (len - 100))%nat) by lia.
  rewrite Hc.
  assert (Hstart : Z.rem (Z.of_nat len mod 100 - Z.min (Z.of_nat len) 100 + 100) 100
                   = Z.of_nat (len - 100) mod 100).
  { rewrite Z.rem_mod_nonneg by lia.
    rewrite <- (Z_mod_plus_full _ (-1) 100).
    replace (Z.of_nat len mod 100 - Z.min (Z.of_nat len) 100 + 100 + -1 * 100)
      with (Z.of_nat len mod 100 - Z.min (Z.of_nat len) 100) by lia.
    rewrite Zminus_mod_idemp_l.
    destruct (Z.le_gt_cases (Z.of_nat len) 100) as [Hle|Hgt].
    - replace (len - 100)%nat with 0%nat by lia.
      rewrite Z.min_l by lia. rewrite Z.sub_diag. reflexivity.
    - rewrite Z.min_r by lia. f_equal. lia. }
  rewrite Hstart.
  apply (nth_ext _ _ empty_entry empty_entry).
  - rewrite length_map, length_seq, length_skipn. reflexivity.
  - intros i Hi. rewrite length_map, length_seq in Hi.
    rewrite nth_map_seq by exact Hi. rewrite nth_skipn. cbn [Nat.add].
    pose proof (Z.mod_pos_bound (Z.of_nat (len - 100)) 100 ltac:(lia)) as Hb2.
    rewrite Z.rem_mod_nonneg by lia.
    rewrite Zplus_mod_idemp_l.
    replace (Z.of_nat (len - 100) + Z.of_nat i) with (Z.of_nat (len - 100 + i)) by lia.
    rewrite to_nat_mod_100.
    apply Hcell; fold len; lia.
Qed.

(** ** The main loop *)

Lemma assign_positions_frame (allSensors : list DeviceAddress) (n : nat)
    (remaining : nat) :
  forall pos ws baselines s s',
    assign_positions remaining pos allSensors n ws baselines s = Done s' ->
    same_outside_config s s'.
Proof.
  induction remaining as [|k IH]; intros pos ws baselines s s' H;
    cbn [assign_positions] in H.
  - inversion H; subst. apply same_outside_config_refl.
  - destruct ws as [|w ws']; [discriminate|].
    destruct (wait_for_position _ _ _ _ _) as [[e st]| |] eqn:E; try discriminate.
    apply wait_for_position_cases in E; [|reflexivity]. cbn [w_machine] in E.
    destruct E as [[-> [a Ha]]|[Hne Hm]].
    + apply IH in H. eapply same_outside_config_trans; [|exact H].
      rewrite Ha. repeat split.
    + assert (Hs' : s' = s) by (destruct e; congruence).
      subst s'. apply same_outside_config_refl.
Qed.

(** What a setup attempt never touches, and when it marks the device
    configured. *)
Lemma scan_frame (w : world) (s : machine) (e : setup_exit) (s' : machine) :
  scanAndIdentifySensors w s = Done (e, s') ->
  lastTransmitTime s' = lastTransmitTime s /\
  transmitterID s' = transmitterID s /\
  powerSaveMode s' = powerSaveMode s /\
  latestData s' = latestData s /\
  totalPackets s' = totalPackets s /\
  radio s' = radio s /\
  asleep s' = asleep s /\
  (sensorsConfigured s' = sensorsConfigured s \/ e = SetupComplete).
Proof.
  unfold scanAndIdentifySensors. intro H.
  destruct (List.length (devices w) <? 1)%nat.
  { inversion H; subst. repeat split. now left. }
  destruct (findSensorByTouch _ _ _) as [[idx b']| |]; try discriminate.
  destruct (0 <=? idx).
  - destruct (assign_positions _ _ _ _ _ _ _) as [c| |] eqn:Ea; try discriminate.
    apply assign_positions_frame in Ea. unfold same_outside_config in Ea.
    cbn [sensorsConfigured lastTransmitTime transmitterID powerSaveMode latestData
         totalPackets eeprom flash radio asleep set_activeSensorCount assign_slot
         set_sensorConfig] in Ea.
    destruct Ea as [E1 [E2 [E3 [E4 [E5 [E6 [E7 [E8 [E9 E10]]]]]]]]].
    destruct (validateUniqueConfig c); inversion H; subst;
      cbn [sensorsConfigured lastTransmitTime transmitterID powerSaveMode latestData
           totalPackets radio asleep set_sensorsConfigured saveSensorConfig
           EEPROM_commit set_eeprom];
      repeat split; auto.
  - inversion H; subst. repeat split. now left.
Qed.

(** X14.  The transmit interval is measured correctly across the wrap of
    the 32-bit millisecond clock: for a configured device, a turn of [loop]
    is due exactly when 30000 ms or more have passed since the last
    transmission, wherever in the clock's range that one was. *)
Theorem transmit_interval_across_rollover (s : machine) (elapsed : Z) :
  sensorsConfigured s = true ->
  0 <= elapsed < 2 ^ 32 ->
  transmit_due (u32 (lastTransmitTime s + elapsed)) s
  = (TRANSMIT_INTERVAL_MS <=? elapsed).
Proof.
  intros Hc He. unfold transmit_due, u32. rewrite Hc. cbn [andb].
  rewrite Zminus_mod_idemp_l.
  replace (lastTransmitTime s + elapsed - lastTransmitTime s) with elapsed by lia.
  now rewrite Z.mod_small by exact He.
Qed.

Lemma transmit_interval_across_rollover_witness :
  transmit_due (u32 (4294960000 + 31000))
    (set_lastTransmitTime 4294960000 configured_machine) = true /\
  u32 (4294960000 + 31000) = 23704.
Proof.
  split; [|reflexivity].
  change (transmit_due
            (u32 (lastTransmitTime (set_lastTransmitTime 4294960000 configured_machine)
                  + 31000))
            (set_lastTransmitTime 4294960000 configured_machine)
          = (TRANSMIT_INTERVAL_MS <=? 31000)).
  apply (transmit_interval_across_rollover
           (set_lastTransmitTime 4294960000 configured_machine) 31000).
  - reflexivity.
  - simpl. lia.
Defined.

(** X15.  A device that is unconfigured at the end of a turn of [loop] has
    sent nothing in that turn and has not gone to sleep in it. *)
Theorem unconfigured_device_is_silent (io : loop_io) (s s' : machine) :
  loop io s = Done s' ->
  sensorsConfigured s' = false ->
  radio s' = radio s /\ totalPackets s' = totalPackets s /\ asleep s' = asleep s.
Proof.
  unfold loop. intros H Hu.
  assert (Hsetup : exists s1,
            (if setup_pressed io
             then match enterSetupMode (setup_world io) s with
                  | Done (_, s'0) => Done s'0
                  | OutOfBounds => OutOfBounds
                  | Pending => Pending
                  end
             else Done s) = Done s1 /\
            radio s1 = radio s /\ totalPackets s1 = totalPackets s /\
            asleep s1 = asleep s).
  { destruct (setup_pressed io).
    - unfold enterSetupMode in *.
      destruct (scanAndIdentifySensors (setup_world io) s) as [[e s1]| |] eqn:E;
        try discriminate.
      apply scan_frame in E. exists s1. split; [reflexivity|]. tauto.
    - exists s. repeat split. }
  destruct Hsetup as [s1 [E1 [R1 [R2 R3]]]]. rewrite E1 in H.
  unfold transmit_due in H.
  destruct (sensorsConfigured s1) eqn:Ec.
  - cbn [andb] in H.
    destruct (TRANSMIT_INTERVAL_MS <=? u32 (loop_millis io - lastTransmitTime s1)).
    + unfold readAndTransmitData in H.
      destruct (encode_packet _ _ _) as [packet|]; [|discriminate].
      exfalso. inversion H; subst s'. clear H.
      cbn [powerSaveMode set_lastTransmitTime LoRa_send set_latestData] in Hu.
      destruct (powerSaveMode s1);
        cbn [sensorsConfigured enterDeepSleep set_lastTransmitTime LoRa_send
             set_latestData] in Hu; congruence.
    + inversion H; subst. auto.
  - cbn [andb] in H. inversion H; subst. auto.
Qed.

Lemma unconfigured_device_is_silent_witness :
  loop due_turn (boot blank_rom) = Done (boot blank_rom) /\
  radio (boot blank_rom) = [].
Proof.
  destruct (unconfigured_device_is_silent due_turn (boot blank_rom) (boot blank_rom))
    as [H _].
  - reflexivity.
  - reflexivity.
  - split; [reflexivity|exact H].
Defined.

Lemma fill_readings {A : Type} (f : nat -> A) (d : A) (n : nat) :
  forall t,
    let t' := fold_left (fun t i => set_nth i (f i) t) (seq 0 n) t in
    List.length t' = List.length t /\
    (forall i, (i < n)%nat -> (i < List.length t)%nat -> nth i t' d = f i) /\
    (forall i, (n <= i)%nat -> nth i t' d = nth i t d).
Proof.
  induction n as [|n IH]; intro t.
  - cbn. repeat split; intros; lia.
  - rewrite seq_S, fold_left_app. cbn [fold_left Nat.add].
    destruct (IH t) as [H1 [H2 H3]]. cbn zeta in *.
    split; [|split].
    + now rewrite length_set_nth.
    + intros i Hi Hl. destruct (Nat.eq_dec i n) as [->|Hne].
      * apply nth_set_nth_same. now rewrite H1.
      * rewrite nth_set_nth_other by lia. apply H2; lia.
    + intros i Hi. rewrite nth_set_nth_other by lia. apply H3. lia.
Qed.

(** X16.  One call of [readAndTransmitData] hands exactly one packet to the
    radio and counts it, refreshes the readings of the active slots from
    their probes and leaves the other readings as they were, marks the data
    valid, and changes nothing of the configuration or the EEPROM. *)
Theorem transmission_effects (io : transmit_io) (s s' : machine) :
  List.length (temps (latestData s)) = 10%nat ->
  0 <= activeSensorCount s <= 10 ->
  readAndTransmitData io s = Done s' ->
  (exists packet,
     radio s' = radio s ++ [packet] /\
     encode_packet (transmitterID s) (activeSensorCount s) (temps (latestData s'))
     = Some packet) /\
  totalPackets s' = u32 (totalPackets s + 1) /\
  valid (latestData s') = true /\
  timestamp (latestData s') = millis_read io / 1000 /\
  (forall i, (i < Z.to_nat (activeSensorCount s))%nat ->
     nth i (temps (latestData s')) fzero = probe io (slot s i)) /\
  (forall i, (Z.to_nat (activeSensorCount s) <= i)%nat ->
     nth i (temps (latestData s')) fzero = nth i (temps (latestData s)) fzero) /\
  sensorConfig s' = sensorConfig s /\
  activeSensorCount s' = activeSensorCount s /\
  sensorsConfigured s' = sensorsConfigured s /\
  eeprom s' = eeprom s /\
  flash s' = flash s.
Proof.
  intros Hlen Hc H. unfold readAndTransmitData in H.
  cbn [transmitterID activeSensorCount set_latestData] in H.
  destruct (fill_readings (fun i => probe io (slot s i)) fzero
              (Z.to_nat (activeSensorCount s)) (temps (latestData s)))
    as [_ [H2 H3]]. cbn zeta in H2, H3.
  destruct (encode_packet _ _ _) as [packet|] eqn:E; [|discriminate].
  inversion H; subst s'. clear H.
  cbn [radio totalPackets latestData valid timestamp temps sensorConfig
       activeSensorCount sensorsConfigured eeprom flash LoRa_send set_latestData].
  split; [exists packet; split; [reflexivity|exact E]|].
  repeat split.
  - intros i Hi. apply H2; [exact Hi|]. rewrite Hlen. lia.
  - exact H3.
Qed.

Lemma transmission_effects_witness :
  exists s',
    readAndTransmitData warm_probes configured_machine = Done s' /\
    radio s' = ["TX1:12.3,0.0,0.0,0.0,0.0,0.0,0.0,0.0,0.0,25.1"%string] /\
    totalPackets s' = 1.
Proof.
  eexists. split; [vm_compute; reflexivity|].
  edestruct (transmission_effects warm_probes configured_machine)
    as [[packet [Hr He]] [Ht _]].
  - reflexivity.
  - simpl. lia.
  - vm_compute. reflexivity.
  - split; [reflexivity|exact Ht].
Defined.

(** X17.  The device goes to deep sleep only in power-save mode and only
    right after handing a packet to the radio. *)
Theorem sleep_only_after_send (io : loop_io) (s s' : machine) :
  loop io s = Done s' ->
  asleep s = false ->
  asleep s' = true ->
  powerSaveMode s' = true /\ exists packet, radio s' = radio s ++ [packet].
Proof.
  unfold loop. intros H Ha Ha'.
  assert (Hsetup : exists s1,
            (if setup_pressed io
             then match enterSetupMode (setup_world io) s with
                  | Done (_, s'0) => Done s'0
                  | OutOfBounds => OutOfBounds
                  | Pending => Pending
                  end
             else Done s) = Done s1 /\
            radio s1 = radio s /\ asleep s1 = asleep s).
  { destruct (setup_pressed io).
    - unfold enterSetupMode in *.
      destruct (scanAndIdentifySensors (setup_world io) s) as [[e s1]| |] eqn:E;
        try discriminate.
      apply scan_frame in E. exists s1. split; [reflexivity|]. tauto.
    - exists s. repeat split. }
  destruct Hsetup as [s1 [E1 [R1 R3]]]. rewrite E1 in H.
  destruct (transmit_due (loop_millis io) s1).
  - unfold readAndTransmitData in H.
    destruct (encode_packet _ _ _) as [packet|]; [|discriminate].
    inversion H; subst s'. clear H.
    cbn [powerSaveMode set_lastTransmitTime LoRa_send set_latestData] in *.
    destruct (powerSaveMode s1) eqn:Ep;
      cbn [asleep radio powerSaveMode enterDeepSleep set_lastTransmitTime LoRa_send
           set_latestData] in *.
    + split; [exact Ep|]. exists packet. now rewrite R1.
    + congruence.
  - inversion H; subst. congruence.
Qed.

Lemma sleep_only_after_send_witness :
  exists s',
    loop due_turn (set_powerSaveMode true configured_machine) = Done s' /\
    asleep s' = true /\
    List.length (radio s') = 1%nat.
Proof.
  eexists. split; [vm_compute; reflexivity|].
  edestruct (sleep_only_after_send due_turn (set_powerSaveMode true configured_machine))
    as [_ [packet Hr]].
  - vm_compute. reflexivity.
  - reflexivity.
  - reflexivity.
  - split; [reflexivity|]. rewrite Hr. reflexivity.
Defined.

(** ** Button and buzzer *)

(** X18.  [checkButtonPress] answers true as soon as the button, low at
    every look so far, is seen low with more than [duration] ms on the clock
    since the press began; it answers false when the button is seen released
    before that, and at once when it is not pressed at entry. *)
Theorem button_press_result (duration pressStart : Z) (held : list button_sample)
    (x : button_sample) (rest : list button_sample) :
  Forall (fun h => is_low h = true /\ u32 (millis_check h - pressStart) <= duration) held ->
  (is_low x = true -> duration < u32 (millis_check x - pressStart) ->
   checkButtonPress duration true pressStart (held ++ x :: rest) = Done true) /\
  (is_low x = false ->
   checkButtonPress duration true pressStart (held ++ x :: rest) = Done false) /\
  checkButtonPress duration false pressStart (held ++ x :: rest) = Done false.
Proof.
  intro Hheld. unfold checkButtonPress.
  assert (Hskip : checkButtonPress_loop pressStart duration (held ++ x :: rest)
                  = checkButtonPress_loop pressStart duration (x :: rest)).
  { induction Hheld as [|h l [Hl Ht] _ IH]; [reflexivity|].
    cbn [app checkButtonPress_loop]. rewrite Hl.
    apply Z.ltb_ge in Ht. now rewrite Ht. }
  rewrite Hskip. cbn [checkButtonPress_loop]. split; [|split].
  - intros Hl Ht. apply Z.ltb_lt in Ht. now rewrite Hl, Ht.
  - intros Hl. now rewrite Hl.
  - reflexivity.
Qed.

Lemma button_press_result_witness :
  checkButtonPress 3000 true 1000
    [ {| is_low := true; millis_check := 1100 |};
      {| is_low := true; millis_check := 2500 |};
      {| is_low := true; millis_check := 4001 |} ] = Done true /\
  checkButtonPress 3000 true 1000
    [ {| is_low := true; millis_check := 1100 |};
      {| is_low := true; millis_check := 2500 |};
      {| is_low := false; millis_check := 2600 |} ] = Done false.
Proof.
  assert (Hheld : Forall (fun h => is_low h = true /\ u32 (millis_check h - 1000) <= 3000)
                    [ {| is_low := true; millis_check := 1100 |};
                      {| is_low := true; millis_check := 2500 |} ]).
  { repeat constructor; vm_compute; discriminate. }
  split.
  - destruct (button_press_result 3000 1000 _ {| is_low := true; millis_check := 4001 |}
                [] Hheld) as [H _].
    apply H; reflexivity.
  - destruct (button_press_result 3000 1000 _ {| is_low := false; millis_check := 2600 |}
                [] Hheld) as [_ [H _]].
    apply H. reflexivity.
Defined.

(** X19.  For a positive frequency and a duration whose product with it
    fits a 32-bit [long], the delays [playTone] asks for add up to no more
    than the duration; a frequency of 0 gives no tone at all (the division
    traps). *)
Theorem tone_within_duration (frequency duration : Z) :
  0 < frequency ->
  0 <= duration ->
  frequency * duration < 2 ^ 31 ->
  (exists t, playTone frequency duration = Some t /\
             0 <= tone_micros t <= duration * 1000) /\
  playTone 0 duration = None.
Proof.
  intros Hf Hd Hfit. split; [|reflexivity].
  unfold playTone. assert ((frequency =? 0) = false) as -> by (apply Z.eqb_neq; lia).
  eexists. split; [reflexivity|]. unfold tone_micros. cbn [fst snd].
  assert (Hs : s32 (frequency * duration) = frequency * duration).
  { unfold s32. rewrite Z.mod_small; [lia|].
    change (2 ^ 32) with (2 * 2 ^ 31). nia. }
  assert (Q1 : Z.quot 1000000 frequency = 1000000 / frequency)
    by (apply Z.quot_div_nonneg; lia).
  assert (Q2 : Z.quot (1000000 / frequency) 2 = 1000000 / frequency / 2)
    by (apply Z.quot_div_nonneg; [apply Z.div_pos; lia|lia]).
  assert (Q3 : Z.quot (frequency * duration) 1000 = frequency * duration / 1000)
    by (apply Z.quot_div_nonneg; nia).
  rewrite Hs, Q1, Q2, Q3.
  set (a := frequency * duration / 1000).
  set (b := 1000000 / frequency).
  assert (Ha : 0 <= a) by (apply Z.div_pos; nia).
  assert (Hb : 0 <= b) by (apply Z.div_pos; lia).
  assert (Ha' : 1000 * a <= frequency * duration)
    by (apply Z.mul_div_le; lia).
  assert (Hb' : frequency * b <= 1000000) by (apply Z.mul_div_le; lia).
  assert (Hh : 0 <= 2 * (b / 2) <= b).
  { split; [pose proof (Z.div_pos b 2 Hb); lia|apply Z.mul_div_le; lia]. }
  rewrite Z.max_r by exact Ha.
  split; [nia|].
  assert (Hab : a * b <= duration * 1000).
  { assert (H1 : (1000 * a) * (frequency * b) <= (frequency * duration) * 1000000)
      by (apply Z.mul_le_mono_nonneg; nia).
    nia. }
  nia.
Qed.

Lemma tone_within_duration_witness :
  exists t, playTone 1500 100 = Some t /\ 0 <= tone_micros t <= 100 * 1000.
Proof.
  destruct (tone_within_duration 1500 100) as [H _].
  - lia.
  - lia.
  - reflexivity.
  - exact H.
Defined.

(** ** More on the checks and the packet *)

(** X20.  [validateUniqueConfig] is true exactly when no two of the slots
    below the active count hold the same address, and
    [isDuplicateSensor] is true exactly when the address is in a slot below
    both the given index and the active count. *)
Theorem uniqueness_checks_spec (s : machine) (newAddr : DeviceAddress)
    (excludeIndex : nat) :
  (validateUniqueConfig s = true <->
   forall i j, (i < j < Z.to_nat (activeSensorCount s))%nat -> slot s i <> slot s j) /\
  (isDuplicateSensor s newAddr excludeIndex = true <->
   exists k, (k < excludeIndex)%nat /\ (k < Z.to_nat (activeSensorCount s))%nat /\
             newAddr = slot s k).
Proof.
  split; [apply validateUniqueConfig_true|apply isDuplicateSensor_true].
Qed.

Lemma string_length_of_list (l : text) :
  String.length (string_of_list_ascii l) = List.length l.
Proof. induction l as [|c l IH]; simpl; [reflexivity|now rewrite IH]. Qed.

(** X21.  For an identity in range, an active count from 1 to 10 and probe
    readings, the packet is never cut by the buffer: it is complete and at
    most 237 characters long. *)
Theorem packet_fits_buffer (id activeCount : Z) (reading : list float) :
  0 <= id < 65536 ->
  1 <= activeCount <= 10 ->
  Forall (fun x => probe_value x = true) reading ->
  exists packet,
    encode_packet id activeCount reading = Some packet /\
    chars packet = List.concat (packet_pieces id activeCount reading) /\
    (String.length packet <= 237)%nat.
Proof.
  intros Hid Hac Hr. eexists. split; [apply encode_packet_text; assumption|].
  unfold chars. rewrite list_ascii_of_string_of_list_ascii, string_length_of_list.
  split.
  - rewrite packet_pieces_fields. cbn [List.concat]. rewrite concat_app.
    cbn [List.concat]. now rewrite app_nil_r.
  - rewrite !length_app.
    pose proof (header_length id Hid) as Hh. rewrite !length_app in Hh.
    pose proof (probe_value_length _ (probe_value_nth reading 0 Hr)) as Hl.
    pose proof (concat_length_bound 23
                  (map (fun f => f ++ chars ",") (position_fields activeCount reading)))
      as Hb.
    rewrite length_map, (position_fields_length activeCount reading Hac) in Hb.
    assert (Hall : Forall (fun p : text => (List.length p <= 23)%nat)
                     (map (fun f => f ++ chars ",") (position_fields activeCount reading))).
    { apply Forall_forall. intros p Hp.
      apply in_map_iff in Hp. destruct Hp as [f [<- Hf]].
      rewrite length_app. change (List.length (chars ",")) with 1%nat.
      unfold position_fields in Hf.
      apply in_app_or in Hf. destruct Hf as [Hf|Hf];
        apply in_map_iff in Hf; destruct Hf as [i [<- _]].
      - pose proof (probe_value_length _ (probe_value_nth reading i Hr)). lia.
      - simpl. lia. }
    specialize (Hb Hall). unfold chars in *. lia.
Qed.

Lemma packet_fits_buffer_witness :
  exists packet,
    encode_packet 7 3 [f25_1; f12_3; f18_0] = Some packet /\
    (String.length packet <= 237)%nat.
Proof.
  destruct (packet_fits_buffer 7 3 [f25_1; f12_3; f18_0]) as [p [H1 [_ H2]]].
  - lia.
  - lia.
  - repeat constructor.
  - exists p. split; assumption.
Defined.

(** X22.  Once the ambient sensor has been identified the attempt cannot
    abort: however the position waits end (touch, save button or timeout),
    the sequence reaches its save, with the identified device in slot 0. *)
Theorem ambient_found_implies_completion (w : world) (s : machine)
    (idx : Z) (baselines : list float) (e : setup_exit) (s' : machine) :
  List.length (sensorConfig s) = 10%nat ->
  devices w <> [] ->
  findSensorByTouch (ambient w)
    (map (baselineTemp w) (seq 0 (Nat.min (List.length (devices w)) 16)))
    (List.length (devices w)) = Done (idx, baselines) ->
  0 <= idx ->
  scanAndIdentifySensors w s = Done (e, s') ->
  e = SetupComplete /\
  sensorsConfigured s' = true /\
  slot s' 0 = nth (Z.to_nat idx) (devices w) zero_address.
Proof.
  intros Hlen Hdev Hfind Hidx H.
  pose proof H as Hout. apply scan_outcome in Hout; [|exact Hlen].
  unfold scanAndIdentifySensors in H.
  destruct (List.length (devices w) <? 1)%nat eqn:Edev.
  { apply Nat.ltb_lt in Edev. destruct (devices w); [congruence|simpl in Edev; lia]. }
  rewrite Hfind in H. apply Z.leb_le in Hidx. rewrite Hidx in H. apply Z.leb_le in Hidx.
  destruct (assign_positions _ _ _ _ _ _ _) as [c| |] eqn:Ea; try discriminate.
  apply assign_positions_inv in Ea; [|reflexivity|lia|reflexivity].
  destruct Ea as [_ H0].
  destruct Hout as [[_ [_ Hd]]|[[He _]|[He _]]].
  - contradiction.
  - subst e. destruct (validateUniqueConfig c); discriminate.
  - subst e. destruct (validateUniqueConfig c); [|discriminate].
    inversion H; subst s'. split; [reflexivity|]. split; [reflexivity|].
    change (slot (set_sensorsConfigured true (saveSensorConfig c)) 0) with (slot c 0).
    rewrite H0. unfold slot, assign_slot.
    cbn [sensorConfig set_activeSensorCount set_sensorConfig].
    rewrite nth_set_nth_same by lia.
    unfold findSensorByTouch in Hfind.
    apply findSensorByTouch_index in Hfind; [|exact Hidx].
    rewrite length_map, length_seq in Hfind.
    revert Hfind. generalize (Z.to_nat idx) as k. intros k Hk.
    rewrite <- (firstn_skipn 16 (devices w)) at 2.
    rewrite app_nth1; [reflexivity|]. rewrite length_firstn. lia.
Qed.

Lemma ambient_found_implies_completion_witness :
  exists s',
    scanAndIdentifySensors guided_world (boot blank_rom) = Done (SetupComplete, s') /\
    slot s' 0 = probe_A.
Proof.
  eexists. split; [vm_compute; reflexivity|].
  edestruct (ambient_found_implies_completion guided_world (boot blank_rom))
    as [_ [_ H]].
  - reflexivity.
  - discriminate.
  - vm_compute. reflexivity.
  - vm_compute. discriminate.
  - vm_compute. reflexivity.
  - rewrite H. reflexivity.
Defined.

(** ** The candidate arrays *)

Lemma first_touch_in_range (p : poll) (baselines : list float) (n : nat) :
  forall i, (i + n <= List.length baselines)%nat ->
            first_touch p baselines i n <> OutOfBounds.
Proof.
  induction n as [|n IH]; intros i H; cbn [first_touch]; [discriminate|].
  rewrite (nth_error_nth_lt baselines i fzero) by lia.
  destruct (touched _ _); [discriminate|]. apply IH. lia.
Qed.

Lemma first_touch_overrun (p : poll) (baselines : list float) (n : nat) :
  forall i, (i <= List.length baselines)%nat ->
            (List.length baselines < i + n)%nat ->
            (forall k, (i <= k < List.length baselines)%nat -> untouched p baselines k) ->
            first_touch p baselines i n = OutOfBounds.
Proof.
  induction n as [|n IH]; intros i Hi Hn Hq; cbn [first_touch]; [lia|].
  destruct (Nat.eq_dec i (List.length baselines)) as [->|Hne].
  - assert (nth_error baselines (List.length baselines) = None) as ->
      by (apply nth_error_None; lia).
    reflexivity.
  - rewrite (nth_error_nth_lt baselines i fzero) by lia.
    rewrite (Hq i) by lia. apply IH; try lia. intros k Hk. apply Hq. lia.
Qed.

Lemma findSensorByTouch_in_range (startTime : Z) (count : nat) (ps : list poll) :
  forall baselines,
    (count <= List.length baselines)%nat ->
    findSensorByTouch_from startTime ps baselines count <> OutOfBounds.
Proof.
  induction ps as [|p ps IH]; intros baselines H; cbn [findSensorByTouch_from];
    [discriminate|].
  destruct (u32 (clock p - startTime) <? TOUCH_TIMEOUT_MS); [|discriminate].
  pose proof (first_touch_in_range p baselines count 0 H) as Hf.
  destruct (first_touch p baselines 0 count) as [[k|]| |];
    try discriminate; try contradiction.
  apply IH. exact H.
Qed.

Lemma wait_for_position_in_range (pos : nat) (allSensors : list DeviceAddress)
    (n : nat) (ps : list poll) :
  forall st, wait_for_position pos allSensors n ps st <> OutOfBounds.
Proof.
  induction ps as [|p ps IH]; intro st; cbn [wait_for_position]; [discriminate|].
  destruct (u32 (clock p - w_waitStart st) <? POSITION_TIMEOUT_MS); [|discriminate].
  destruct (save_held p); [discriminate|].
  destruct (w_sensorFound _); [discriminate|]. apply IH.
Qed.

Lemma assign_positions_in_range (allSensors : list DeviceAddress) (n : nat)
    (remaining : nat) :
  forall pos ws baselines s,
    assign_positions remaining pos allSensors n ws baselines s <> OutOfBounds.
Proof.
  induction remaining as [|k IH]; intros pos ws baselines s;
    cbn [assign_positions]; [discriminate|].
  destruct ws as [|w ws']; [discriminate|].
  pose proof (wait_for_position_in_range pos allSensors n (polls w)
                {| w_machine := s; w_baselines := baselines;
                   w_waitStart := opened w; w_sensorFound := false |}) as Hw.
  destruct (wait_for_position _ _ _ _ _) as [[e st]| |]; try discriminate;
    try contradiction.
  destruct e; try discriminate. apply IH.
Qed.

(** X23.  With at most 16 devices on the bus a setup attempt never reads
    outside its candidate arrays. *)
Theorem setup_stays_in_bounds (w : world) (s : machine) :
  (List.length (devices w) <= 16)%nat ->
  scanAndIdentifySensors w s <> OutOfBounds.
Proof.
  intro H. unfold scanAndIdentifySensors.
  destruct (List.length (devices w) <? 1)%nat; [discriminate|].
  pose proof (findSensorByTouch_in_range (opened (ambient w)) (List.length (devices w))
                (polls (ambient w))
                (map (baselineTemp w) (seq 0 (Nat.min (List.length (devices w)) 16))))
    as Hf.
  unfold findSensorByTouch.
  destruct (findSensorByTouch_from _ _ _ _) as [[idx b']| |]; try discriminate.
  - destruct (0 <=? idx); [|discriminate].
    pose proof (assign_positions_in_range (firstn 16 (devices w))
                  (Nat.min (List.length (devices w)) 16)
                  (Z.to_nat MAX_SENSOR_COUNT - 1) 1 (positions w) b'
                  (set_activeSensorCount 1
                     (assign_slot 0 (nth (Z.to_nat idx) (firstn 16 (devices w)) zero_address)
                        (set_activeSensorCount 0 s)))) as Ha.
    destruct (assign_positions _ _ _ _ _ _ _) as [c| |]; try discriminate;
      try contradiction.
    destruct (validateUniqueConfig c); discriminate.
  - exfalso. apply Hf; [|reflexivity]. rewrite length_map, length_seq. lia.
Qed.

Lemma setup_stays_in_bounds_witness :
  scanAndIdentifySensors guided_world (boot blank_rom) <> OutOfBounds.
Proof.
  apply (setup_stays_in_bounds guided_world (boot blank_rom)). simpl. lia.
Defined.

(** X24.  With more than 16 devices on the bus, a first ambient pass in
    which none of the first 16 candidates is touched goes on to candidate 16
    and reads past the end of the 16-entry arrays. *)
Theorem ambient_wait_overruns_arrays (w : world) (s : machine) (p : poll)
    (rest : list poll) :
  (16 < List.length (devices w))%nat ->
  polls (ambient w) = p :: rest ->
  u32 (clock p - opened (ambient w)) < TOUCH_TIMEOUT_MS ->
  (forall k, (k < 16)%nat -> touched (getTempC p k) (baselineTemp w k) = false) ->
  scanAndIdentifySensors w s = OutOfBounds.
Proof.
  intros Hdev Hp Hin Hq. unfold scanAndIdentifySensors.
  assert ((List.length (devices w) <? 1)%nat = false) as ->
    by (apply Nat.ltb_ge; lia).
  unfold findSensorByTouch. rewrite Hp. cbn [findSensorByTouch_from].
  apply Z.ltb_lt in Hin. rewrite Hin.
  replace (Nat.min (List.length (devices w)) 16) with 16%nat by lia.
  rewrite first_touch_overrun; [reflexivity| | |].
  - lia.
  - rewrite length_map, length_seq. lia.
  - rewrite length_map, length_seq. intros k Hk. unfold untouched.
    rewrite nth_map_seq by lia. cbn [Nat.add]. apply Hq. lia.
Qed.

Lemma ambient_wait_overruns_arrays_witness :
  scanAndIdentifySensors crowded_world (boot blank_rom) = OutOfBounds.
Proof.
  apply (ambient_wait_overruns_arrays crowded_world (boot blank_rom)
           (pass 500 (repeat f20_0 17)) []).
  - simpl. lia.
  - reflexivity.
  - reflexivity.
  - intros k Hk. do 16 (destruct k as [|k]; [reflexivity|]). lia.
Defined.
